(** * Wallet ledger: deposits, scheduled withdrawals and their execution

    A shallow embedding of [wallets/models.py], [wallets/services.py],
    [wallets/tasks.py] and the wallet-creating view of [wallets/views.py].

    Conventions of the embedding.
    - Python integers are unbounded, so amounts, balances and primary keys
      are [Z].  A [PositiveBigIntegerField] column holds the integers from
      0 to [BIGINT_MAX], the limit of a signed 64-bit column (PostgreSQL,
      SQLite).  The services write values that come from their caller, a
      balance plus a deposit and the amount of a new withdrawal, and the
      store refuses such a value when the column does not hold it.  The
      execution engine writes amounts it read from a row and, in a run to
      its end, balances between zero and the balance its debit found; its
      writes are not checked, and a refund that an interleaved deposit has
      pushed past the limit is outside the model.
    - A table is the list of its rows in insertion order.  A queryset
      [filter(...)] is [List.filter], [update(...)] maps over the rows that
      match and reports how many did, [first()] is the head of the filtered
      list and [get(...)] demands exactly one match.
    - An aware [datetime] is the instant it denotes, counted in
      microseconds; every UTC offset of Asia/Tehran in use is a whole number
      of minutes, so flooring the wall clock to the minute floors the
      instant.
    - Code runs in a state-and-exception monad over the database and the
      number of calls made so far to the settlement provider;
      [transaction.atomic] restores the database when its body raises.
    - The columns that [utils.models.BaseModel] adds (time stamps) play no
      part in any function below and are left out. *)

From Stdlib Require Import ZArith List String Bool Lia.
Import ListNotations.

Open Scope Z_scope.

(** ** models.py *)

Module Wallet.

Record t : Type := Build {
  id : Z;
  uuid : string;
  balance : Z;
  freeze_amount : Z
}.

Definition available_balance (self : t) : Z :=
  balance self - freeze_amount self.

Definition with_balance (b : Z) (self : t) : t :=
  {| id := id self; uuid := uuid self; balance := b;
     freeze_amount := freeze_amount self |}.

End Wallet.

Module Transaction.

Inductive type_choice : Type := DEPOSIT | WITHDRAW.

Record t : Type := Build {
  id : Z;
  amount : Z;
  type : type_choice;
  wallet : Z
}.

Definition type_eqb (a b : type_choice) : bool :=
  match a, b with
  | DEPOSIT, DEPOSIT | WITHDRAW, WITHDRAW => true
  | _, _ => false
  end.

End Transaction.

Module ScheduledWithdrawal.

Inductive status_choice : Type := PENDING | PROCESSING | COMPLETED | FAILED.

Record t : Type := Build {
  id : Z;
  wallet : Z;
  amount : Z;
  scheduled_for : Z;
  status : status_choice;
  transaction : option Z;
  error_message : option string;
  is_valid : bool
}.

Definition status_eqb (a b : status_choice) : bool :=
  match a, b with
  | PENDING, PENDING | PROCESSING, PROCESSING
  | COMPLETED, COMPLETED | FAILED, FAILED => true
  | _, _ => false
  end.

Definition with_status (st : status_choice) (self : t) : t :=
  {| id := id self; wallet := wallet self; amount := amount self;
     scheduled_for := scheduled_for self; status := st;
     transaction := transaction self;
     error_message := error_message self; is_valid := is_valid self |}.

Definition with_error_message (m : option string) (self : t) : t :=
  {| id := id self; wallet := wallet self; amount := amount self;
     scheduled_for := scheduled_for self; status := status self;
     transaction := transaction self;
     error_message := m; is_valid := is_valid self |}.

Definition with_transaction (tx : option Z) (self : t) : t :=
  {| id := id self; wallet := wallet self; amount := amount self;
     scheduled_for := scheduled_for self; status := status self;
     transaction := tx;
     error_message := error_message self; is_valid := is_valid self |}.

End ScheduledWithdrawal.

Import ScheduledWithdrawal(PENDING, PROCESSING, COMPLETED, FAILED).
Import Transaction(DEPOSIT, WITHDRAW).

(** ** The database and the outside world *)

Record Store : Type := {
  wallets : list Wallet.t;
  transactions : list Transaction.t;
  scheduled_withdrawals : list ScheduledWithdrawal.t
}.

Definition empty_store : Store :=
  {| wallets := []; transactions := []; scheduled_withdrawals := [] |}.

(** What one call of [request_third_party_deposit] comes back with: a
    response, of which the code reads [response.get('data')] and the
    rendering [f'{response}'], or an exception, of which it reads [str(e)]. *)
Inductive BankReply : Type :=
| Response (data : option string) (rendered : string)
| Raises (str_e : string).

Record World : Type := {
  db : Store;
  bank_calls : nat
}.

Definition empty_world : World := {| db := empty_store; bank_calls := 0 |}.

(** ** Exceptions, state and [transaction.atomic] *)

(** [DataError] is the error of the store for a value that a column does
    not hold; [OtherError] is any other exception, by the name of its
    class. *)
Inductive Exn : Type :=
| ValueError (msg : string)
| TypeError
| DoesNotExist
| MultipleObjectsReturned
| IntegrityError
| DataError
| OtherError (name : string).

Inductive Result (A : Type) : Type :=
| Return (a : A)
| Raise (e : Exn).
Arguments Return {A} a.
Arguments Raise {A} e.

Definition M (A : Type) : Type := World -> Result A * World.

Definition ret {A} (a : A) : M A := fun w => (Return a, w).

Definition bind {A B} (m : M A) (k : A -> M B) : M B :=
  fun w =>
    match m w with
    | (Return a, w') => k a w'
    | (Raise e, w') => (Raise e, w')
    end.

Definition raise {A} (e : Exn) : M A := fun w => (Raise e, w).

Definition get_db : M Store := fun w => (Return (db w), w).

Definition put_db (s : Store) : M unit :=
  fun w => (Return tt, {| db := s; bank_calls := bank_calls w |}).

(** Commit on normal exit, roll the database back when the body raises. *)
Definition atomic {A} (body : M A) : M A :=
  fun w =>
    match body w with
    | (Return a, w') => (Return a, w')
    | (Raise e, w') => (Raise e, {| db := db w; bank_calls := bank_calls w' |})
    end.

Declare Scope monad_scope.
Delimit Scope monad_scope with monad.
Notation "x <- m ;; k" := (bind m (fun x => k))
  (at level 61, m at next level, right associativity) : monad_scope.
Notation "m ;;; k" := (bind m (fun _ => k))
  (at level 61, right associativity) : monad_scope.
Open Scope monad_scope.

(** The state a computation leaves behind. *)
Definition exec {A} (m : M A) (w : World) : World := snd (m w).

(** ** The ORM operations the code uses *)

(** The largest value a [PositiveBigIntegerField] column holds. *)
Definition BIGINT_MAX : Z := 9223372036854775807.

(** The values such a column holds. *)
Definition fits (n : Z) : bool := (0 <=? n) && (n <=? BIGINT_MAX).

(** The key the database gives a new row: one more than the largest in use. *)
Definition next_id (ids : list Z) : Z := 1 + fold_right Z.max 0 ids.

Definition update_rows {A} (p : A -> bool) (f : A -> A) (rows : list A)
  : list A :=
  map (fun r => if p r then f r else r) rows.

Definition count_rows {A} (p : A -> bool) (rows : list A) : Z :=
  Z.of_nat (List.length (filter p rows)).

Definition set_wallets (ws : list Wallet.t) (s : Store) : Store :=
  {| wallets := ws; transactions := transactions s;
     scheduled_withdrawals := scheduled_withdrawals s |}.

Definition set_transactions (ts : list Transaction.t) (s : Store) : Store :=
  {| wallets := wallets s; transactions := ts;
     scheduled_withdrawals := scheduled_withdrawals s |}.

Definition set_scheduled_withdrawals (ws : list ScheduledWithdrawal.t)
  (s : Store) : Store :=
  {| wallets := wallets s; transactions := transactions s;
     scheduled_withdrawals := ws |}.

(** [Wallet.objects.get(uuid=...)], with or without [select_for_update]. *)
Definition Wallet_get_by_uuid (wallet_uuid : string) : M Wallet.t :=
  s <- get_db ;;
  match filter (fun r => String.eqb (Wallet.uuid r) wallet_uuid) (wallets s) with
  | [] => raise DoesNotExist
  | [r] => ret r
  | _ => raise MultipleObjectsReturned
  end.

(** [instance.save()]: write every column of the row with the instance's
    key, insert the instance when there is no such row.  The wallet is
    saved with a balance the caller computed, which the store refuses with
    [DataError] ([OverflowError] with SQLite) when the column does not hold
    it; the other columns are written back as they were read. *)
Definition Wallet_save (self : Wallet.t) : M unit :=
  if negb (fits (Wallet.balance self)) then raise DataError
  else
    s <- get_db ;;
    let hit := fun r => Wallet.id r =? Wallet.id self in
    if existsb hit (wallets s)
    then put_db (set_wallets (update_rows hit (fun _ => self) (wallets s)) s)
    else put_db (set_wallets (wallets s ++ [self]) s).

Definition ScheduledWithdrawal_save (self : ScheduledWithdrawal.t) : M unit :=
  s <- get_db ;;
  let hit := fun r => ScheduledWithdrawal.id r =? ScheduledWithdrawal.id self in
  if existsb hit (scheduled_withdrawals s)
  then put_db (set_scheduled_withdrawals
                 (update_rows hit (fun _ => self) (scheduled_withdrawals s)) s)
  else put_db (set_scheduled_withdrawals (scheduled_withdrawals s ++ [self]) s).

(** [Transaction.objects.create(wallet=..., amount=..., type=...)]; the
    foreign key column holds the wallet's primary key.  The amount is one
    the store holds by then: a deposit's amount is at most the balance
    just saved, and the engine's is read from the withdrawal row. *)
Definition Transaction_create (wallet_id : Z) (amount : Z)
  (type : Transaction.type_choice) : M Transaction.t :=
  s <- get_db ;;
  let row := {| Transaction.id := next_id (map Transaction.id (transactions s));
                Transaction.amount := amount;
                Transaction.type := type;
                Transaction.wallet := wallet_id |} in
  put_db (set_transactions (transactions s ++ [row]) s) ;;;
  ret row.

(** [ScheduledWithdrawal.objects.create(...)]; the columns not given take
    their defaults: no transaction, no error message, [is_valid] true.
    The amount comes from the caller, and the store refuses it with
    [DataError] when the column does not hold it. *)
Definition ScheduledWithdrawal_create (wallet : Wallet.t) (amount : Z)
  (scheduled_for : Z) (status : ScheduledWithdrawal.status_choice)
  : M ScheduledWithdrawal.t :=
  if negb (fits amount) then raise DataError
  else
    s <- get_db ;;
    let row :=
      {| ScheduledWithdrawal.id :=
           next_id (map ScheduledWithdrawal.id (scheduled_withdrawals s));
         ScheduledWithdrawal.wallet := Wallet.id wallet;
         ScheduledWithdrawal.amount := amount;
         ScheduledWithdrawal.scheduled_for := scheduled_for;
         ScheduledWithdrawal.status := status;
         ScheduledWithdrawal.transaction := None;
         ScheduledWithdrawal.error_message := None;
         ScheduledWithdrawal.is_valid := true |} in
    put_db (set_scheduled_withdrawals (scheduled_withdrawals s ++ [row]) s) ;;;
    ret row.

(** [Wallet.objects.filter(p).update(balance=F('balance') + delta)], which
    returns the number of rows it changed. *)
Definition Wallet_update_balance (p : Wallet.t -> bool) (delta : Z) : M Z :=
  s <- get_db ;;
  put_db (set_wallets
            (update_rows p
               (fun r => Wallet.with_balance (Wallet.balance r + delta) r)
               (wallets s)) s) ;;;
  ret (count_rows p (wallets s)).

(** ** views.py: creating a wallet

    [CreateWalletView] saves a [Wallet] whose serializer fields are all
    read-only, so every column takes its default: a fresh [uuid4] (given
    here as an argument), balance 0 and freeze amount 0.  The [uuid] column
    is unique. *)
Definition create_wallet (fresh_uuid : string) : M Wallet.t :=
  s <- get_db ;;
  if existsb (fun r => String.eqb (Wallet.uuid r) fresh_uuid) (wallets s)
  then raise IntegrityError
  else
    let row := {| Wallet.id := next_id (map Wallet.id (wallets s));
                  Wallet.uuid := fresh_uuid;
                  Wallet.balance := 0;
                  Wallet.freeze_amount := 0 |} in
    put_db (set_wallets (wallets s ++ [row]) s) ;;;
    ret row.

(** ** services.py *)

Definition deposit_to_wallet (wallet_uuid : string) (amount : Z)
  : M Transaction.t :=
  atomic (
    if amount <=? 0 then raise (ValueError "Amount must be positive"%string)
    else
      wallet <- Wallet_get_by_uuid wallet_uuid ;;
      let wallet := Wallet.with_balance (Wallet.balance wallet + amount) wallet in
      Wallet_save wallet ;;;
      txn <- Transaction_create (Wallet.id wallet) amount DEPOSIT ;;
      ret txn).

(** [now] is what [timezone.now()] returns during the call. *)
Definition create_withdraw_request (now : Z) (wallet_uuid : string)
  (amount : Z) (scheduled_for : Z) : M ScheduledWithdrawal.t :=
  atomic (
    if amount <=? 0 then raise (ValueError "Amount must be positive"%string)
    else if scheduled_for <=? now
    then raise (ValueError "Scheduled time must be in the future"%string)
    else
      wallet <- Wallet_get_by_uuid wallet_uuid ;;
      withdraw_request <-
        ScheduledWithdrawal_create wallet amount scheduled_for PENDING ;;
      ret withdraw_request).

(** ** tasks.py *)

Definition MINUTE : Z := 60 * 1000000.

(** [now.replace(second=0, microsecond=0)]. *)
Definition floor_to_minute (now : Z) : Z := MINUTE * (now / MINUTE).

(** One call of the settlement provider; [bank n] is what the provider
    answers to the call numbered [n]. *)
Definition request_third_party_deposit (bank : nat -> BankReply) : M BankReply :=
  fun w => (Return (bank (bank_calls w)),
            {| db := db w; bank_calls := S (bank_calls w) |}).

Definition data_is_success (data : option string) : bool :=
  match data with
  | Some d => String.eqb d "success"
  | None => false
  end.

Definition insufficient_message : string :=
  "Insufficient balance at execution time".

Definition rejected_message (rendered : string) : string :=
  ("Bank rejected the request. Response: " ++ rendered)%string.

Definition error_message_of (str_e : string) : string :=
  ("Unexpected error: " ++ str_e ++ " - withdrawal amount refunded")%string.

(** The [try] block: [bank_success] and [error_message] after it. *)
Definition settlement_outcome (reply : BankReply) : bool * option string :=
  match reply with
  | Response data rendered =>
      let bank_success := data_is_success data in
      (bank_success,
       if bank_success then None else Some (rejected_message rendered))
  | Raises str_e => (false, Some (error_message_of str_e))
  end.

(** The condition of the conditional debit:
    [filter(id=withdrawal.wallet_id, balance__gte=withdrawal.amount)]. *)
Definition can_debit (withdrawal : ScheduledWithdrawal.t) (r : Wallet.t) : bool :=
  (Wallet.id r =? ScheduledWithdrawal.wallet withdrawal)
  && (ScheduledWithdrawal.amount withdrawal <=? Wallet.balance r).

(** The instance after [status = FAILED; error_message = ...]. *)
Definition mark_failed (error_message : option string)
  (withdrawal : ScheduledWithdrawal.t) : ScheduledWithdrawal.t :=
  ScheduledWithdrawal.with_error_message error_message
    (ScheduledWithdrawal.with_status FAILED withdrawal).

(** The instance after [status = COMPLETED; transaction = tx]. *)
Definition mark_completed (tx : Transaction.t)
  (withdrawal : ScheduledWithdrawal.t) : ScheduledWithdrawal.t :=
  ScheduledWithdrawal.with_transaction (Some (Transaction.id tx))
    (ScheduledWithdrawal.with_status COMPLETED withdrawal).

(** The first [with transaction.atomic()] block; [true] when the wallet was
    debited, [false] when the function returned from inside the block. *)
Definition debit_phase (withdrawal : ScheduledWithdrawal.t) : M bool :=
  atomic (
    updated <-
      Wallet_update_balance (can_debit withdrawal)
        (- ScheduledWithdrawal.amount withdrawal) ;;
    if updated =? 0 then
      ScheduledWithdrawal_save
        (mark_failed (Some insufficient_message) withdrawal) ;;;
      ret false
    else ret true).

(** The block under [if bank_success]. *)
Definition completion_phase (withdrawal : ScheduledWithdrawal.t) : M unit :=
  atomic (
    tx <- Transaction_create (ScheduledWithdrawal.wallet withdrawal)
            (ScheduledWithdrawal.amount withdrawal) WITHDRAW ;;
    ScheduledWithdrawal_save (mark_completed tx withdrawal)).

(** The block under [else]. *)
Definition compensation_phase (withdrawal : ScheduledWithdrawal.t)
  (error_message : option string) : M unit :=
  atomic (
    Wallet_update_balance
      (fun r => Wallet.id r =? ScheduledWithdrawal.wallet withdrawal)
      (ScheduledWithdrawal.amount withdrawal) ;;;
    ScheduledWithdrawal_save (mark_failed error_message withdrawal)).

(** The row [process_single_withdrawal] starts from:
    [filter(id=withdrawal_id, status=PROCESSING).first()]. *)
Definition fetch_processing (withdrawal_id : Z) (s : Store)
  : option ScheduledWithdrawal.t :=
  head (filter
          (fun r => (ScheduledWithdrawal.id r =? withdrawal_id)
                    && ScheduledWithdrawal.status_eqb
                         (ScheduledWithdrawal.status r) PROCESSING)
          (scheduled_withdrawals s)).

Definition process_single_withdrawal (bank : nat -> BankReply)
  (withdrawal_id : Z) : M unit :=
  s <- get_db ;;
  match fetch_processing withdrawal_id s with
  | None => ret tt
  | Some withdrawal =>
      debited <- debit_phase withdrawal ;;
      if negb debited then ret tt
      else
        reply <- request_third_party_deposit bank ;;
        let '(bank_success, error_message) := settlement_outcome reply in
        if bank_success
        then completion_phase withdrawal
        else compensation_phase withdrawal error_message
  end.

Fixpoint for_each {A} (xs : list A) (body : A -> M unit) : M unit :=
  match xs with
  | [] => ret tt
  | x :: rest => body x ;;; for_each rest body
  end.

(** The filter of the sweep's queryset. *)
Definition is_due (current_minute_start next_minute_start : Z)
  (r : ScheduledWithdrawal.t) : bool :=
  ScheduledWithdrawal.status_eqb (ScheduledWithdrawal.status r) PENDING
  && (current_minute_start <=? ScheduledWithdrawal.scheduled_for r)
  && (ScheduledWithdrawal.scheduled_for r <=? next_minute_start).

(** The [with transaction.atomic()] block of the sweep: the ids it claimed,
    or [None] when the function returned from inside the block. *)
Definition claim_due (now : Z) : M (option (list Z)) :=
  let current_minute_start := floor_to_minute now in
  let next_minute_start := current_minute_start + MINUTE in
  atomic (
    s <- get_db ;;
    let due_withdrawals := is_due current_minute_start next_minute_start in
    let withdrawal_ids :=
      map ScheduledWithdrawal.id
        (filter due_withdrawals (scheduled_withdrawals s)) in
    match withdrawal_ids with
    | [] => ret None
    | _ :: _ =>
        put_db (set_scheduled_withdrawals
                  (update_rows due_withdrawals
                     (ScheduledWithdrawal.with_status PROCESSING)
                     (scheduled_withdrawals s)) s) ;;;
        ret (Some withdrawal_ids)
    end).

(** [now] is what [timezone.now()] returns at the start of the run. *)
Definition process_scheduled_withdrawals (bank : nat -> BankReply) (now : Z)
  : M unit :=
  claimed <- claim_due now ;;
  match claimed with
  | None => ret tt
  | Some withdrawal_ids =>
      for_each withdrawal_ids (process_single_withdrawal bank)
  end.

(** ** Scenarios of the specification, run on the model *)

Module Scenarios.

Definition always (r : BankReply) : nat -> BankReply := fun _ => r.

Definition success : BankReply :=
  Response (Some "success"%string) "{'data': 'success'}".

Definition refusal : BankReply :=
  Response (Some "failed"%string) "{'data': 'failed'}".

Definition timeout : BankReply := Raises "Read timed out.".

Definition w1500 : World :=
  exec (deposit_to_wallet "a" 500)
    (exec (deposit_to_wallet "a" 1000) (exec (create_wallet "a") empty_world)).

Definition wallet_a : Wallet.t :=
  {| Wallet.id := 1; Wallet.uuid := "a"; Wallet.balance := 1500;
     Wallet.freeze_amount := 0 |}.

Definition scheduled (amount : Z) : World :=
  exec (create_withdraw_request 0 "a" amount 90000000) w1500.

(** The row that [scheduled amount] adds, once the sweep has claimed it. *)
Definition withdrawal_1 (amount : Z) : ScheduledWithdrawal.t :=
  {| ScheduledWithdrawal.id := 1;
     ScheduledWithdrawal.wallet := 1;
     ScheduledWithdrawal.amount := amount;
     ScheduledWithdrawal.scheduled_for := 90000000;
     ScheduledWithdrawal.status := PROCESSING;
     ScheduledWithdrawal.transaction := None;
     ScheduledWithdrawal.error_message := None;
     ScheduledWithdrawal.is_valid := true |}.

Definition claimed (amount : Z) : World :=
  exec (claim_due 61000000) (scheduled amount).

Definition swept (amount : Z) (r : BankReply) : World :=
  exec (process_scheduled_withdrawals (always r) 61000000) (scheduled amount).

End Scenarios.

(** ** Vocabulary of the statements *)

Definition sumZ (l : list Z) : Z := fold_right Z.add 0 l.

Definition total_balance (s : Store) : Z :=
  sumZ (map Wallet.balance (wallets s)).

(** The rows the services and the engine write. *)
Definition deposit_txn (s : Store) (wallet : Wallet.t) (amount : Z)
  : Transaction.t :=
  {| Transaction.id := next_id (map Transaction.id (transactions s));
     Transaction.amount := amount;
     Transaction.type := DEPOSIT;
     Transaction.wallet := Wallet.id wallet |}.

Definition withdraw_txn (s : Store) (withdrawal : ScheduledWithdrawal.t)
  : Transaction.t :=
  {| Transaction.id := next_id (map Transaction.id (transactions s));
     Transaction.amount := ScheduledWithdrawal.amount withdrawal;
     Transaction.type := WITHDRAW;
     Transaction.wallet := ScheduledWithdrawal.wallet withdrawal |}.

Definition new_wallet (s : Store) (fresh_uuid : string) : Wallet.t :=
  {| Wallet.id := next_id (map Wallet.id (wallets s));
     Wallet.uuid := fresh_uuid;
     Wallet.balance := 0;
     Wallet.freeze_amount := 0 |}.

Definition new_withdrawal (s : Store) (wallet : Wallet.t) (amount : Z)
  (scheduled_for : Z) : ScheduledWithdrawal.t :=
  {| ScheduledWithdrawal.id :=
       next_id (map ScheduledWithdrawal.id (scheduled_withdrawals s));
     ScheduledWithdrawal.wallet := Wallet.id wallet;
     ScheduledWithdrawal.amount := amount;
     ScheduledWithdrawal.scheduled_for := scheduled_for;
     ScheduledWithdrawal.status := PENDING;
     ScheduledWithdrawal.transaction := None;
     ScheduledWithdrawal.error_message := None;
     ScheduledWithdrawal.is_valid := true |}.

(** How [process_single_withdrawal] leaves a withdrawal whose wallet cannot
    pay, with the text of the recorded message left open: the conditional
    debit changes no row, the withdrawal row is marked failed with that
    message, the provider is not called, wallets and ledger stay as they
    were. *)
Definition insufficient_funds_outcome (message : string)
  (bank : nat -> BankReply) (withdrawal_id : Z) (w : World)
  (withdrawal : ScheduledWithdrawal.t) : Prop :=
  count_rows (can_debit withdrawal) (wallets (db w)) = 0 /\
  exists w',
    process_single_withdrawal bank withdrawal_id w = (Return tt, w') /\
    bank_calls w' = bank_calls w /\
    wallets (db w') = wallets (db w) /\
    transactions (db w') = transactions (db w) /\
    exists m1 m2,
      scheduled_withdrawals (db w) = m1 ++ withdrawal :: m2 /\
      scheduled_withdrawals (db w') =
        m1 ++ mark_failed (Some message) withdrawal :: m2.

(** The ids the sweep at [now] collects from the withdrawals of [s]. *)
Definition due_ids (now : Z) (s : Store) : list Z :=
  map ScheduledWithdrawal.id
    (filter (is_due (floor_to_minute now) (floor_to_minute now + MINUTE))
       (scheduled_withdrawals s)).

(** Handing ids to the execution engine one after the other, whatever
    became of the ones before. *)
Definition process_each (bank : nat -> BankReply) (ids : list Z) (w : World)
  : World :=
  fold_left (fun w' i => exec (process_single_withdrawal bank i) w') ids w.

(** The withdrawals after [ScheduledWithdrawal_save self]. *)
Definition saved_rows (self : ScheduledWithdrawal.t)
  (rows : list ScheduledWithdrawal.t) : list ScheduledWithdrawal.t :=
  let hit := fun r => ScheduledWithdrawal.id r =? ScheduledWithdrawal.id self in
  if existsb hit rows then update_rows hit (fun _ => self) rows
  else rows ++ [self].

(** The wallets after [Wallet_update_balance p delta]. *)
Definition moved_balances (p : Wallet.t -> bool) (delta : Z)
  (ws : list Wallet.t) : list Wallet.t :=
  update_rows p (fun r => Wallet.with_balance (Wallet.balance r + delta) r) ws.

(** ** Histories

    What the services and the sweep do to the system, one whole call after
    the other: between two calls no withdrawal is half way through. *)
Inductive Op : Type :=
| CreateWallet (fresh_uuid : string)
| Deposit (wallet_uuid : string) (amount : Z)
| Schedule (now : Z) (wallet_uuid : string) (amount : Z) (scheduled_for : Z)
| Sweep (bank : nat -> BankReply) (now : Z).

Definition run_op (o : Op) : World -> World :=
  match o with
  | CreateWallet fresh_uuid => exec (create_wallet fresh_uuid)
  | Deposit wallet_uuid amount => exec (deposit_to_wallet wallet_uuid amount)
  | Schedule now wallet_uuid amount scheduled_for =>
      exec (create_withdraw_request now wallet_uuid amount scheduled_for)
  | Sweep bank now => exec (process_scheduled_withdrawals bank now)
  end.

Definition run_ops (ops : list Op) (w : World) : World :=
  fold_left (fun w' o => run_op o w') ops w.

(** The sum of the ledger entries of one type. *)
Definition ledger_total (ty : Transaction.type_choice) (s : Store) : Z :=
  sumZ (map Transaction.amount
          (filter (fun t => Transaction.type_eqb (Transaction.type t) ty)
             (transactions s))).

(** [r] is a completed withdrawal that refers to the transaction [t]. *)
Definition settles (t : Transaction.t) (r : ScheduledWithdrawal.t) : bool :=
  ScheduledWithdrawal.status_eqb (ScheduledWithdrawal.status r) COMPLETED
  && match ScheduledWithdrawal.transaction r with
     | Some i => i =? Transaction.id t
     | None => false
     end.

(** The sum of the withdraw entries that completed withdrawals refer to. *)
Definition completed_withdrawals_total (s : Store) : Z :=
  sumZ (map Transaction.amount
          (filter (fun t => Transaction.type_eqb (Transaction.type t) WITHDRAW
                            && existsb (settles t) (scheduled_withdrawals s))
             (transactions s))).

(** What a withdrawal row says about its transaction. *)
Definition linked (s : Store) (r : ScheduledWithdrawal.t) : Prop :=
  match ScheduledWithdrawal.status r with
  | COMPLETED =>
      exists tx, In tx (transactions s) /\
                 ScheduledWithdrawal.transaction r = Some (Transaction.id tx) /\
                 Transaction.type tx = WITHDRAW /\
                 Transaction.amount tx = ScheduledWithdrawal.amount r
  | _ => ScheduledWithdrawal.transaction r = None
  end.

Record unique_keys (s : Store) : Prop := {
  wallet_ids : NoDup (map Wallet.id (wallets s));
  wallet_uuids : NoDup (map Wallet.uuid (wallets s));
  transaction_ids : NoDup (map Transaction.id (transactions s));
  withdrawal_ids : NoDup (map ScheduledWithdrawal.id (scheduled_withdrawals s))
}.

(** What holds between any two calls. *)
Record consistent (s : Store) : Prop := {
  keys : unique_keys s;
  links : forall r, In r (scheduled_withdrawals s) -> linked s r;
  settled :
    forall t, In t (transactions s) -> Transaction.type t = WITHDRAW ->
              existsb (settles t) (scheduled_withdrawals s) = true;
  conserved :
    ledger_total DEPOSIT s - ledger_total WITHDRAW s = total_balance s
}.

(** The sweeps of a history all run after the minute of [scheduled_for]. *)
Definition sweeps_after (scheduled_for : Z) (ops : list Op) : Prop :=
  Forall (fun o => match o with
                   | Sweep _ now => scheduled_for < floor_to_minute now
                   | _ => True
                   end) ops.

(** ** Interleavings

    Several workers at once, seen at the grain of the database
    transactions: besides the calls of the services, a worker fetches a
    withdrawal, and the three blocks of [process_single_withdrawal] run on
    a withdrawal some worker holds, in any order and any number of times. *)
Inductive Event : Type :=
| EvCreateWallet (fresh_uuid : string)
| EvDeposit (wallet_uuid : string) (amount : Z)
| EvSchedule (now : Z) (wallet_uuid : string) (amount : Z) (scheduled_for : Z)
| EvClaim (now : Z)
| EvFetch (withdrawal_id : Z)
| EvDebit (k : nat)
| EvComplete (k : nat)
| EvCompensate (k : nat) (error_message : option string).

Record Config : Type := {
  world : World;
  fetched : list ScheduledWithdrawal.t
}.

Definition initial : Config := {| world := empty_world; fetched := [] |}.

Definition on_world (f : World -> World) (c : Config) : Config :=
  {| world := f (world c); fetched := fetched c |}.

(** A block run on the [k]-th withdrawal the workers fetched. *)
Definition on_fetched {A} (k : nat) (block : ScheduledWithdrawal.t -> M A)
  (c : Config) : Config :=
  match nth_error (fetched c) k with
  | Some withdrawal => on_world (exec (block withdrawal)) c
  | None => c
  end.

Definition run_event (e : Event) (c : Config) : Config :=
  match e with
  | EvCreateWallet fresh_uuid => on_world (exec (create_wallet fresh_uuid)) c
  | EvDeposit wallet_uuid amount =>
      on_world (exec (deposit_to_wallet wallet_uuid amount)) c
  | EvSchedule now wallet_uuid amount scheduled_for =>
      on_world
        (exec (create_withdraw_request now wallet_uuid amount scheduled_for)) c
  | EvClaim now => on_world (exec (claim_due now)) c
  | EvFetch withdrawal_id =>
      match fetch_processing withdrawal_id (db (world c)) with
      | Some withdrawal =>
          {| world := world c; fetched := fetched c ++ [withdrawal] |}
      | None => c
      end
  | EvDebit k => on_fetched k debit_phase c
  | EvComplete k => on_fetched k completion_phase c
  | EvCompensate k error_message =>
      on_fetched k (fun withdrawal =>
                      compensation_phase withdrawal error_message) c
  end.

Definition run_events (events : list Event) (c : Config) : Config :=
  fold_left (fun c' e => run_event e c') events c.

(** What holds at every moment of an interleaving. *)
Record solvent (c : Config) : Prop := {
  balances :
    forall r, In r (wallets (db (world c))) -> 0 <= Wallet.balance r;
  amounts :
    forall r, In r (scheduled_withdrawals (db (world c))) ->
              0 < ScheduledWithdrawal.amount r;
  held :
    forall r, In r (fetched c) -> 0 < ScheduledWithdrawal.amount r
}.

(** ** Histories of the scenarios *)

Module Histories.

(** A wallet funded with 1500 and a withdrawal of [amount] scheduled for
    the second minute. *)
Definition funded (amount : Z) : list Op :=
  [CreateWallet "a"; Deposit "a" 1500; Schedule 0 "a" amount 90000000].

(** The same, swept in that minute with a provider that answers [r]. *)
Definition settled_with (amount : Z) (r : BankReply) : list Op :=
  funded amount ++ [Sweep (Scenarios.always r) 61000000].

(** Sweeps that all come too late for the withdrawal. *)
Definition late_sweeps : list Op :=
  [Sweep (Scenarios.always Scenarios.success) 150000000;
   Deposit "a" 10;
   Sweep (Scenarios.always Scenarios.success) 999000000].

Definition pending_1 (amount : Z) : ScheduledWithdrawal.t :=
  ScheduledWithdrawal.with_status PENDING (Scenarios.withdrawal_1 amount).

Definition completed_1 (amount : Z) : ScheduledWithdrawal.t :=
  ScheduledWithdrawal.with_transaction (Some 2)
    (ScheduledWithdrawal.with_status COMPLETED (Scenarios.withdrawal_1 amount)).

(** Two workers and a depositor on one wallet: both fetch their
    withdrawal, both debit, a deposit comes in, one settlement fails and
    is compensated, the other completes. *)
Definition two_workers : list Event :=
  [EvCreateWallet "a"; EvDeposit "a" 1500;
   EvSchedule 0 "a" 1000 90000000; EvSchedule 0 "a" 400 90000000;
   EvClaim 61000000; EvFetch 1; EvFetch 2;
   EvDebit 0; EvDebit 1; EvDeposit "a" 50;
   EvCompensate 0 (Some "refused"%string); EvComplete 1].

End Histories.

(** * The callers: the service behind the scheduling view, and the views

    What reaches the views from a request, as far as the model goes.
    - The [uuid] of the URL is a UUID value, for which the model's strings
      stand; a path segment that is no UUID, for which the lookup raises
      [ValidationError], is outside the model.
    - Under the key [amount] the body carries an integer or a value that
      Python does not order against an integer (null, a string, a list, an
      object), or it has no such key; floats and booleans are outside the
      model.
    - Under the key [scheduled_for] the body carries a string, or the key
      is missing or null; other values are outside the model. *)

(** A value of the request body that the services compare with 0. *)
Inductive Value : Type :=
| Integer (n : Z)
| Unordered.

(** Both services begin with [if amount <= 0], inside
    [transaction.atomic]: for a value that is not ordered against 0 the
    comparison raises [TypeError] before anything is read or written. *)
Definition compared {A} (amount : Value) (service : Z -> M A) : M A :=
  match amount with
  | Integer n => service n
  | Unordered => raise TypeError
  end.

(** ** services.py: [schedule_withdrawal_service] *)

(** The dictionary the service returns. *)
Module Scheduled.

Record t : Type := Build {
  wallet_uuid : string;
  amount : Z;
  scheduled_for : string;
  status : ScheduledWithdrawal.status_choice
}.

End Scheduled.

Definition time_required_message : string :=
  "time is required (format: HH:MM:SS or HH:MM)".

Definition invalid_format_message : string :=
  "Invalid datetime format. Use YYYY-MM-DD HH:MM:SS".

Definition in_the_past_message : string :=
  "Scheduled time cannot be in the past".

(** [not scheduled_time_str]: the key was missing from the request or
    null, or the string is empty. *)
Definition is_blank (scheduled_time_str : option string) : bool :=
  match scheduled_time_str with
  | None => true
  | Some EmptyString => true
  | Some (String _ _) => false
  end.

(** Following a foreign key to the wallet: the row with that primary key.
    In the code [withdrawal.wallet] and [txn.wallet] are the instance the
    row was created with in the same call, which is that row. *)
Definition Wallet_get_by_id (pk : Z) : M Wallet.t :=
  s <- get_db ;;
  match filter (fun r => Wallet.id r =? pk) (wallets s) with
  | [] => raise DoesNotExist
  | [r] => ret r
  | _ => raise MultipleObjectsReturned
  end.

(** [strptime] stands for [datetime.strptime(_, '%Y-%m-%d %H:%M:%S')]
    followed by [timezone.make_aware(_, IRAN_TZ)]: the instant, or the
    exception the two calls end with.  That is [ValueError] for a string
    that does not fit the format, which the [except] clause turns into the
    service's own; any other (with some versions of the framework, the
    zone's error for a wall-clock time that does not exist or is
    ambiguous) leaves the service.  [strftime] is the rendering with the
    same format.  [now] is what [timezone.now()] returns in the service and
    [now'] what it returns afterwards in [create_withdraw_request]. *)
Definition schedule_withdrawal_service (strptime : string -> Result Z)
  (strftime : Z -> string) (now now' : Z) (wallet_uuid : string)
  (amount : Value) (scheduled_time_str : option string) : M Scheduled.t :=
  if is_blank scheduled_time_str
  then raise (ValueError time_required_message)
  else
    match strptime (match scheduled_time_str with
                    | Some str => str
                    | None => EmptyString
                    end) with
    | Raise (ValueError _) => raise (ValueError invalid_format_message)
    | Raise e => raise e
    | Return scheduled_datetime =>
        if scheduled_datetime <? now
        then raise (ValueError in_the_past_message)
        else
          withdrawal <-
            compared amount
              (fun amount =>
                 create_withdraw_request now' wallet_uuid amount
                   scheduled_datetime) ;;
          wallet <- Wallet_get_by_id (ScheduledWithdrawal.wallet withdrawal) ;;
          ret {| Scheduled.wallet_uuid := Wallet.uuid wallet;
                 Scheduled.amount := ScheduledWithdrawal.amount withdrawal;
                 Scheduled.scheduled_for :=
                   strftime (ScheduledWithdrawal.scheduled_for withdrawal);
                 Scheduled.status := ScheduledWithdrawal.status withdrawal |}
    end.

(** ** serializers.py and views.py *)

Module Http.

Inductive Body : Type :=
| Error (error : string)
| Deposited (wallet_uuid : string) (amount : Z) (new_balance : Z)
| Accepted (data : Scheduled.t)
| WalletData (uuid : string) (balance freeze_amount available_balance : Z)
| NotFound.

Record Response : Type := Build {
  status : Z;
  data : Body
}.

End Http.

(** [try: body except ...: handler]; a handler that does not match the
    exception raises it again. *)
Definition try_except {A} (body : M A) (handler : Exn -> M A) : M A :=
  fun w =>
    match body w with
    | (Return a, w') => (Return a, w')
    | (Raise e, w') => handler e w'
    end.

(** The two [except] clauses the views share. *)
Definition view_errors (e : Exn) : M Http.Response :=
  match e with
  | ValueError msg =>
      ret {| Http.status := 400; Http.data := Http.Error msg |}
  | DoesNotExist =>
      ret {| Http.status := 404; Http.data := Http.Error "wallet not found" |}
  | _ => raise e
  end.

(** [WalletSerializer(wallet).data]. *)
Definition WalletSerializer_data (wallet : Wallet.t) : Http.Body :=
  Http.WalletData (Wallet.uuid wallet) (Wallet.balance wallet)
    (Wallet.freeze_amount wallet) (Wallet.available_balance wallet).

(** [CreateWalletView]: every serializer field is read-only, so the row is
    made of the defaults; the answer is the serialized row. *)
Definition CreateWalletView_post (fresh_uuid : string) : M Http.Response :=
  wallet <- create_wallet fresh_uuid ;;
  ret {| Http.status := 201; Http.data := WalletSerializer_data wallet |}.

(** [RetrieveWalletView]: the wallet with that uuid, serialized.  For a
    uuid no wallet carries [get_object_or_404] raises [Http404], which
    the framework answers with status 404 and its own body. *)
Definition RetrieveWalletView_get (wallet_uuid : string) : M Http.Response :=
  try_except
    (wallet <- Wallet_get_by_uuid wallet_uuid ;;
     ret {| Http.status := 200; Http.data := WalletSerializer_data wallet |})
    (fun e =>
       match e with
       | DoesNotExist =>
           ret {| Http.status := 404; Http.data := Http.NotFound |}
       | _ => raise e
       end).

(** [request.data.get('amount', 0)]; [data_amount] is what the body
    carries under the key, [None] when it has no such key. *)
Definition amount_of (data_amount : option Value) : Value :=
  match data_amount with
  | Some amount => amount
  | None => Integer 0
  end.

(** [CreateDepositView.post]. *)
Definition CreateDepositView_post (wallet_uuid : string)
  (data_amount : option Value) : M Http.Response :=
  let amount := amount_of data_amount in
  try_except
    (txn <- compared amount (deposit_to_wallet wallet_uuid) ;;
     wallet <- Wallet_get_by_id (Transaction.wallet txn) ;;
     ret {| Http.status := 201;
            Http.data := Http.Deposited (Wallet.uuid wallet)
                           (Transaction.amount txn) (Wallet.balance wallet) |})
    view_errors.

(** [ScheduleWithdrawView.post]; [data_scheduled_for] is the string the
    body carries under the key, [None] when the key is missing or null. *)
Definition ScheduleWithdrawView_post (strptime : string -> Result Z)
  (strftime : Z -> string) (now now' : Z) (wallet_uuid : string)
  (data_amount : option Value) (data_scheduled_for : option string)
  : M Http.Response :=
  let amount := amount_of data_amount in
  try_except
    (response_data <-
       schedule_withdrawal_service strptime strftime now now' wallet_uuid
         amount data_scheduled_for ;;
     ret {| Http.status := 201; Http.data := Http.Accepted response_data |})
    view_errors.

(** ** More vocabulary *)

(** What holds of the rows between any two calls, besides [consistent]. *)
Record wellformed (s : Store) : Prop := {
  nothing_frozen :
    forall r, In r (wallets s) -> Wallet.freeze_amount r = 0;
  solvent_wallets :
    forall r, In r (wallets s) -> 0 <= Wallet.balance r;
  positive_entries :
    forall t, In t (transactions s) -> 0 < Transaction.amount t;
  entries_have_wallets :
    forall t, In t (transactions s) ->
              In (Transaction.wallet t) (map Wallet.id (wallets s));
  positive_withdrawals :
    forall r, In r (scheduled_withdrawals s) ->
              0 < ScheduledWithdrawal.amount r;
  withdrawals_have_wallets :
    forall r, In r (scheduled_withdrawals s) ->
              In (ScheduledWithdrawal.wallet r) (map Wallet.id (wallets s))
}.

(** No stored balance or amount is above what its column holds. *)
Record in_range (s : Store) : Prop := {
  balances_fit :
    forall r, In r (wallets s) -> Wallet.balance r <= BIGINT_MAX;
  entries_fit :
    forall t, In t (transactions s) -> Transaction.amount t <= BIGINT_MAX;
  withdrawals_fit :
    forall r, In r (scheduled_withdrawals s) ->
              ScheduledWithdrawal.amount r <= BIGINT_MAX
}.

(** A withdrawal the engine is done with. *)
Definition terminal (r : ScheduledWithdrawal.t) : Prop :=
  ScheduledWithdrawal.status r = COMPLETED \/
  ScheduledWithdrawal.status r = FAILED.

(** How a later row [r'] relates to an earlier row [r] of the same
    withdrawal: the key, the wallet, the amount and the time are the same,
    a terminal row is what it was, and a row that was claimed is not
    pending again. *)
Definition follows (r r' : ScheduledWithdrawal.t) : Prop :=
  ScheduledWithdrawal.id r' = ScheduledWithdrawal.id r /\
  ScheduledWithdrawal.wallet r' = ScheduledWithdrawal.wallet r /\
  ScheduledWithdrawal.amount r' = ScheduledWithdrawal.amount r /\
  ScheduledWithdrawal.scheduled_for r' = ScheduledWithdrawal.scheduled_for r /\
  (terminal r -> r' = r) /\
  (ScheduledWithdrawal.status r <> PENDING ->
   ScheduledWithdrawal.status r' <> PENDING).

(** No withdrawal is half way through. *)
Definition quiescent (s : Store) : Prop :=
  forall r, In r (scheduled_withdrawals s) ->
            ScheduledWithdrawal.status r <> PROCESSING.

(** The sum of the ledger entries of one type that refer to one wallet. *)
Definition wallet_ledger (ty : Transaction.type_choice) (wallet_id : Z)
  (s : Store) : Z :=
  sumZ (map Transaction.amount
          (filter (fun t => Transaction.type_eqb (Transaction.type t) ty
                            && (Transaction.wallet t =? wallet_id))
             (transactions s))).

(** Every wallet holds what its own entries of the ledger add up to. *)
Definition reconciled (s : Store) : Prop :=
  forall wallet, In wallet (wallets s) ->
    wallet_ledger DEPOSIT (Wallet.id wallet) s
    - wallet_ledger WITHDRAW (Wallet.id wallet) s = Wallet.balance wallet.

(** A stand-in for the two library calls in the scenarios: two strings
    fit the format. *)
Module Formats.

Definition strptime (s : string) : Result Z :=
  if String.eqb s "1970-01-01 03:31:30" then Return 90000000
  else if String.eqb s "1970-01-01 03:30:00" then Return 0
  else Raise (ValueError "time data does not match format").

Definition strftime (t : Z) : string :=
  if t =? 90000000 then "1970-01-01 03:31:30"
  else if t =? 0 then "1970-01-01 03:30:00"
  else EmptyString.

End Formats.

(** ** Rows and keys *)

Lemma sumZ_app (l1 l2 : list Z) : sumZ (l1 ++ l2) = sumZ l1 + sumZ l2.
Proof.
  induction l1 as [|x l1 IH]; simpl; [reflexivity | rewrite IH; lia].
Qed.

Lemma next_id_above (ids : list Z) (i : Z) : In i ids -> i < next_id ids.
Proof.
  unfold next_id.
  induction ids as [|j ids IH]; cbn [fold_right In]; [contradiction|].
  intros [-> | Hin]; [lia | specialize (IH Hin); lia].
Qed.

Lemma next_id_fresh (ids : list Z) : ~ In (next_id ids) ids.
Proof.
  intros Hin. apply next_id_above in Hin. lia.
Qed.

Section Rows.
Context {A : Type}.
Implicit Types (p : A -> bool) (f : A -> A) (l : list A).

Lemma update_rows_app p f l1 l2 :
  update_rows p f (l1 ++ l2) = update_rows p f l1 ++ update_rows p f l2.
Proof. apply map_app. Qed.

Lemma update_rows_untouched p f l :
  (forall r, In r l -> p r = false) -> update_rows p f l = l.
Proof.
  induction l as [|x l IH]; simpl; intros H; [reflexivity|].
  rewrite (H x) by (left; reflexivity).
  f_equal. apply IH. intros r Hr. apply H. right. exact Hr.
Qed.

Lemma filter_untouched p l :
  (forall r, In r l -> p r = false) -> filter p l = [].
Proof.
  induction l as [|x l IH]; simpl; intros H; [reflexivity|].
  rewrite (H x) by (left; reflexivity).
  apply IH. intros r Hr. apply H. right. exact Hr.
Qed.

Lemma in_update_rows p f l r' :
  In r' (update_rows p f l) <->
  exists r, In r l /\ r' = (if p r then f r else r).
Proof.
  unfold update_rows. rewrite in_map_iff.
  split; intros [r [H1 H2]]; exists r; split; auto.
Qed.

Lemma map_update_rows {K} (key : A -> K) p f l :
  (forall r, key (f r) = key r) ->
  map key (update_rows p f l) = map key l.
Proof.
  intros H. unfold update_rows. rewrite map_map. apply map_ext.
  intros r. destruct (p r); [apply H | reflexivity].
Qed.
End Rows.

(** Tables whose key column is unique: a condition that pins the key down
    singles out at most one row. *)
Section Keyed.
Context {A K : Type} (key : A -> K).
Implicit Types (p : A -> bool) (f : A -> A) (l : list A).

Lemma nodup_key_split l1 x l2 r :
  NoDup (map key (l1 ++ x :: l2)) -> In r (l1 ++ l2) -> key r <> key x.
Proof.
  rewrite map_app. simpl. intros Hnd Hin Heq.
  apply NoDup_remove_2 in Hnd. apply Hnd.
  rewrite <- Heq, <- map_app. apply in_map. exact Hin.
Qed.

Lemma off_key_false p l1 x l2 :
  NoDup (map key (l1 ++ x :: l2)) ->
  (forall r, p r = true -> key r = key x) ->
  forall r, In r (l1 ++ l2) -> p r = false.
Proof.
  intros Hnd Hp r Hin. destruct (p r) eqn:E; [|reflexivity].
  exfalso. exact (nodup_key_split _ _ _ _ Hnd Hin (Hp r E)).
Qed.

Lemma update_rows_at p f l1 x l2 :
  NoDup (map key (l1 ++ x :: l2)) ->
  (forall r, p r = true -> key r = key x) ->
  update_rows p f (l1 ++ x :: l2) = l1 ++ (if p x then f x else x) :: l2.
Proof.
  intros Hnd Hp.
  pose proof (off_key_false p l1 x l2 Hnd Hp) as Hoff.
  rewrite update_rows_app. simpl.
  rewrite !update_rows_untouched; [reflexivity| |];
    intros r Hr; apply Hoff; apply in_or_app; auto.
Qed.

Lemma filter_at p l1 x l2 :
  NoDup (map key (l1 ++ x :: l2)) ->
  (forall r, p r = true -> key r = key x) ->
  filter p (l1 ++ x :: l2) = if p x then [x] else [].
Proof.
  intros Hnd Hp.
  pose proof (off_key_false p l1 x l2 Hnd Hp) as Hoff.
  rewrite filter_app. simpl.
  rewrite !filter_untouched; [destruct (p x); reflexivity| |];
    intros r Hr; apply Hoff; apply in_or_app; auto.
Qed.

Lemma existsb_at p l1 x l2 :
  p x = true -> existsb p (l1 ++ x :: l2) = true.
Proof.
  intros Hx. apply existsb_exists. exists x. split; [|exact Hx].
  apply in_or_app. right. left. reflexivity.
Qed.
End Keyed.

Lemma world_eta (w : World) : {| db := db w; bank_calls := bank_calls w |} = w.
Proof. destruct w. reflexivity. Qed.

(** ** services.py and the wallet view: what one call does *)

Ltac leb_cases :=
  repeat match goal with
  | |- context [?a <=? ?b] =>
      let E := fresh "E" in
      destruct (a <=? b) eqn:E;
      [apply Z.leb_le in E | apply Z.leb_gt in E]; try lia
  end.

Lemma fits_spec (n : Z) : fits n = true <-> 0 <= n <= BIGINT_MAX.
Proof.
  unfold fits. rewrite andb_true_iff, !Z.leb_le. tauto.
Qed.

Lemma fits_false (n : Z) : fits n = false <-> n < 0 \/ BIGINT_MAX < n.
Proof.
  unfold fits. rewrite andb_false_iff, !Z.leb_gt. tauto.
Qed.

Lemma deposit_rejected (wallet_uuid : string) (amount : Z) (w : World) :
  amount <= 0 ->
  deposit_to_wallet wallet_uuid amount w =
    (Raise (ValueError "Amount must be positive"), w).
Proof.
  intros Hle. cbv [deposit_to_wallet atomic raise].
  leb_cases. now rewrite world_eta.
Qed.

Lemma deposit_missing (wallet_uuid : string) (amount : Z) (w : World) :
  0 < amount ->
  (forall r, In r (wallets (db w)) -> Wallet.uuid r <> wallet_uuid) ->
  deposit_to_wallet wallet_uuid amount w = (Raise DoesNotExist, w).
Proof.
  intros Hpos Hnone.
  cbv [deposit_to_wallet atomic bind Wallet_get_by_uuid get_db].
  leb_cases.
  rewrite filter_untouched.
  - cbv [raise]. now rewrite world_eta.
  - intros r Hr. apply String.eqb_neq. now apply Hnone.
Qed.

Lemma deposit_found (wallet_uuid : string) (amount : Z) (w : World)
  (l1 l2 : list Wallet.t) (wallet : Wallet.t) :
  0 < amount ->
  NoDup (map Wallet.id (wallets (db w))) ->
  NoDup (map Wallet.uuid (wallets (db w))) ->
  wallets (db w) = l1 ++ wallet :: l2 ->
  Wallet.uuid wallet = wallet_uuid ->
  fits (Wallet.balance wallet + amount) = true ->
  deposit_to_wallet wallet_uuid amount w =
    (Return (deposit_txn (db w) wallet amount),
     {| db :=
          {| wallets :=
               l1 ++ Wallet.with_balance (Wallet.balance wallet + amount) wallet
                  :: l2;
             transactions :=
               transactions (db w) ++ [deposit_txn (db w) wallet amount];
             scheduled_withdrawals := scheduled_withdrawals (db w) |};
        bank_calls := bank_calls w |}).
Proof.
  intros Hpos Hid Huuid Hsplit Hu Hfit.
  cbv [deposit_to_wallet atomic bind Wallet_get_by_uuid get_db].
  leb_cases.
  rewrite Hsplit in *.
  rewrite (filter_at Wallet.uuid _ l1 wallet l2 Huuid).
  2:{ intros r Hr. apply String.eqb_eq in Hr. congruence. }
  rewrite (proj2 (String.eqb_eq _ _) Hu).
  cbv [ret Wallet_save bind get_db put_db Transaction_create].
  cbn [Wallet.with_balance Wallet.balance]. rewrite Hfit. cbn [negb].
  cbn [db wallets]. rewrite Hsplit.
  rewrite existsb_at by (apply Z.eqb_refl).
  cbn [db bank_calls wallets set_wallets transactions scheduled_withdrawals
       set_transactions Wallet.id Wallet.with_balance].
  rewrite (update_rows_at Wallet.id _ _ l1 wallet l2 Hid).
  2:{ intros r Hr. apply Z.eqb_eq in Hr. exact Hr. }
  rewrite Z.eqb_refl.
  reflexivity.
Qed.

(** The store refuses the new balance: the call raises and nothing is
    written. *)
Lemma deposit_refused (wallet_uuid : string) (amount : Z) (w : World)
  (l1 l2 : list Wallet.t) (wallet : Wallet.t) :
  0 < amount ->
  NoDup (map Wallet.uuid (wallets (db w))) ->
  wallets (db w) = l1 ++ wallet :: l2 ->
  Wallet.uuid wallet = wallet_uuid ->
  fits (Wallet.balance wallet + amount) = false ->
  deposit_to_wallet wallet_uuid amount w = (Raise DataError, w).
Proof.
  intros Hpos Huuid Hsplit Hu Hfit.
  cbv [deposit_to_wallet atomic bind Wallet_get_by_uuid get_db].
  leb_cases.
  rewrite Hsplit in *.
  rewrite (filter_at Wallet.uuid _ l1 wallet l2 Huuid).
  2:{ intros r Hr. apply String.eqb_eq in Hr. congruence. }
  rewrite (proj2 (String.eqb_eq _ _) Hu).
  cbv [ret Wallet_save bind get_db put_db Transaction_create raise].
  cbn [Wallet.with_balance Wallet.balance]. rewrite Hfit. cbn [negb].
  now rewrite world_eta.
Qed.

(** A wallet is found by its uuid or no row carries that uuid. *)
Lemma wallet_uuid_cases (wallet_uuid : string) (ws : list Wallet.t) :
  (exists l1 wallet l2,
      ws = l1 ++ wallet :: l2 /\ Wallet.uuid wallet = wallet_uuid)
  \/ (forall r, In r ws -> Wallet.uuid r <> wallet_uuid).
Proof.
  induction ws as [|x ws IH].
  - right. intros r [].
  - destruct (String.eqb_spec (Wallet.uuid x) wallet_uuid) as [Heq | Hne].
    + left. exists [], x, ws. split; [reflexivity | exact Heq].
    + destruct IH as [(l1 & wallet & l2 & -> & Hu) | Hnone].
      * left. exists (x :: l1), wallet, l2. split; [reflexivity | exact Hu].
      * right. intros r [<- | Hr]; [exact Hne | now apply Hnone].
Qed.

Lemma create_wallet_run (fresh_uuid : string) (w : World) :
  create_wallet fresh_uuid w =
    if existsb (fun r => String.eqb (Wallet.uuid r) fresh_uuid) (wallets (db w))
    then (Raise IntegrityError, w)
    else (Return (new_wallet (db w) fresh_uuid),
          {| db := set_wallets (wallets (db w) ++ [new_wallet (db w) fresh_uuid])
                     (db w);
             bank_calls := bank_calls w |}).
Proof.
  cbv [create_wallet bind get_db].
  destruct (existsb _ _); reflexivity.
Qed.

Lemma schedule_rejected (now : Z) (wallet_uuid : string) (amount : Z)
  (scheduled_for : Z) (w : World) :
  amount <= 0 \/ scheduled_for <= now ->
  exists msg,
    create_withdraw_request now wallet_uuid amount scheduled_for w =
      (Raise (ValueError msg), w).
Proof.
  intros Hbad. cbv [create_withdraw_request atomic raise].
  destruct (amount <=? 0) eqn:E1; [|destruct (scheduled_for <=? now) eqn:E2].
  - eexists. now rewrite world_eta.
  - eexists. now rewrite world_eta.
  - apply Z.leb_gt in E1, E2. lia.
Qed.

Lemma schedule_missing (now : Z) (wallet_uuid : string) (amount : Z)
  (scheduled_for : Z) (w : World) :
  0 < amount -> now < scheduled_for ->
  (forall r, In r (wallets (db w)) -> Wallet.uuid r <> wallet_uuid) ->
  create_withdraw_request now wallet_uuid amount scheduled_for w =
    (Raise DoesNotExist, w).
Proof.
  intros Hpos Hfut Hnone.
  cbv [create_withdraw_request atomic bind Wallet_get_by_uuid get_db].
  leb_cases.
  rewrite filter_untouched.
  - cbv [raise]. now rewrite world_eta.
  - intros r Hr. apply String.eqb_neq. now apply Hnone.
Qed.

Lemma schedule_found (now : Z) (wallet_uuid : string) (amount : Z)
  (scheduled_for : Z) (w : World) (l1 l2 : list Wallet.t) (wallet : Wallet.t) :
  0 < amount -> now < scheduled_for ->
  NoDup (map Wallet.uuid (wallets (db w))) ->
  wallets (db w) = l1 ++ wallet :: l2 ->
  Wallet.uuid wallet = wallet_uuid ->
  amount <= BIGINT_MAX ->
  create_withdraw_request now wallet_uuid amount scheduled_for w =
    (Return (new_withdrawal (db w) wallet amount scheduled_for),
     {| db :=
          set_scheduled_withdrawals
            (scheduled_withdrawals (db w)
               ++ [new_withdrawal (db w) wallet amount scheduled_for]) (db w);
        bank_calls := bank_calls w |}).
Proof.
  intros Hpos Hfut Huuid Hsplit Hu Hmax.
  cbv [create_withdraw_request atomic bind Wallet_get_by_uuid get_db].
  leb_cases.
  rewrite Hsplit in *.
  rewrite (filter_at Wallet.uuid _ l1 wallet l2 Huuid).
  2:{ intros r Hr. apply String.eqb_eq in Hr. congruence. }
  rewrite (proj2 (String.eqb_eq _ _) Hu).
  cbv [ret ScheduledWithdrawal_create bind].
  rewrite (proj2 (fits_spec amount)) by lia.
  reflexivity.
Qed.

(** The store refuses the amount: the call raises and nothing is written. *)
Lemma schedule_refused (now : Z) (wallet_uuid : string) (amount : Z)
  (scheduled_for : Z) (w : World) (l1 l2 : list Wallet.t) (wallet : Wallet.t) :
  0 < amount -> now < scheduled_for ->
  NoDup (map Wallet.uuid (wallets (db w))) ->
  wallets (db w) = l1 ++ wallet :: l2 ->
  Wallet.uuid wallet = wallet_uuid ->
  BIGINT_MAX < amount ->
  create_withdraw_request now wallet_uuid amount scheduled_for w =
    (Raise DataError, w).
Proof.
  intros Hpos Hfut Huuid Hsplit Hu Hmax.
  cbv [create_withdraw_request atomic bind Wallet_get_by_uuid get_db].
  leb_cases.
  rewrite Hsplit in *.
  rewrite (filter_at Wallet.uuid _ l1 wallet l2 Huuid).
  2:{ intros r Hr. apply String.eqb_eq in Hr. congruence. }
  rewrite (proj2 (String.eqb_eq _ _) Hu).
  cbv [ret ScheduledWithdrawal_create bind raise].
  rewrite (proj2 (fits_false amount)) by lia.
  cbn [negb]. now rewrite world_eta.
Qed.

(** ** tasks.py: what one execution does *)

Lemma fetch_processing_at (wid : Z) (s : Store) m1 wd m2 :
  NoDup (map ScheduledWithdrawal.id (scheduled_withdrawals s)) ->
  scheduled_withdrawals s = m1 ++ wd :: m2 ->
  ScheduledWithdrawal.id wd = wid ->
  ScheduledWithdrawal.status wd = PROCESSING ->
  fetch_processing wid s = Some wd.
Proof.
  intros Hnd Hrows Hid Hst. unfold fetch_processing.
  rewrite Hrows in *.
  rewrite (filter_at ScheduledWithdrawal.id _ m1 wd m2 Hnd).
  - rewrite Hid, Z.eqb_refl, Hst. reflexivity.
  - intros r Hr. apply andb_prop in Hr. destruct Hr as [Hr _].
    apply Z.eqb_eq in Hr. congruence.
Qed.

Lemma fetch_processing_some (wid : Z) (s : Store) wd :
  fetch_processing wid s = Some wd ->
  In wd (scheduled_withdrawals s) /\
  ScheduledWithdrawal.id wd = wid /\
  ScheduledWithdrawal.status wd = PROCESSING.
Proof.
  unfold fetch_processing. intros H.
  destruct (filter _ _) as [|x l] eqn:E; [discriminate|].
  simpl in H. injection H as ->.
  assert (Hin : In wd (wd :: l)) by (left; reflexivity).
  rewrite <- E in Hin. apply filter_In in Hin. destruct Hin as [Hin Hp].
  apply andb_prop in Hp. destruct Hp as [H1 H2].
  apply Z.eqb_eq in H1.
  destruct (ScheduledWithdrawal.status wd); try discriminate. auto.
Qed.

Lemma psw_insufficient bank wid w m1 wd m2 :
  NoDup (map ScheduledWithdrawal.id (scheduled_withdrawals (db w))) ->
  scheduled_withdrawals (db w) = m1 ++ wd :: m2 ->
  ScheduledWithdrawal.id wd = wid ->
  ScheduledWithdrawal.status wd = PROCESSING ->
  (forall r, In r (wallets (db w)) -> can_debit wd r = false) ->
  process_single_withdrawal bank wid w =
    (Return tt,
     {| db := {| wallets := wallets (db w);
                 transactions := transactions (db w);
                 scheduled_withdrawals :=
                   m1 ++ mark_failed (Some insufficient_message) wd :: m2 |};
        bank_calls := bank_calls w |}).
Proof.
  intros Hnd Hrows Hid Hst Hno.
  cbv [process_single_withdrawal bind get_db].
  rewrite (fetch_processing_at wid (db w) m1 wd m2 Hnd Hrows Hid Hst).
  cbv [debit_phase atomic bind Wallet_update_balance get_db put_db ret].
  cbn [db bank_calls].
  unfold count_rows. rewrite (filter_untouched _ _ Hno).
  cbn [List.length Z.of_nat Z.eqb].
  cbv [ScheduledWithdrawal_save bind get_db put_db ret].
  cbn [db bank_calls set_wallets scheduled_withdrawals].
  rewrite (update_rows_untouched _ _ _ Hno).
  rewrite Hrows in *.
  rewrite existsb_at by (cbn; apply Z.eqb_refl).
  rewrite (update_rows_at ScheduledWithdrawal.id _ _ m1 wd m2 Hnd).
  2:{ intros r Hr. apply Z.eqb_eq in Hr. exact Hr. }
  cbn [mark_failed ScheduledWithdrawal.with_error_message ScheduledWithdrawal.with_status ScheduledWithdrawal.id].
  rewrite Z.eqb_refl.
  cbn. reflexivity.
Qed.

Lemma can_debit_key wd r : can_debit wd r = true -> Wallet.id r = ScheduledWithdrawal.wallet wd.
Proof.
  unfold can_debit. intros H. apply andb_prop in H. destruct H as [H _].
  now apply Z.eqb_eq in H.
Qed.

Lemma can_debit_true wd r :
  Wallet.id r = ScheduledWithdrawal.wallet wd ->
  ScheduledWithdrawal.amount wd <= Wallet.balance r ->
  can_debit wd r = true.
Proof.
  intros H1 H2. unfold can_debit. rewrite H1, Z.eqb_refl.
  apply Z.leb_le in H2. now rewrite H2.
Qed.

Lemma count_rows_at {A} (key : A -> Z) (p : A -> bool) l1 x l2 :
  NoDup (map key (l1 ++ x :: l2)) ->
  (forall r, p r = true -> key r = key x) ->
  p x = true ->
  count_rows p (l1 ++ x :: l2) = 1.
Proof.
  intros Hnd Hp Hx. unfold count_rows.
  rewrite (filter_at key p l1 x l2 Hnd Hp), Hx. reflexivity.
Qed.

Ltac into_debit :=
  cbv [debit_phase atomic bind Wallet_update_balance get_db put_db ret];
  cbn [db bank_calls].

Lemma psw_settled bank wid w m1 wd m2 l1 wallet l2 :
  NoDup (map ScheduledWithdrawal.id (scheduled_withdrawals (db w))) ->
  NoDup (map Wallet.id (wallets (db w))) ->
  scheduled_withdrawals (db w) = m1 ++ wd :: m2 ->
  ScheduledWithdrawal.id wd = wid ->
  ScheduledWithdrawal.status wd = PROCESSING ->
  wallets (db w) = l1 ++ wallet :: l2 ->
  Wallet.id wallet = ScheduledWithdrawal.wallet wd ->
  ScheduledWithdrawal.amount wd <= Wallet.balance wallet ->
  process_single_withdrawal bank wid w =
    (Return tt,
     if fst (settlement_outcome (bank (bank_calls w))) then
       {| db := {| wallets :=
                     l1 ++ Wallet.with_balance
                             (Wallet.balance wallet - ScheduledWithdrawal.amount wd)
                             wallet :: l2;
                   transactions :=
                     transactions (db w) ++ [withdraw_txn (db w) wd];
                   scheduled_withdrawals :=
                     m1 ++ mark_completed (withdraw_txn (db w) wd) wd :: m2 |};
          bank_calls := S (bank_calls w) |}
     else
       {| db := {| wallets := wallets (db w);
                   transactions := transactions (db w);
                   scheduled_withdrawals :=
                     m1 ++ mark_failed
                             (snd (settlement_outcome (bank (bank_calls w)))) wd
                        :: m2 |};
          bank_calls := S (bank_calls w) |}).
Proof.
  intros Hnd Hndw Hrows Hid Hst Hws Hwid Hle.
  cbv [process_single_withdrawal bind get_db].
  rewrite (fetch_processing_at wid (db w) m1 wd m2 Hnd Hrows Hid Hst).
  into_debit.
  pose proof (can_debit_true wd wallet Hwid Hle) as Hcan.
  assert (Hkey : forall r, can_debit wd r = true -> Wallet.id r = Wallet.id wallet).
  { intros r Hr. rewrite Hwid. now apply can_debit_key. }
  rewrite Hws in *.
  rewrite (count_rows_at Wallet.id _ l1 wallet l2 Hndw Hkey Hcan).
  cbn [Z.eqb negb].
  rewrite (update_rows_at Wallet.id _ _ l1 wallet l2 Hndw Hkey), Hcan.
  cbv [request_third_party_deposit]. cbn [db bank_calls].
  destruct (settlement_outcome (bank (bank_calls w))) as [ok msg].
  cbn [fst snd]. destruct ok.
  - cbv [completion_phase atomic bind Transaction_create get_db put_db ret
         ScheduledWithdrawal_save].
    cbn [db bank_calls set_wallets set_transactions scheduled_withdrawals
         transactions wallets].
    rewrite Hrows in *.
    rewrite existsb_at by (cbn; apply Z.eqb_refl).
    cbn [db bank_calls set_wallets set_transactions scheduled_withdrawals
         transactions wallets set_scheduled_withdrawals].
    rewrite (update_rows_at ScheduledWithdrawal.id _ _ m1 wd m2 Hnd).
    2:{ intros r Hr. apply Z.eqb_eq in Hr. exact Hr. }
    cbn [mark_completed ScheduledWithdrawal.with_transaction
         ScheduledWithdrawal.with_status ScheduledWithdrawal.id].
    rewrite Z.eqb_refl.
    unfold withdraw_txn. rewrite Z.add_opp_r. reflexivity.
  - cbv [compensation_phase atomic bind Wallet_update_balance get_db put_db ret
         ScheduledWithdrawal_save].
    cbn [db bank_calls set_wallets set_transactions scheduled_withdrawals
         transactions wallets].
    rewrite Hrows in *.
    rewrite existsb_at by (cbn; apply Z.eqb_refl).
    cbn [db bank_calls set_wallets set_transactions scheduled_withdrawals
         transactions wallets set_scheduled_withdrawals].
    rewrite (update_rows_at ScheduledWithdrawal.id _ _ m1 wd m2 Hnd).
    2:{ intros r Hr. apply Z.eqb_eq in Hr. exact Hr. }
    cbn [mark_failed ScheduledWithdrawal.with_error_message
         ScheduledWithdrawal.with_status ScheduledWithdrawal.id].
    rewrite Z.eqb_refl.
    rewrite (update_rows_at Wallet.id _ _ l1 _ l2).
    + cbn [Wallet.id Wallet.with_balance Wallet.balance]. rewrite Hwid, Z.eqb_refl.
      unfold set_scheduled_withdrawals, set_wallets.
      cbn [wallets transactions scheduled_withdrawals].
      match goal with
      | |- context [l1 ++ Wallet.with_balance ?b ?r :: l2] =>
          replace (Wallet.with_balance b r) with wallet; [reflexivity|]
      end.
      destruct wallet; cbv [Wallet.with_balance Wallet.id Wallet.uuid Wallet.balance Wallet.freeze_amount]. f_equal. lia.
    + rewrite map_app in *. cbn [map Wallet.id Wallet.with_balance] in *. exact Hndw.
    + intros r Hr. apply Z.eqb_eq in Hr. cbn. congruence.
Qed.


Lemma cannot_debit wd ws wallet :
  NoDup (map Wallet.id ws) ->
  In wallet ws ->
  Wallet.id wallet = ScheduledWithdrawal.wallet wd ->
  Wallet.balance wallet < ScheduledWithdrawal.amount wd ->
  forall r, In r ws -> can_debit wd r = false.
Proof.
  intros Hnd Hin Hwid Hlt r Hr.
  destruct (in_split _ _ Hin) as (l1 & l2 & ->).
  destruct (can_debit wd r) eqn:E; [exfalso | reflexivity].
  pose proof (can_debit_key _ _ E) as Hk.
  apply in_app_or in Hr. destruct Hr as [Hr | [<- | Hr]].
  - apply (nodup_key_split Wallet.id l1 wallet l2 r Hnd); [|congruence].
    apply in_or_app. now left.
  - unfold can_debit in E. apply andb_prop in E. destruct E as [_ E].
    apply Z.leb_le in E. lia.
  - apply (nodup_key_split Wallet.id l1 wallet l2 r Hnd); [|congruence].
    apply in_or_app. now right.
Qed.

(** ** tasks.py: the sweep *)

Lemma psw_returns bank i w :
  process_single_withdrawal bank i w =
    (Return tt, exec (process_single_withdrawal bank i) w).
Proof.
  unfold exec. cbv [process_single_withdrawal bind get_db ret].
  destruct (fetch_processing i (db w)) as [wd|]; [|reflexivity].
  into_debit.
  destruct (count_rows _ _ =? 0).
  - cbv [ScheduledWithdrawal_save bind get_db put_db ret].
    cbn [db]. destruct (existsb _ _); reflexivity.
  - cbn [negb]. cbv [request_third_party_deposit]. cbn [db bank_calls].
    destruct (settlement_outcome _) as [[|] msg].
    + cbv [completion_phase atomic bind Transaction_create get_db put_db ret
           ScheduledWithdrawal_save].
      cbn [db]. destruct (existsb _ _); reflexivity.
    + cbv [compensation_phase atomic bind Wallet_update_balance get_db put_db
           ret ScheduledWithdrawal_save].
      cbn [db]. destruct (existsb _ _); reflexivity.
Qed.

Lemma for_each_run bank ids w :
  for_each ids (process_single_withdrawal bank) w =
    (Return tt, process_each bank ids w).
Proof.
  revert w. induction ids as [|i ids IH]; intros w; [reflexivity|].
  cbn [for_each]. unfold bind at 1. rewrite psw_returns.
  rewrite IH. reflexivity.
Qed.

Lemma claim_due_run now w :
  claim_due now w =
    match due_ids now (db w) with
    | [] => (Return None, w)
    | _ :: _ =>
        (Return (Some (due_ids now (db w))),
         {| db := set_scheduled_withdrawals
                    (update_rows
                       (is_due (floor_to_minute now) (floor_to_minute now + MINUTE))
                       (ScheduledWithdrawal.with_status PROCESSING)
                       (scheduled_withdrawals (db w))) (db w);
            bank_calls := bank_calls w |})
    end.
Proof.
  cbv [claim_due atomic bind get_db]. fold (due_ids now (db w)).
  destruct (due_ids now (db w)); reflexivity.
Qed.

Lemma is_due_spec lo hi r :
  is_due lo hi r = true <->
  ScheduledWithdrawal.status r = PENDING /\
  lo <= ScheduledWithdrawal.scheduled_for r <= hi.
Proof.
  unfold is_due. rewrite !andb_true_iff, !Z.leb_le.
  destruct (ScheduledWithdrawal.status r); cbn; intuition discriminate.
Qed.

(** ** What holds between calls *)

Lemma NoDup_map_snoc {A K} (key : A -> K) (l : list A) (x : A) :
  NoDup (map key l) -> ~ In (key x) (map key l) ->
  NoDup (map key (l ++ [x])).
Proof.
  intros Hnd Hfresh. rewrite map_app. cbn.
  apply NoDup_app.
  - exact Hnd.
  - constructor; [intros []| constructor].
  - intros k Hk [<- | []]. exact (Hfresh Hk).
Qed.

Lemma sumZ_cons (x : Z) (l : list Z) : sumZ (x :: l) = x + sumZ l.
Proof. reflexivity. Qed.

Lemma sumZ_nil : sumZ [] = 0.
Proof. reflexivity. Qed.

Ltac sums := cbn [map filter]; rewrite ?map_app, ?sumZ_app; cbn [map];
             rewrite ?sumZ_cons, ?sumZ_nil.

Lemma ledger_total_snoc ty s s' t :
  transactions s' = transactions s ++ [t] ->
  ledger_total ty s' =
    ledger_total ty s
    + (if Transaction.type_eqb (Transaction.type t) ty
       then Transaction.amount t else 0).
Proof.
  intros H. unfold ledger_total. rewrite H, filter_app, map_app, sumZ_app.
  cbn [filter]. destruct (Transaction.type_eqb _ _); sums; lia.
Qed.

Lemma total_balance_at s l1 x l2 :
  wallets s = l1 ++ x :: l2 ->
  total_balance s =
    sumZ (map Wallet.balance l1) + Wallet.balance x + sumZ (map Wallet.balance l2).
Proof.
  intros H. unfold total_balance. rewrite H, map_app, sumZ_app.
  sums. lia.
Qed.

Lemma linked_more s s' r :
  (forall t, In t (transactions s) -> In t (transactions s')) ->
  linked s r -> linked s' r.
Proof.
  unfold linked. intros Hsub.
  destruct (ScheduledWithdrawal.status r); auto.
  intros (tx & Hin & H). exists tx. split; [auto | exact H].
Qed.

Lemma settled_more t rows rows' :
  (forall r, In r rows -> settles t r = true -> In r rows') ->
  existsb (settles t) rows = true -> existsb (settles t) rows' = true.
Proof.
  intros Hsub H. apply existsb_exists in H. destruct H as (r & Hin & Hs).
  apply existsb_exists. exists r. split; [apply Hsub; assumption | exact Hs].
Qed.

Lemma settles_completed t r :
  settles t r = true -> ScheduledWithdrawal.status r = COMPLETED.
Proof.
  unfold settles. intros H. apply andb_prop in H. destruct H as [H _].
  destruct (ScheduledWithdrawal.status r); try discriminate. reflexivity.
Qed.

Ltac store_simpl :=
  unfold set_wallets, set_transactions, set_scheduled_withdrawals;
  cbn [db bank_calls wallets transactions scheduled_withdrawals snd fst].

Lemma consistent_empty : consistent empty_store.
Proof.
  constructor.
  - constructor; constructor.
  - intros r [].
  - intros t [].
  - reflexivity.
Qed.

Lemma consistent_create_wallet u w :
  consistent (db w) -> consistent (db (exec (create_wallet u) w)).
Proof.
  intros [[K1 K2 K3 K4] L S C]. unfold exec. rewrite create_wallet_run.
  destruct (existsb _ _) eqn:E; cbn [snd]; [constructor; [constructor|..]; assumption|].
  store_simpl.
  constructor; [constructor|..]; store_simpl.
  - apply NoDup_map_snoc; [exact K1 | apply next_id_fresh].
  - apply NoDup_map_snoc; [exact K2|].
    cbn. intros Hin. apply in_map_iff in Hin. destruct Hin as (r & Hu & Hr).
    assert (Hex : existsb (fun r => String.eqb (Wallet.uuid r) u) (wallets (db w)) = true).
    { apply existsb_exists. exists r. split; [exact Hr|]. now apply String.eqb_eq. }
    congruence.
  - exact K3.
  - exact K4.
  - intros r Hr. apply (linked_more (db w)); [auto | apply L; exact Hr].
  - exact S.
  - unfold total_balance in *. cbn [wallets].
    unfold ledger_total in *. store_simpl. sums.
    cbn [new_wallet Wallet.balance]. lia.
Qed.

Lemma consistent_deposit u a w :
  consistent (db w) -> consistent (db (exec (deposit_to_wallet u a) w)).
Proof.
  intros H. pose proof H as [[K1 K2 K3 K4] L S C]. unfold exec.
  destruct (Z_le_gt_dec a 0) as [Hle | Hgt].
  { now rewrite deposit_rejected. }
  destruct (wallet_uuid_cases u (wallets (db w)))
    as [(l1 & wallet & l2 & Hsplit & Hu) | Hnone].
  2:{ rewrite deposit_missing; [exact H | lia | exact Hnone]. }
  destruct (fits (Wallet.balance wallet + a)) eqn:Hfit.
  2:{ rewrite (deposit_refused u a w l1 l2 wallet) by (assumption || lia).
      exact H. }
  rewrite (deposit_found u a w l1 l2 wallet) by (assumption || lia).
  store_simpl.
  constructor; [constructor|..]; store_simpl.
  - rewrite Hsplit in K1. rewrite map_app in *. exact K1.
  - rewrite Hsplit in K2. rewrite map_app in *. exact K2.
  - apply NoDup_map_snoc; [exact K3 | apply next_id_fresh].
  - exact K4.
  - intros r Hr. apply (linked_more (db w)); [|apply L; exact Hr].
    intros t Ht. cbn. apply in_or_app. now left.
  - intros t Ht Hty. apply in_app_or in Ht. destruct Ht as [Ht | [<- | []]].
    + now apply S.
    + discriminate Hty.
  - rewrite (ledger_total_snoc DEPOSIT (db w) _ (deposit_txn (db w) wallet a)) by reflexivity.
    rewrite (ledger_total_snoc WITHDRAW (db w) _ (deposit_txn (db w) wallet a)) by reflexivity.
    cbn [deposit_txn Transaction.type Transaction.amount Transaction.type_eqb].
    rewrite (total_balance_at (db w) l1 wallet l2 Hsplit) in C.
    unfold total_balance. cbn [wallets]. sums.
    cbn [Wallet.with_balance Wallet.balance]. lia.
Qed.

Lemma consistent_schedule now u a t w :
  consistent (db w) ->
  consistent (db (exec (create_withdraw_request now u a t) w)).
Proof.
  intros H. pose proof H as [[K1 K2 K3 K4] L S C]. unfold exec.
  destruct (Z_le_gt_dec a 0) as [Hle | Hgt].
  { destruct (schedule_rejected now u a t w (or_introl Hle)) as (msg & ->).
    exact H. }
  destruct (Z_le_gt_dec t now) as [Hpast | Hfut].
  { destruct (schedule_rejected now u a t w (or_intror Hpast)) as (msg & ->).
    exact H. }
  destruct (wallet_uuid_cases u (wallets (db w)))
    as [(l1 & wallet & l2 & Hsplit & Hu) | Hnone].
  2:{ rewrite schedule_missing; [exact H | lia | lia | exact Hnone]. }
  destruct (Z_le_gt_dec a BIGINT_MAX) as [Hmax | Hmax].
  2:{ rewrite (schedule_refused now u a t w l1 l2 wallet) by (assumption || lia).
      exact H. }
  rewrite (schedule_found now u a t w l1 l2 wallet) by (assumption || lia).
  store_simpl.
  constructor; [constructor|..]; store_simpl; try assumption.
  - apply NoDup_map_snoc; [exact K4 | apply next_id_fresh].
  - intros r Hr. apply in_app_or in Hr. destruct Hr as [Hr | [<- | []]].
    + apply (linked_more (db w)); [auto | apply L; exact Hr].
    + reflexivity.
  - intros tx Htx Hty. apply (settled_more tx (scheduled_withdrawals (db w))).
    + intros r Hr _. apply in_or_app. now left.
    + now apply S.
Qed.

Lemma psw_not_found bank wid w :
  fetch_processing wid (db w) = None ->
  process_single_withdrawal bank wid w = (Return tt, w).
Proof.
  intros H. cbv [process_single_withdrawal bind get_db]. now rewrite H.
Qed.

Lemma debit_cases wd (ws : list Wallet.t) :
  (forall r, In r ws -> can_debit wd r = false)
  \/ exists l1 wallet l2,
       ws = l1 ++ wallet :: l2 /\
       Wallet.id wallet = ScheduledWithdrawal.wallet wd /\
       ScheduledWithdrawal.amount wd <= Wallet.balance wallet.
Proof.
  destruct (existsb (can_debit wd) ws) eqn:E.
  - right. apply existsb_exists in E. destruct E as (r & Hin & Hr).
    destruct (in_split _ _ Hin) as (l1 & l2 & ->).
    exists l1, r, l2. split; [reflexivity|]. split; [now apply can_debit_key|].
    unfold can_debit in Hr. apply andb_prop in Hr. destruct Hr as [_ Hr].
    now apply Z.leb_le.
  - left. intros r Hr. destruct (can_debit wd r) eqn:Er; [|reflexivity].
    assert (existsb (can_debit wd) ws = true)
      by (apply existsb_exists; exists r; auto).
    congruence.
Qed.

(** The four ways one execution can go. *)
Lemma psw_cases bank wid w :
  NoDup (map ScheduledWithdrawal.id (scheduled_withdrawals (db w))) ->
  NoDup (map Wallet.id (wallets (db w))) ->
  exec (process_single_withdrawal bank wid) w = w
  \/ exists m1 wd m2,
       scheduled_withdrawals (db w) = m1 ++ wd :: m2 /\
       ScheduledWithdrawal.id wd = wid /\
       ScheduledWithdrawal.status wd = PROCESSING /\
       (exec (process_single_withdrawal bank wid) w =
          {| db := {| wallets := wallets (db w);
                      transactions := transactions (db w);
                      scheduled_withdrawals :=
                        m1 ++ mark_failed (Some insufficient_message) wd :: m2 |};
             bank_calls := bank_calls w |}
        \/ exists l1 wallet l2 msg,
             wallets (db w) = l1 ++ wallet :: l2 /\
             Wallet.id wallet = ScheduledWithdrawal.wallet wd /\
             ScheduledWithdrawal.amount wd <= Wallet.balance wallet /\
             (exec (process_single_withdrawal bank wid) w =
                {| db := {| wallets :=
                              l1 ++ Wallet.with_balance
                                      (Wallet.balance wallet
                                       - ScheduledWithdrawal.amount wd)
                                      wallet :: l2;
                            transactions :=
                              transactions (db w) ++ [withdraw_txn (db w) wd];
                            scheduled_withdrawals :=
                              m1 ++ mark_completed (withdraw_txn (db w) wd) wd
                                 :: m2 |};
                   bank_calls := S (bank_calls w) |}
              \/ exec (process_single_withdrawal bank wid) w =
                   {| db := {| wallets := wallets (db w);
                               transactions := transactions (db w);
                               scheduled_withdrawals :=
                                 m1 ++ mark_failed msg wd :: m2 |};
                      bank_calls := S (bank_calls w) |})).
Proof.
  intros Hnd Hndw. unfold exec.
  destruct (fetch_processing wid (db w)) as [wd|] eqn:Ef.
  2:{ left. now rewrite psw_not_found. }
  right. destruct (fetch_processing_some _ _ _ Ef) as (Hin & Hid & Hst).
  destruct (in_split _ _ Hin) as (m1 & m2 & Hrows).
  exists m1, wd, m2. repeat (split; [assumption|]).
  destruct (debit_cases wd (wallets (db w)))
    as [Hno | (l1 & wallet & l2 & Hws & Hwid & Hle)].
  - left. now rewrite (psw_insufficient bank wid w m1 wd m2).
  - right. exists l1, wallet, l2, (snd (settlement_outcome (bank (bank_calls w)))).
    repeat (split; [assumption|]).
    rewrite (psw_settled bank wid w m1 wd m2 l1 wallet l2) by assumption.
    cbn [snd]. destruct (fst _); [left | right]; reflexivity.
Qed.

Lemma linked_processing s r :
  linked s r -> ScheduledWithdrawal.status r = PROCESSING ->
  ScheduledWithdrawal.transaction r = None.
Proof. unfold linked. intros H E. now rewrite E in H. Qed.

Lemma in_around {A} (l1 l2 : list A) (x y r : A) :
  In r (l1 ++ x :: l2) -> r = x \/ In r (l1 ++ y :: l2).
Proof.
  intros H. apply in_app_or in H. destruct H as [H | [<- | H]].
  - right. apply in_or_app. now left.
  - now left.
  - right. apply in_or_app. right. now right.
Qed.

Lemma consistent_failed s m1 wd m2 msg :
  consistent s ->
  scheduled_withdrawals s = m1 ++ wd :: m2 ->
  ScheduledWithdrawal.status wd = PROCESSING ->
  consistent {| wallets := wallets s;
                transactions := transactions s;
                scheduled_withdrawals := m1 ++ mark_failed msg wd :: m2 |}.
Proof.
  intros [[K1 K2 K3 K4] L S C] Hrows Hst.
  constructor; [constructor|..]; store_simpl; try assumption.
  - rewrite Hrows in K4. rewrite map_app in *. exact K4.
  - intros r Hr. destruct (in_around _ _ _ wd _ Hr) as [-> | Hr'].
    + unfold linked. cbn. apply (linked_processing s); [|exact Hst].
      apply L. rewrite Hrows. apply in_or_app. right. now left.
    + apply (linked_more s); [auto|]. apply L. now rewrite Hrows.
  - intros t Ht Hty. apply (settled_more t (scheduled_withdrawals s)); [|auto].
    intros r Hr Hs. rewrite Hrows in Hr.
    destruct (in_around _ _ _ (mark_failed msg wd) _ Hr) as [-> | Hr']; [|exact Hr'].
    apply settles_completed in Hs. congruence.
Qed.

Lemma consistent_completed s m1 wd m2 l1 wallet l2 :
  consistent s ->
  scheduled_withdrawals s = m1 ++ wd :: m2 ->
  ScheduledWithdrawal.status wd = PROCESSING ->
  wallets s = l1 ++ wallet :: l2 ->
  consistent
    {| wallets :=
         l1 ++ Wallet.with_balance
                 (Wallet.balance wallet - ScheduledWithdrawal.amount wd) wallet
            :: l2;
       transactions := transactions s ++ [withdraw_txn s wd];
       scheduled_withdrawals := m1 ++ mark_completed (withdraw_txn s wd) wd :: m2 |}.
Proof.
  intros [[K1 K2 K3 K4] L S C] Hrows Hst Hws.
  constructor; [constructor|..]; store_simpl.
  - rewrite Hws in K1. rewrite map_app in *. exact K1.
  - rewrite Hws in K2. rewrite map_app in *. exact K2.
  - apply NoDup_map_snoc; [exact K3 | apply next_id_fresh].
  - rewrite Hrows in K4. rewrite map_app in *. exact K4.
  - intros r Hr. destruct (in_around _ _ _ wd _ Hr) as [-> | Hr'].
    + unfold linked. cbn. exists (withdraw_txn s wd).
      split; [apply in_or_app; right; now left|]. repeat split.
    + apply (linked_more s).
      * intros t Ht. cbn. apply in_or_app. now left.
      * apply L. now rewrite Hrows.
  - intros t Ht Hty. apply in_app_or in Ht. destruct Ht as [Ht | [<- | []]].
    + apply (settled_more t (scheduled_withdrawals s)); [|auto].
      intros r Hr Hs. rewrite Hrows in Hr.
      destruct (in_around _ _ _ (mark_completed (withdraw_txn s wd) wd) _ Hr)
        as [-> | Hr']; [|exact Hr'].
      apply settles_completed in Hs. congruence.
    + apply existsb_at. unfold settles. cbn. apply Z.eqb_refl.
  - rewrite (ledger_total_snoc DEPOSIT s _ (withdraw_txn s wd)) by reflexivity.
    rewrite (ledger_total_snoc WITHDRAW s _ (withdraw_txn s wd)) by reflexivity.
    cbn [withdraw_txn Transaction.type Transaction.amount Transaction.type_eqb].
    rewrite (total_balance_at s l1 wallet l2 Hws) in C.
    unfold total_balance. store_simpl. sums.
    cbn [Wallet.with_balance Wallet.balance]. lia.
Qed.

Lemma consistent_psw bank wid w :
  consistent (db w) ->
  consistent (db (exec (process_single_withdrawal bank wid) w)).
Proof.
  intros H.
  destruct (psw_cases bank wid w (withdrawal_ids _ (keys _ H))
              (wallet_ids _ (keys _ H)))
    as [-> | (m1 & wd & m2 & Hrows & Hid & Hst &
              [-> | (l1 & wallet & l2 & msg & Hws & Hwid & Hle & [-> | ->])])];
    store_simpl.
  - exact H.
  - now apply consistent_failed.
  - now apply consistent_completed.
  - now apply consistent_failed.
Qed.

Lemma consistent_claim now w :
  consistent (db w) -> consistent (db (exec (claim_due now) w)).
Proof.
  intros H. pose proof H as [[K1 K2 K3 K4] L S C].
  unfold exec. rewrite claim_due_run.
  destruct (due_ids now (db w)); [exact H|]. store_simpl.
  constructor; [constructor|..]; store_simpl; try assumption.
  - rewrite map_update_rows; [exact K4 | reflexivity].
  - intros r' Hr'. apply in_update_rows in Hr'. destruct Hr' as (r & Hr & ->).
    destruct (is_due _ _ r) eqn:E.
    + apply is_due_spec in E. destruct E as [Hst _].
      pose proof (L r Hr) as Hl. unfold linked in *. rewrite Hst in Hl. exact Hl.
    + apply (linked_more (db w)); [auto | now apply L].
  - intros t Ht Hty. apply (settled_more t (scheduled_withdrawals (db w))); [|auto].
    intros r Hr Hs. apply in_update_rows. exists r. split; [exact Hr|].
    destruct (is_due _ _ r) eqn:E; [|reflexivity].
    apply is_due_spec in E. apply settles_completed in Hs.
    destruct E as [E _]. congruence.
Qed.

Lemma consistent_process_each bank ids w :
  consistent (db w) -> consistent (db (process_each bank ids w)).
Proof.
  revert w. induction ids as [|i ids IH]; intros w H; [exact H|].
  cbn. apply IH. now apply consistent_psw.
Qed.

Lemma sweep_run bank now w :
  exec (process_scheduled_withdrawals bank now) w =
    process_each bank (due_ids now (db w)) (exec (claim_due now) w).
Proof.
  unfold exec. cbv [process_scheduled_withdrawals bind].
  rewrite claim_due_run.
  destruct (due_ids now (db w)) eqn:E; [reflexivity|].
  rewrite for_each_run. reflexivity.
Qed.

Lemma consistent_run_op o w :
  consistent (db w) -> consistent (db (run_op o w)).
Proof.
  intros H. destruct o; cbn [run_op].
  - now apply consistent_create_wallet.
  - now apply consistent_deposit.
  - now apply consistent_schedule.
  - rewrite sweep_run. apply consistent_process_each. now apply consistent_claim.
Qed.

Lemma consistent_run_ops ops w :
  consistent (db w) -> consistent (db (run_ops ops w)).
Proof.
  revert w. induction ops as [|o ops IH]; intros w H; [exact H|].
  cbn. apply IH. now apply consistent_run_op.
Qed.

(** ** Rows the sweeps leave alone *)

Lemma key_injective {A K} (key : A -> K) (l : list A) (a b : A) :
  NoDup (map key l) -> In a l -> In b l -> key a = key b -> a = b.
Proof.
  intros Hnd Ha Hb Hk.
  destruct (in_split _ _ Ha) as (l1 & l2 & ->).
  apply in_app_or in Hb. destruct Hb as [Hb | [Hb | Hb]]; [|exact Hb|];
    exfalso; apply (nodup_key_split key l1 a l2 b Hnd); try congruence;
    apply in_or_app; auto.
Qed.

Lemma stays_psw bank i w r :
  consistent (db w) ->
  In r (scheduled_withdrawals (db w)) ->
  ScheduledWithdrawal.status r = PENDING ->
  In r (scheduled_withdrawals (db (exec (process_single_withdrawal bank i) w))).
Proof.
  intros H Hr Hst.
  destruct (psw_cases bank i w (withdrawal_ids _ (keys _ H))
              (wallet_ids _ (keys _ H)))
    as [-> | (m1 & wd & m2 & Hrows & Hid & Hwd &
              [-> | (l1 & wallet & l2 & msg & Hws & Hwid & Hle & [-> | ->])])];
    store_simpl; try exact Hr; rewrite Hrows in Hr;
    match goal with
    | |- In r (m1 ++ ?y :: m2) =>
        destruct (in_around _ _ _ y _ Hr) as [-> | Hr']; [congruence | exact Hr']
    end.
Qed.

Lemma stays_process_each bank ids w r :
  consistent (db w) ->
  In r (scheduled_withdrawals (db w)) ->
  ScheduledWithdrawal.status r = PENDING ->
  In r (scheduled_withdrawals (db (process_each bank ids w))).
Proof.
  revert w. induction ids as [|i ids IH]; intros w H Hr Hst; [exact Hr|].
  cbn. apply IH; [now apply consistent_psw | now apply stays_psw | exact Hst].
Qed.

Lemma not_due_before now r :
  ScheduledWithdrawal.scheduled_for r < floor_to_minute now ->
  is_due (floor_to_minute now) (floor_to_minute now + MINUTE) r = false.
Proof.
  intros Hlt. destruct (is_due _ _ r) eqn:E; [|reflexivity].
  apply is_due_spec in E. lia.
Qed.

Lemma stays_claim now w r :
  ScheduledWithdrawal.scheduled_for r < floor_to_minute now ->
  In r (scheduled_withdrawals (db w)) ->
  In r (scheduled_withdrawals (db (exec (claim_due now) w))).
Proof.
  intros Hlt Hr. unfold exec. rewrite claim_due_run.
  destruct (due_ids now (db w)); [exact Hr|]. store_simpl.
  apply in_update_rows. exists r. split; [exact Hr|].
  now rewrite not_due_before.
Qed.

Lemma stays_create_wallet u w :
  scheduled_withdrawals (db (exec (create_wallet u) w)) =
  scheduled_withdrawals (db w).
Proof.
  unfold exec. rewrite create_wallet_run. destruct (existsb _ _); reflexivity.
Qed.

Lemma stays_deposit u a w :
  scheduled_withdrawals (db (exec (deposit_to_wallet u a) w)) =
  scheduled_withdrawals (db w).
Proof.
  unfold exec. cbv [deposit_to_wallet atomic bind Wallet_get_by_uuid get_db].
  destruct (a <=? 0); [reflexivity|].
  destruct (filter _ _) as [|x [|y l]]; try reflexivity.
  cbv [ret Wallet_save bind get_db put_db Transaction_create raise].
  destruct (negb (fits _)); [reflexivity|]. cbn [db].
  destruct (existsb _ _); reflexivity.
Qed.

Lemma stays_schedule now u a t w r :
  In r (scheduled_withdrawals (db w)) ->
  In r (scheduled_withdrawals (db (exec (create_withdraw_request now u a t) w))).
Proof.
  intros Hr. unfold exec.
  cbv [create_withdraw_request atomic bind Wallet_get_by_uuid get_db].
  destruct (a <=? 0); [exact Hr|]. destruct (t <=? now); [exact Hr|].
  destruct (filter _ _) as [|x [|y l]]; try exact Hr.
  cbv [ret ScheduledWithdrawal_create bind get_db put_db raise].
  destruct (negb (fits _)); [exact Hr|]. store_simpl.
  apply in_or_app. now left.
Qed.

Lemma stays_run_ops ops w r :
  consistent (db w) ->
  In r (scheduled_withdrawals (db w)) ->
  ScheduledWithdrawal.status r = PENDING ->
  sweeps_after (ScheduledWithdrawal.scheduled_for r) ops ->
  In r (scheduled_withdrawals (db (run_ops ops w))).
Proof.
  revert w. induction ops as [|o ops IH]; intros w H Hr Hst Hops; [exact Hr|].
  inversion Hops as [|o' ops' Ho Hrest]; subst.
  cbn. apply IH; [now apply consistent_run_op | | exact Hst | exact Hrest].
  destruct o; cbn [run_op].
  - now rewrite stays_create_wallet.
  - now rewrite stays_deposit.
  - now apply stays_schedule.
  - rewrite sweep_run. apply stays_process_each; [|now apply stays_claim|exact Hst].
    now apply consistent_claim.
Qed.

(** ** What holds in the middle of an execution *)

Lemma debit_phase_run wd w :
  debit_phase wd w =
    let ws := moved_balances (can_debit wd) (- ScheduledWithdrawal.amount wd)
                (wallets (db w)) in
    if count_rows (can_debit wd) (wallets (db w)) =? 0
    then (Return false,
          {| db := {| wallets := ws;
                      transactions := transactions (db w);
                      scheduled_withdrawals :=
                        saved_rows (mark_failed (Some insufficient_message) wd)
                          (scheduled_withdrawals (db w)) |};
             bank_calls := bank_calls w |})
    else (Return true,
          {| db := {| wallets := ws;
                      transactions := transactions (db w);
                      scheduled_withdrawals := scheduled_withdrawals (db w) |};
             bank_calls := bank_calls w |}).
Proof.
  into_debit. destruct (count_rows _ _ =? 0); [|reflexivity].
  cbv [ScheduledWithdrawal_save bind get_db put_db ret saved_rows].
  store_simpl. destruct (existsb _ _); reflexivity.
Qed.

Lemma completion_phase_run wd w :
  completion_phase wd w =
    (Return tt,
     {| db := {| wallets := wallets (db w);
                 transactions := transactions (db w) ++ [withdraw_txn (db w) wd];
                 scheduled_withdrawals :=
                   saved_rows (mark_completed (withdraw_txn (db w) wd) wd)
                     (scheduled_withdrawals (db w)) |};
        bank_calls := bank_calls w |}).
Proof.
  cbv [completion_phase atomic bind Transaction_create get_db put_db ret
       ScheduledWithdrawal_save saved_rows].
  store_simpl. fold (withdraw_txn (db w) wd).
  destruct (existsb _ _); reflexivity.
Qed.

Lemma compensation_phase_run wd msg w :
  compensation_phase wd msg w =
    (Return tt,
     {| db := {| wallets :=
                   moved_balances
                     (fun r => Wallet.id r =? ScheduledWithdrawal.wallet wd)
                     (ScheduledWithdrawal.amount wd) (wallets (db w));
                 transactions := transactions (db w);
                 scheduled_withdrawals :=
                   saved_rows (mark_failed msg wd)
                     (scheduled_withdrawals (db w)) |};
        bank_calls := bank_calls w |}).
Proof.
  cbv [compensation_phase atomic bind Wallet_update_balance get_db put_db ret
       ScheduledWithdrawal_save saved_rows].
  store_simpl. destruct (existsb _ _); reflexivity.
Qed.

Lemma in_saved_rows self rows x :
  In x (saved_rows self rows) -> In x rows \/ x = self.
Proof.
  unfold saved_rows. destruct (existsb _ _).
  - intros H. apply in_update_rows in H. destruct H as (r & Hr & ->).
    destruct (_ =? _); auto.
  - intros H. apply in_app_or in H. destruct H as [H | [<- | []]]; auto.
Qed.

Lemma in_moved_balances p delta ws x :
  In x (moved_balances p delta ws) ->
  In x ws \/
  exists r, In r ws /\ p r = true /\
            x = Wallet.with_balance (Wallet.balance r + delta) r.
Proof.
  unfold moved_balances. intros H. apply in_update_rows in H.
  destruct H as (r & Hr & ->). destruct (p r) eqn:E; [right | left]; eauto.
Qed.

(** A wallet row the debit block changed could pay. *)
Lemma debit_guard wd w x :
  In x (wallets (db (exec (debit_phase wd) w))) ->
  In x (wallets (db w)) \/
  exists r, In r (wallets (db w)) /\
            Wallet.id r = ScheduledWithdrawal.wallet wd /\
            ScheduledWithdrawal.amount wd <= Wallet.balance r /\
            x = Wallet.with_balance
                  (Wallet.balance r - ScheduledWithdrawal.amount wd) r.
Proof.
  unfold exec. rewrite debit_phase_run. cbv zeta.
  intros H.
  assert (Hin : In x (moved_balances (can_debit wd)
                        (- ScheduledWithdrawal.amount wd) (wallets (db w))))
    by (destruct (count_rows _ _ =? 0); exact H).
  apply in_moved_balances in Hin.
  destruct Hin as [Hin | (r & Hr & Hp & ->)]; [now left | right].
  exists r. split; [exact Hr|]. split; [now apply can_debit_key|].
  unfold can_debit in Hp. apply andb_prop in Hp. destruct Hp as [_ Hp].
  apply Z.leb_le in Hp. split; [exact Hp|]. now rewrite Z.add_opp_r.
Qed.

Lemma deposit_wallets u a w x :
  In x (wallets (db (exec (deposit_to_wallet u a) w))) ->
  In x (wallets (db w)) \/
  exists r, In r (wallets (db w)) /\ 0 < a /\
            x = Wallet.with_balance (Wallet.balance r + a) r.
Proof.
  unfold exec. cbv [deposit_to_wallet atomic bind Wallet_get_by_uuid get_db].
  destruct (a <=? 0) eqn:Ea; [now left|]. apply Z.leb_gt in Ea.
  destruct (filter _ _) as [|r [|y l]] eqn:Ef; try (now left).
  assert (Hr : In r (wallets (db w))).
  { assert (Hin : In r (filter (fun r => String.eqb (Wallet.uuid r) u)
                          (wallets (db w)))) by (rewrite Ef; now left).
    now apply filter_In in Hin. }
  cbv [ret Wallet_save bind get_db put_db Transaction_create raise].
  destruct (negb (fits _)); [now left|]. cbn [db].
  destruct (existsb _ _); store_simpl; intros H.
  - apply in_update_rows in H. destruct H as (r0 & Hr0 & ->).
    destruct (_ =? _); [right; eauto | now left].
  - apply in_app_or in H. destruct H as [H | [<- | []]]; [now left | right; eauto].
Qed.

Lemma schedule_wallets now u a t w :
  wallets (db (exec (create_withdraw_request now u a t) w)) = wallets (db w).
Proof.
  unfold exec.
  cbv [create_withdraw_request atomic bind Wallet_get_by_uuid get_db].
  destruct (a <=? 0); [reflexivity|]. destruct (t <=? now); [reflexivity|].
  destruct (filter _ _) as [|x [|y l]]; try reflexivity.
  cbv [ret ScheduledWithdrawal_create bind get_db put_db raise].
  destruct (negb (fits _)); reflexivity.
Qed.

Lemma schedule_rows now u a t w x :
  In x (scheduled_withdrawals (db (exec (create_withdraw_request now u a t) w))) ->
  In x (scheduled_withdrawals (db w)) \/
  (0 < a /\ ScheduledWithdrawal.amount x = a).
Proof.
  unfold exec.
  cbv [create_withdraw_request atomic bind Wallet_get_by_uuid get_db].
  destruct (a <=? 0) eqn:Ea; [now left|]. apply Z.leb_gt in Ea.
  destruct (t <=? now); [now left|].
  destruct (filter _ _) as [|r [|y l]]; try (now left).
  cbv [ret ScheduledWithdrawal_create bind get_db put_db raise].
  destruct (negb (fits _)); [now left|]. store_simpl.
  intros H. apply in_app_or in H. destruct H as [H | [<- | []]]; [now left|].
  right. split; [lia | reflexivity].
Qed.

Lemma claim_wallets now w :
  wallets (db (exec (claim_due now) w)) = wallets (db w).
Proof.
  unfold exec. rewrite claim_due_run. destruct (due_ids now (db w)); reflexivity.
Qed.

Lemma claim_rows now w x :
  In x (scheduled_withdrawals (db (exec (claim_due now) w))) ->
  exists r, In r (scheduled_withdrawals (db w)) /\
            ScheduledWithdrawal.amount x = ScheduledWithdrawal.amount r.
Proof.
  unfold exec. rewrite claim_due_run.
  destruct (due_ids now (db w)); store_simpl; intros H; [eauto|].
  apply in_update_rows in H. destruct H as (r & Hr & ->).
  exists r. split; [exact Hr|]. destruct (is_due _ _ r); reflexivity.
Qed.

Lemma create_wallet_wallets u w x :
  In x (wallets (db (exec (create_wallet u) w))) ->
  In x (wallets (db w)) \/ Wallet.balance x = 0.
Proof.
  unfold exec. rewrite create_wallet_run.
  destruct (existsb _ _); store_simpl; intros H; [now left|].
  apply in_app_or in H. destruct H as [H | [<- | []]]; [now left | now right].
Qed.

Lemma solvent_initial : solvent initial.
Proof. constructor; intros r []. Qed.

Lemma solvent_run_event e c : solvent c -> solvent (run_event e c).
Proof.
  intros [B A H]. destruct e; cbn [run_event].
  - constructor; cbn [on_world world fetched]; [|rewrite stays_create_wallet|]; auto.
    intros r Hr. apply create_wallet_wallets in Hr.
    destruct Hr as [Hr | ->]; [auto | lia].
  - constructor; cbn [on_world world fetched]; [|rewrite stays_deposit|]; auto.
    intros r Hr. apply deposit_wallets in Hr.
    destruct Hr as [Hr | (r0 & Hr0 & Hpos & ->)]; [auto|].
    cbn. specialize (B r0 Hr0). lia.
  - constructor; cbn [on_world world fetched]; [rewrite schedule_wallets| |]; auto.
    intros r Hr. apply schedule_rows in Hr.
    destruct Hr as [Hr | [Hpos ->]]; auto.
  - constructor; cbn [on_world world fetched]; [rewrite claim_wallets| |]; auto.
    intros r Hr. apply claim_rows in Hr. destruct Hr as (r0 & Hr0 & ->). auto.
  - destruct (fetch_processing withdrawal_id (db (world c))) as [wd|] eqn:E;
      [|constructor; assumption].
    constructor; cbn [world fetched]; auto.
    intros r Hr. apply in_app_or in Hr. destruct Hr as [Hr | [<- | []]]; auto.
    apply fetch_processing_some in E. now apply A.
  - unfold on_fetched. destruct (nth_error (fetched c) k) as [wd|] eqn:E;
      [|constructor; assumption].
    apply nth_error_In in E. pose proof (H wd E) as Hwd.
    constructor; cbn [on_world world fetched]; auto.
    + intros r Hr. apply debit_guard in Hr.
      destruct Hr as [Hr | (r0 & Hr0 & _ & Hle & ->)]; [auto|]. cbn. lia.
    + unfold exec. rewrite debit_phase_run. cbv zeta.
      destruct (count_rows _ _ =? 0); store_simpl; auto.
      intros r Hr. apply in_saved_rows in Hr. destruct Hr as [Hr | ->]; auto.
  - unfold on_fetched. destruct (nth_error (fetched c) k) as [wd|] eqn:E;
      [|constructor; assumption].
    apply nth_error_In in E. pose proof (H wd E) as Hwd.
    unfold on_world, exec. rewrite completion_phase_run.
    constructor; store_simpl; cbn [world fetched]; store_simpl; auto.
    intros r Hr. apply in_saved_rows in Hr. destruct Hr as [Hr | ->]; auto.
  - unfold on_fetched. destruct (nth_error (fetched c) k) as [wd|] eqn:E;
      [|constructor; assumption].
    apply nth_error_In in E. pose proof (H wd E) as Hwd.
    unfold on_world, exec. rewrite compensation_phase_run.
    constructor; store_simpl; cbn [world fetched]; store_simpl; auto.
    + intros r Hr. apply in_moved_balances in Hr.
      destruct Hr as [Hr | (r0 & Hr0 & _ & ->)]; [auto|].
      cbn. specialize (B r0 Hr0). lia.
    + intros r Hr. apply in_saved_rows in Hr. destruct Hr as [Hr | ->]; auto.
Qed.

Lemma solvent_run_events events c : solvent c -> solvent (run_events events c).
Proof.
  revert c. induction events as [|e events IH]; intros c H; [exact H|].
  cbn. apply IH. now apply solvent_run_event.
Qed.

(** ** The scenarios of the specification, run *)

Example scenario_deposit :
  map Wallet.balance (wallets (db Scenarios.w1500)) = [1500] /\
  map Transaction.amount (transactions (db Scenarios.w1500)) = [1000; 500].
Proof. split; reflexivity. Qed.

Example scenario_insufficient :
  let s := db (Scenarios.swept 2000 Scenarios.success) in
  map Wallet.balance (wallets s) = [1500] /\
  map ScheduledWithdrawal.status (scheduled_withdrawals s) = [FAILED] /\
  map ScheduledWithdrawal.error_message (scheduled_withdrawals s)
    = [Some "Insufficient balance at execution time"%string] /\
  bank_calls (Scenarios.swept 2000 Scenarios.success) = 0%nat.
Proof. repeat split; reflexivity. Qed.

Example scenario_transport_error :
  let s := db (Scenarios.swept 1000 Scenarios.timeout) in
  map Wallet.balance (wallets s) = [1500] /\
  map ScheduledWithdrawal.status (scheduled_withdrawals s) = [FAILED] /\
  map ScheduledWithdrawal.error_message (scheduled_withdrawals s)
    = [Some "Unexpected error: Read timed out. - withdrawal amount refunded"%string] /\
  transactions s = transactions (db Scenarios.w1500).
Proof. repeat split; reflexivity. Qed.

Example scenario_refusal :
  let s := db (Scenarios.swept 1000 Scenarios.refusal) in
  map Wallet.balance (wallets s) = [1500] /\
  map ScheduledWithdrawal.status (scheduled_withdrawals s) = [FAILED] /\
  map ScheduledWithdrawal.error_message (scheduled_withdrawals s)
    = [Some "Bank rejected the request. Response: {'data': 'failed'}"%string].
Proof. repeat split; reflexivity. Qed.

Example scenario_success :
  let s := db (Scenarios.swept 1000 Scenarios.success) in
  map Wallet.balance (wallets s) = [500] /\
  map ScheduledWithdrawal.status (scheduled_withdrawals s) = [COMPLETED] /\
  map ScheduledWithdrawal.transaction (scheduled_withdrawals s) = [Some 3] /\
  map Transaction.amount (transactions s) = [1000; 500; 1000].
Proof. repeat split; reflexivity. Qed.

(** * The claims *)

Ltac nodup_list :=
  repeat (constructor; [cbn; intuition (try discriminate; try lia)|]);
  constructor.

(** ** Deposit *)

(** C6.  [deposit_to_wallet wallet_uuid amount]: an amount that is zero or
    negative raises the validation error and leaves wallets, ledger and
    withdrawals as they were; a positive amount for a uuid no wallet
    carries raises [DoesNotExist] and changes nothing either; a positive
    amount for an existing wallet does both or neither: when the new
    balance is one the column holds, the call raises that wallet's balance
    by exactly [amount], leaves every other wallet row alone and appends
    exactly one deposit transaction of that amount with a fresh key; when
    it is above the limit of the column, the store's error comes out of
    the call and wallets, ledger and withdrawals are as they were. *)
Theorem deposit_to_wallet_spec (wallet_uuid : string) (amount : Z) (w : World) :
  (amount <= 0 ->
   deposit_to_wallet wallet_uuid amount w =
     (Raise (ValueError "Amount must be positive"), w))
  /\
  (0 < amount ->
   (forall r, In r (wallets (db w)) -> Wallet.uuid r <> wallet_uuid) ->
   deposit_to_wallet wallet_uuid amount w = (Raise DoesNotExist, w))
  /\
  (0 < amount ->
   NoDup (map Wallet.id (wallets (db w))) ->
   NoDup (map Wallet.uuid (wallets (db w))) ->
   forall wallet,
     In wallet (wallets (db w)) ->
     Wallet.uuid wallet = wallet_uuid ->
     (0 <= Wallet.balance wallet + amount <= BIGINT_MAX ->
      exists txn w' l1 l2,
        deposit_to_wallet wallet_uuid amount w = (Return txn, w') /\
        wallets (db w) = l1 ++ wallet :: l2 /\
        wallets (db w') =
          l1 ++ Wallet.with_balance (Wallet.balance wallet + amount) wallet
             :: l2 /\
        total_balance (db w') = total_balance (db w) + amount /\
        transactions (db w') = transactions (db w) ++ [txn] /\
        Transaction.amount txn = amount /\
        Transaction.type txn = DEPOSIT /\
        Transaction.wallet txn = Wallet.id wallet /\
        ~ In (Transaction.id txn) (map Transaction.id (transactions (db w))) /\
        scheduled_withdrawals (db w') = scheduled_withdrawals (db w) /\
        bank_calls w' = bank_calls w)
     /\
     (BIGINT_MAX < Wallet.balance wallet + amount ->
      deposit_to_wallet wallet_uuid amount w = (Raise DataError, w))).
Proof.
  split; [|split].
  - apply deposit_rejected.
  - apply deposit_missing.
  - intros Hpos Hid Huuid wallet Hin Hu.
    destruct (in_split _ _ Hin) as (l1 & l2 & Hsplit).
    split.
    + intros Hfit. apply fits_spec in Hfit.
      exists (deposit_txn (db w) wallet amount). eexists. exists l1, l2.
      split; [exact (deposit_found _ _ _ _ _ _ Hpos Hid Huuid Hsplit Hu Hfit)|].
      cbn [db wallets transactions scheduled_withdrawals bank_calls].
      repeat split; try reflexivity.
      * exact Hsplit.
      * unfold total_balance. cbn [wallets]. rewrite Hsplit.
        rewrite !map_app, !sumZ_app. cbn. lia.
      * apply next_id_fresh.
    + intros Hout.
      exact (deposit_refused _ _ _ _ _ _ Hpos Huuid Hsplit Hu
               (proj2 (fits_false _) (or_intror Hout))).
Qed.

Lemma deposit_to_wallet_spec_witness :
  (-5 <= 0 /\
   deposit_to_wallet "a" (-5) Scenarios.w1500 =
     (Raise (ValueError "Amount must be positive"), Scenarios.w1500))
  /\
  (0 < 500 /\
   (forall r, In r (wallets (db Scenarios.w1500)) -> Wallet.uuid r <> "b"%string) /\
   deposit_to_wallet "b" 500 Scenarios.w1500 =
     (Raise DoesNotExist, Scenarios.w1500))
  /\
  (0 < 500 /\
   NoDup (map Wallet.id (wallets (db Scenarios.w1500))) /\
   NoDup (map Wallet.uuid (wallets (db Scenarios.w1500))) /\
   In Scenarios.wallet_a (wallets (db Scenarios.w1500)) /\
   Wallet.uuid Scenarios.wallet_a = "a"%string /\
   0 <= Wallet.balance Scenarios.wallet_a + 500 <= BIGINT_MAX /\
   exists txn w',
     deposit_to_wallet "a" 500 Scenarios.w1500 = (Return txn, w') /\
     total_balance (db w') = total_balance (db Scenarios.w1500) + 500 /\
     transactions (db w') = transactions (db Scenarios.w1500) ++ [txn] /\
     Transaction.amount txn = 500)
  /\
  (0 < 9223372036854774308 /\
   BIGINT_MAX < Wallet.balance Scenarios.wallet_a + 9223372036854774308 /\
   deposit_to_wallet "a" 9223372036854774308 Scenarios.w1500 =
     (Raise DataError, Scenarios.w1500)).
Proof.
  assert (Hnone : forall r, In r (wallets (db Scenarios.w1500)) ->
                            Wallet.uuid r <> "b"%string).
  { intros r [<- | []]. discriminate. }
  assert (Hid : NoDup (map Wallet.id (wallets (db Scenarios.w1500))))
    by nodup_list.
  assert (Huuid : NoDup (map Wallet.uuid (wallets (db Scenarios.w1500))))
    by nodup_list.
  assert (Hin : In Scenarios.wallet_a (wallets (db Scenarios.w1500)))
    by (left; reflexivity).
  assert (Hfit : 0 <= Wallet.balance Scenarios.wallet_a + 500 <= BIGINT_MAX)
    by (vm_compute; split; discriminate).
  assert (Hout : BIGINT_MAX
                 < Wallet.balance Scenarios.wallet_a + 9223372036854774308)
    by reflexivity.
  split; [|split; [|split]].
  - split; [lia|].
    apply (proj1 (deposit_to_wallet_spec "a" (-5) Scenarios.w1500)). lia.
  - split; [lia|]. split; [exact Hnone|].
    apply (proj1 (proj2 (deposit_to_wallet_spec "b" 500 Scenarios.w1500)));
      [lia | exact Hnone].
  - split; [lia|]. repeat (split; [assumption || reflexivity|]).
    destruct (proj1 (proj2 (proj2 (deposit_to_wallet_spec "a" 500 Scenarios.w1500))
                       ltac:(lia) Hid Huuid Scenarios.wallet_a Hin eq_refl)
                Hfit)
      as (txn & w' & l1 & l2 & H1 & _ & _ & H4 & H5 & H6 & _).
    exists txn, w'. auto.
  - split; [reflexivity|]. split; [exact Hout|].
    exact (proj2 (proj2 (proj2 (deposit_to_wallet_spec "a" 9223372036854774308
                                  Scenarios.w1500))
                    eq_refl Hid Huuid Scenarios.wallet_a Hin eq_refl)
             Hout).
Defined.

(** ** Scheduling a withdrawal *)

(** C7.  [create_withdraw_request] with a positive amount, a time strictly
    after the clock and the uuid of an existing wallet returns a new row in
    pending status with a fresh key, appends it to the withdrawals and
    leaves the whole wallet table (so every column of the wallet row,
    balance and freeze amount among them) and the ledger as they were.
    The amount is one the column of the new row holds.  Nothing is assumed
    about the balance: the call succeeds whatever the wallet holds. *)
Theorem create_withdraw_request_frame (now : Z) (wallet_uuid : string)
  (amount scheduled_for : Z) (w : World) (wallet : Wallet.t) :
  0 < amount ->
  amount <= BIGINT_MAX ->
  now < scheduled_for ->
  NoDup (map Wallet.uuid (wallets (db w))) ->
  In wallet (wallets (db w)) ->
  Wallet.uuid wallet = wallet_uuid ->
  exists row w',
    create_withdraw_request now wallet_uuid amount scheduled_for w =
      (Return row, w') /\
    ScheduledWithdrawal.status row = PENDING /\
    ScheduledWithdrawal.wallet row = Wallet.id wallet /\
    ScheduledWithdrawal.amount row = amount /\
    ScheduledWithdrawal.scheduled_for row = scheduled_for /\
    ScheduledWithdrawal.transaction row = None /\
    ~ In (ScheduledWithdrawal.id row)
         (map ScheduledWithdrawal.id (scheduled_withdrawals (db w))) /\
    scheduled_withdrawals (db w') = scheduled_withdrawals (db w) ++ [row] /\
    wallets (db w') = wallets (db w) /\
    transactions (db w') = transactions (db w) /\
    bank_calls w' = bank_calls w.
Proof.
  intros Hpos Hmax Hfut Huuid Hin Hu.
  destruct (in_split _ _ Hin) as (l1 & l2 & Hsplit).
  exists (new_withdrawal (db w) wallet amount scheduled_for). eexists.
  split;
    [exact (schedule_found _ _ _ _ _ _ _ _ Hpos Hfut Huuid Hsplit Hu Hmax)|].
  cbn [db wallets transactions scheduled_withdrawals bank_calls
       set_scheduled_withdrawals].
  repeat split; try reflexivity.
  apply next_id_fresh.
Qed.

(** The wallet holds 1500 and the request is for 2000. *)
Lemma create_withdraw_request_frame_witness :
  0 < 2000 /\ 2000 <= BIGINT_MAX /\ 0 < 90000000 /\
  NoDup (map Wallet.uuid (wallets (db Scenarios.w1500))) /\
  In Scenarios.wallet_a (wallets (db Scenarios.w1500)) /\
  Wallet.uuid Scenarios.wallet_a = "a"%string /\
  exists row w',
    create_withdraw_request 0 "a" 2000 90000000 Scenarios.w1500 =
      (Return row, w') /\
    ScheduledWithdrawal.status row = PENDING /\
    wallets (db w') = wallets (db Scenarios.w1500).
Proof.
  assert (Huuid : NoDup (map Wallet.uuid (wallets (db Scenarios.w1500))))
    by nodup_list.
  assert (Hin : In Scenarios.wallet_a (wallets (db Scenarios.w1500)))
    by (left; reflexivity).
  assert (Hmax : 2000 <= BIGINT_MAX) by discriminate.
  split; [lia|]. split; [exact Hmax|]. split; [lia|].
  repeat (split; [assumption || reflexivity|]).
  destruct (create_withdraw_request_frame 0 "a" 2000 90000000 Scenarios.w1500
              Scenarios.wallet_a ltac:(lia) Hmax ltac:(lia) Huuid Hin eq_refl)
    as (row & w' & H1 & H2 & _ & _ & _ & _ & _ & _ & H9 & _).
  exists row, w'. auto.
Defined.

(** ** Executing one withdrawal *)





(** C3, as amended.  A withdrawal in processing status whose wallet holds
    strictly less than the amount: the conditional debit matches no row,
    the withdrawal row becomes failed with the message
    [Insufficient balance at execution time], written with a capital I,
    the provider is not called, and wallets and ledger stay as they were,
    so nothing is debited and nothing refunded. *)
Theorem insufficient_funds_at_execution (bank : nat -> BankReply)
  (withdrawal_id : Z) (w : World) (withdrawal : ScheduledWithdrawal.t)
  (wallet : Wallet.t) :
  NoDup (map ScheduledWithdrawal.id (scheduled_withdrawals (db w))) ->
  NoDup (map Wallet.id (wallets (db w))) ->
  In withdrawal (scheduled_withdrawals (db w)) ->
  ScheduledWithdrawal.id withdrawal = withdrawal_id ->
  ScheduledWithdrawal.status withdrawal = PROCESSING ->
  In wallet (wallets (db w)) ->
  Wallet.id wallet = ScheduledWithdrawal.wallet withdrawal ->
  Wallet.balance wallet < ScheduledWithdrawal.amount withdrawal ->
  insufficient_funds_outcome "Insufficient balance at execution time"
    bank withdrawal_id w withdrawal.
Proof.
  intros Hnd Hndw Hin Hid Hst Hinw Hwid Hlt.
  destruct (in_split _ _ Hin) as (m1 & m2 & Hrows).
  pose proof (cannot_debit withdrawal _ wallet Hndw Hinw Hwid Hlt) as Hno.
  split.
  - unfold count_rows. rewrite (filter_untouched _ _ Hno). reflexivity.
  - eexists. split.
    + exact (psw_insufficient bank withdrawal_id w m1 withdrawal m2
               Hnd Hrows Hid Hst Hno).
    + cbn [db wallets transactions scheduled_withdrawals bank_calls].
      repeat split. exists m1, m2. split; [exact Hrows | reflexivity].
Qed.

Lemma insufficient_funds_at_execution_witness :
  let w := Scenarios.claimed 2000 in
  let bank := Scenarios.always Scenarios.success in
  NoDup (map ScheduledWithdrawal.id (scheduled_withdrawals (db w))) /\
  NoDup (map Wallet.id (wallets (db w))) /\
  In (Scenarios.withdrawal_1 2000) (scheduled_withdrawals (db w)) /\
  In Scenarios.wallet_a (wallets (db w)) /\
  Wallet.balance Scenarios.wallet_a < 2000 /\
  insufficient_funds_outcome "Insufficient balance at execution time"
    bank 1 w (Scenarios.withdrawal_1 2000).
Proof.
  intros w bank.
  assert (Hnd : NoDup (map ScheduledWithdrawal.id (scheduled_withdrawals (db w))))
    by nodup_list.
  assert (Hndw : NoDup (map Wallet.id (wallets (db w)))) by nodup_list.
  assert (Hin : In (Scenarios.withdrawal_1 2000) (scheduled_withdrawals (db w)))
    by (left; reflexivity).
  assert (Hinw : In Scenarios.wallet_a (wallets (db w)))
    by (left; reflexivity).
  assert (Hlt : Wallet.balance Scenarios.wallet_a < 2000) by (cbn; lia).
  repeat (split; [assumption|]).
  exact (insufficient_funds_at_execution bank 1 w
           (Scenarios.withdrawal_1 2000) Scenarios.wallet_a
           Hnd Hndw Hin eq_refl eq_refl Hinw eq_refl Hlt).
Defined.

(** The wallet of the scenario holds 1500 and the withdrawal asks for 2000:
    every premise of C3 holds, and the message the code records is not the
    one the claim quotes, which starts with a small i. *)
Lemma insufficient_funds_message_counterexample :
  let w := Scenarios.claimed 2000 in
  let bank := Scenarios.always Scenarios.success in
  NoDup (map ScheduledWithdrawal.id (scheduled_withdrawals (db w))) /\
  NoDup (map Wallet.id (wallets (db w))) /\
  In (Scenarios.withdrawal_1 2000) (scheduled_withdrawals (db w)) /\
  ScheduledWithdrawal.status (Scenarios.withdrawal_1 2000) = PROCESSING /\
  In Scenarios.wallet_a (wallets (db w)) /\
  Wallet.id Scenarios.wallet_a =
    ScheduledWithdrawal.wallet (Scenarios.withdrawal_1 2000) /\
  Wallet.balance Scenarios.wallet_a < 2000 /\
  ~ insufficient_funds_outcome "insufficient balance at execution time"
      bank 1 w (Scenarios.withdrawal_1 2000).
Proof.
  intros w bank.
  split; [nodup_list|]. split; [nodup_list|].
  split; [left; reflexivity|]. split; [reflexivity|].
  split; [left; reflexivity|]. split; [reflexivity|].
  split; [cbn; lia|].
  intros (_ & w' & Hrun & _ & _ & _ & m1 & m2 & Hrows & Hrows').
  vm_compute in Hrun. injection Hrun as <-.
  destruct m1 as [|x m1].
  - vm_compute in Hrows'. discriminate Hrows'.
  - vm_compute in Hrows. destruct m1; discriminate Hrows.
Qed.

(** ** The sweep *)



(** ** Invariants *)

(** C1.  After any history of whole calls from the empty system (wallets
    created, deposits, schedulings, sweeps that run every claimed
    withdrawal to its end), the deposit entries of the ledger minus the
    withdraw entries that completed withdrawals refer to add up to the sum
    of the wallet balances. *)
Theorem money_conservation (ops : list Op) :
  let s := db (run_ops ops empty_world) in
  ledger_total DEPOSIT s - completed_withdrawals_total s = total_balance s.
Proof.
  intros s.
  pose proof (consistent_run_ops ops empty_world consistent_empty) as H.
  fold s in H. rewrite <- (conserved s H). f_equal.
  unfold completed_withdrawals_total, ledger_total. do 2 f_equal.
  apply filter_ext_in. intros t Ht.
  destruct (Transaction.type t) eqn:E; [reflexivity|].
  cbn. apply (settled s H t Ht E).
Qed.

(** C9.  After any history of whole calls from the empty system, a
    withdrawal in completed status refers to a transaction of the ledger
    and a withdrawal in failed status refers to none. *)
Theorem transaction_link_invariant (ops : list Op) (r : ScheduledWithdrawal.t) :
  In r (scheduled_withdrawals (db (run_ops ops empty_world))) ->
  (ScheduledWithdrawal.status r = COMPLETED ->
   exists tx, In tx (transactions (db (run_ops ops empty_world))) /\
              ScheduledWithdrawal.transaction r = Some (Transaction.id tx))
  /\
  (ScheduledWithdrawal.status r = FAILED ->
   ScheduledWithdrawal.transaction r = None).
Proof.
  intros Hr.
  pose proof (consistent_run_ops ops empty_world consistent_empty) as H.
  pose proof (links _ H r Hr) as Hl. unfold linked in Hl.
  split; intros Hst; rewrite Hst in Hl.
  - destruct Hl as (tx & Hin & Hlink & _). eauto.
  - exact Hl.
Qed.

Lemma transaction_link_invariant_witness :
  let ops := Histories.settled_with 1000 Scenarios.success in
  In (Histories.completed_1 1000)
     (scheduled_withdrawals (db (run_ops ops empty_world))) /\
  exists tx, In tx (transactions (db (run_ops ops empty_world))) /\
             ScheduledWithdrawal.transaction (Histories.completed_1 1000)
               = Some (Transaction.id tx).
Proof.
  intros ops.
  assert (Hin : In (Histories.completed_1 1000)
                  (scheduled_withdrawals (db (run_ops ops empty_world))))
    by (left; reflexivity).
  split; [exact Hin|].
  exact (proj1 (transaction_link_invariant ops (Histories.completed_1 1000) Hin)
           eq_refl).
Defined.

(** C5.  At every moment of every interleaving of calls and of the blocks
    of the execution engine (claims, fetches, debits, completions and
    compensations, in any order), every wallet's balance is at least zero;
    and a wallet row that a debit block changed held at least the amount
    before the block ran. *)
Theorem balance_never_negative (events : list Event)
  (withdrawal : ScheduledWithdrawal.t) (w : World) :
  (forall r, In r (wallets (db (world (run_events events initial)))) ->
             0 <= Wallet.balance r)
  /\
  (forall x, In x (wallets (db (exec (debit_phase withdrawal) w))) ->
             In x (wallets (db w)) \/
             exists r, In r (wallets (db w)) /\
                       Wallet.id r = ScheduledWithdrawal.wallet withdrawal /\
                       ScheduledWithdrawal.amount withdrawal <= Wallet.balance r /\
                       x = Wallet.with_balance
                             (Wallet.balance r
                              - ScheduledWithdrawal.amount withdrawal) r).
Proof.
  split.
  - apply (balances _ (solvent_run_events events initial solvent_initial)).
  - apply debit_guard.
Qed.

Lemma balance_never_negative_witness :
  let r := Wallet.with_balance 1150 Scenarios.wallet_a in
  let x := Wallet.with_balance 500 Scenarios.wallet_a in
  In r (wallets (db (world (run_events Histories.two_workers initial)))) /\
  0 <= Wallet.balance r /\
  In x (wallets (db (exec (debit_phase (Scenarios.withdrawal_1 1000))
                       (Scenarios.claimed 1000)))) /\
  (In x (wallets (db (Scenarios.claimed 1000))) \/
   exists r0, In r0 (wallets (db (Scenarios.claimed 1000))) /\
              Wallet.id r0 = 1 /\ 1000 <= Wallet.balance r0 /\
              x = Wallet.with_balance (Wallet.balance r0 - 1000) r0).
Proof.
  intros r x.
  assert (Hr : In r (wallets (db (world (run_events Histories.two_workers
                                           initial)))))
    by (left; reflexivity).
  assert (Hx : In x (wallets (db (exec (debit_phase (Scenarios.withdrawal_1 1000))
                                    (Scenarios.claimed 1000)))))
    by (left; reflexivity).
  split; [exact Hr|].
  split.
  - exact (proj1 (balance_never_negative Histories.two_workers
                    (Scenarios.withdrawal_1 1000) (Scenarios.claimed 1000)) r Hr).
  - split; [exact Hx|].
    exact (proj2 (balance_never_negative Histories.two_workers
                    (Scenarios.withdrawal_1 1000) (Scenarios.claimed 1000)) x Hx).
Defined.

(** C10.  A pending withdrawal whose [scheduled_for] lies strictly before
    the start of the minute of [now] is not among the ids a sweep at [now]
    collects and its row comes out of that sweep untouched; so through any
    later history whose sweeps all run that late the row stays as it is,
    in pending status. *)
Theorem stale_pending_never_claimed (history future : list Op)
  (r : ScheduledWithdrawal.t) :
  let w := run_ops history empty_world in
  In r (scheduled_withdrawals (db w)) ->
  ScheduledWithdrawal.status r = PENDING ->
  (forall bank now,
     ScheduledWithdrawal.scheduled_for r < floor_to_minute now ->
     ~ In (ScheduledWithdrawal.id r) (due_ids now (db w)) /\
     In r (scheduled_withdrawals
             (db (exec (process_scheduled_withdrawals bank now) w))))
  /\
  (sweeps_after (ScheduledWithdrawal.scheduled_for r) future ->
   In r (scheduled_withdrawals (db (run_ops future w)))).
Proof.
  intros w Hr Hst.
  pose proof (consistent_run_ops history empty_world consistent_empty) as H.
  fold w in H. split.
  - intros bank now Hlt. split.
    + unfold due_ids. intros Hin. apply in_map_iff in Hin.
      destruct Hin as (r' & Hid & Hr'). apply filter_In in Hr'.
      destruct Hr' as [Hr' Hdue].
      assert (r' = r)
        by (apply (key_injective ScheduledWithdrawal.id _ _ _
                     (withdrawal_ids _ (keys _ H)) Hr' Hr Hid)).
      subst r'. rewrite not_due_before in Hdue by exact Hlt. discriminate.
    + rewrite sweep_run. apply stays_process_each; [|now apply stays_claim|exact Hst].
      now apply consistent_claim.
  - intros Hlate. now apply stays_run_ops.
Qed.

Lemma stale_pending_never_claimed_witness :
  let history := Histories.funded 1000 in
  let w := run_ops history empty_world in
  let r := Histories.pending_1 1000 in
  In r (scheduled_withdrawals (db w)) /\
  ScheduledWithdrawal.status r = PENDING /\
  (ScheduledWithdrawal.scheduled_for r < floor_to_minute 150000000 /\
   ~ In (ScheduledWithdrawal.id r) (due_ids 150000000 (db w))) /\
  sweeps_after (ScheduledWithdrawal.scheduled_for r) Histories.late_sweeps /\
  In r (scheduled_withdrawals (db (run_ops Histories.late_sweeps w))).
Proof.
  intros history w r.
  assert (Hr : In r (scheduled_withdrawals (db w))) by (left; reflexivity).
  assert (Hlt : ScheduledWithdrawal.scheduled_for r < floor_to_minute 150000000)
    by (vm_compute; reflexivity).
  assert (Hlate : sweeps_after (ScheduledWithdrawal.scheduled_for r)
                    Histories.late_sweeps).
  { repeat constructor; vm_compute; reflexivity. }
  pose proof (stale_pending_never_claimed history Histories.late_sweeps r
                Hr eq_refl) as [H1 H2].
  split; [exact Hr|]. split; [reflexivity|].
  split; [split; [exact Hlt|]|].
  - exact (proj1 (H1 (Scenarios.always Scenarios.success) 150000000 Hlt)).
  - split; [exact Hlate | exact (H2 Hlate)].
Defined.
(** * More of the code, verified *)

(** ** Helper lemmas for the callers *)

Lemma Wallet_get_by_id_found (w : World) l1 wallet l2 :
  NoDup (map Wallet.id (wallets (db w))) ->
  wallets (db w) = l1 ++ wallet :: l2 ->
  Wallet_get_by_id (Wallet.id wallet) w = (Return wallet, w).
Proof.
  intros Hid Hsplit. cbv [Wallet_get_by_id bind get_db].
  rewrite Hsplit in *.
  rewrite (filter_at Wallet.id _ l1 wallet l2 Hid).
  - now rewrite Z.eqb_refl.
  - intros r Hr. now apply Z.eqb_eq in Hr.
Qed.

Lemma schedule_bad_amount now u a t w :
  a <= 0 ->
  create_withdraw_request now u a t w =
    (Raise (ValueError "Amount must be positive"), w).
Proof.
  intros Hle. cbv [create_withdraw_request atomic raise].
  leb_cases. now rewrite world_eta.
Qed.

Lemma schedule_bad_time now u a t w :
  0 < a -> t <= now ->
  create_withdraw_request now u a t w =
    (Raise (ValueError "Scheduled time must be in the future"), w).
Proof.
  intros Hpos Hle. cbv [create_withdraw_request atomic raise].
  leb_cases. now rewrite world_eta.
Qed.

Lemma is_blank_cases (s : option string) :
  is_blank s = true <-> s = None \/ s = Some EmptyString.
Proof.
  destruct s as [[|c s]|]; cbn; split; intros H; auto;
    try discriminate; destruct H as [H | H]; discriminate.
Qed.

(** The service up to the call of [create_withdraw_request]. *)
Lemma service_reaches_request strptime strftime now now' u a str t w :
  is_blank (Some str) = false ->
  strptime str = Return t ->
  now <= t ->
  schedule_withdrawal_service strptime strftime now now' u a (Some str) w =
    (withdrawal <- compared a (fun n => create_withdraw_request now' u n t) ;;
     wallet <- Wallet_get_by_id (ScheduledWithdrawal.wallet withdrawal) ;;
     ret {| Scheduled.wallet_uuid := Wallet.uuid wallet;
            Scheduled.amount := ScheduledWithdrawal.amount withdrawal;
            Scheduled.scheduled_for :=
              strftime (ScheduledWithdrawal.scheduled_for withdrawal);
            Scheduled.status := ScheduledWithdrawal.status withdrawal |}) w.
Proof.
  intros Hb Hp Hle. unfold schedule_withdrawal_service.
  rewrite Hb, Hp.
  destruct (t <? now) eqn:E; [apply Z.ltb_lt in E; lia | reflexivity].
Qed.

(** ** Scheduling: what is refused *)

(** X1.  [create_withdraw_request] checks the amount first, then the time,
    then looks the wallet up: an amount that is zero or negative raises
    [Amount must be positive] whatever the time and the wallet; a positive
    amount with a time that is not strictly after the clock raises
    [Scheduled time must be in the future] whether the wallet exists or
    not; a valid request for a uuid no wallet carries raises
    [DoesNotExist].  In all three cases the world is left as it was. *)
Theorem create_withdraw_request_refusals (now : Z) (wallet_uuid : string)
  (amount scheduled_for : Z) (w : World) :
  (amount <= 0 ->
   create_withdraw_request now wallet_uuid amount scheduled_for w =
     (Raise (ValueError "Amount must be positive"), w))
  /\
  (0 < amount -> scheduled_for <= now ->
   create_withdraw_request now wallet_uuid amount scheduled_for w =
     (Raise (ValueError "Scheduled time must be in the future"), w))
  /\
  (0 < amount -> now < scheduled_for ->
   (forall r, In r (wallets (db w)) -> Wallet.uuid r <> wallet_uuid) ->
   create_withdraw_request now wallet_uuid amount scheduled_for w =
     (Raise DoesNotExist, w)).
Proof.
  split; [|split].
  - apply schedule_bad_amount.
  - apply schedule_bad_time.
  - apply schedule_missing.
Qed.

Lemma create_withdraw_request_refusals_witness :
  (0 <= 0 /\
   create_withdraw_request 5 "nobody" 0 3 Scenarios.w1500 =
     (Raise (ValueError "Amount must be positive"), Scenarios.w1500))
  /\
  (0 < 7 /\ 5 <= 5 /\
   create_withdraw_request 5 "nobody" 7 5 Scenarios.w1500 =
     (Raise (ValueError "Scheduled time must be in the future"),
      Scenarios.w1500))
  /\
  (0 < 7 /\ 5 < 6 /\
   (forall r, In r (wallets (db Scenarios.w1500)) ->
              Wallet.uuid r <> "nobody"%string) /\
   create_withdraw_request 5 "nobody" 7 6 Scenarios.w1500 =
     (Raise DoesNotExist, Scenarios.w1500)).
Proof.
  assert (Hnone : forall r, In r (wallets (db Scenarios.w1500)) ->
                            Wallet.uuid r <> "nobody"%string).
  { intros r [<- | []]. discriminate. }
  split; [|split].
  - split; [lia|].
    apply (proj1 (create_withdraw_request_refusals 5 "nobody" 0 3
                    Scenarios.w1500)). lia.
  - split; [lia|]. split; [lia|].
    apply (proj1 (proj2 (create_withdraw_request_refusals 5 "nobody" 7 5
                           Scenarios.w1500))); lia.
  - split; [lia|]. split; [lia|]. split; [exact Hnone|].
    apply (proj2 (proj2 (create_withdraw_request_refusals 5 "nobody" 7 6
                           Scenarios.w1500))); [lia | lia | exact Hnone].
Defined.

(** X2.  [schedule_withdrawal_service] validates the time before it looks
    at the amount or the wallet: a missing or empty time raises the
    [time is required] error, a string the format does not fit raises the
    [Invalid datetime format] error, and a time strictly before the clock
    raises [Scheduled time cannot be in the past]; this holds for every
    amount and every wallet uuid, and the world is left as it was. *)
Theorem schedule_withdrawal_service_time_errors
  (strptime : string -> Result Z) (strftime : Z -> string) (now now' : Z)
  (wallet_uuid : string) (amount : Value) (scheduled_time_str : option string)
  (w : World) :
  (scheduled_time_str = None \/ scheduled_time_str = Some EmptyString ->
   schedule_withdrawal_service strptime strftime now now' wallet_uuid amount
     scheduled_time_str w =
     (Raise (ValueError "time is required (format: HH:MM:SS or HH:MM)"), w))
  /\
  (forall str msg,
     scheduled_time_str = Some str -> str <> EmptyString ->
     strptime str = Raise (ValueError msg) ->
     schedule_withdrawal_service strptime strftime now now' wallet_uuid amount
       scheduled_time_str w =
       (Raise (ValueError "Invalid datetime format. Use YYYY-MM-DD HH:MM:SS"),
        w))
  /\
  (forall str t,
     scheduled_time_str = Some str -> str <> EmptyString ->
     strptime str = Return t -> t < now ->
     schedule_withdrawal_service strptime strftime now now' wallet_uuid amount
       scheduled_time_str w =
       (Raise (ValueError "Scheduled time cannot be in the past"), w)).
Proof.
  split; [|split].
  - intros H. apply is_blank_cases in H.
    unfold schedule_withdrawal_service. now rewrite H.
  - intros str msg -> Hne Hp. unfold schedule_withdrawal_service.
    destruct str as [|c str]; [contradiction|]. cbn [is_blank].
    now rewrite Hp.
  - intros str t -> Hne Hp Hlt. unfold schedule_withdrawal_service.
    destruct str as [|c str]; [contradiction|]. cbn [is_blank].
    rewrite Hp. apply Z.ltb_lt in Hlt. now rewrite Hlt.
Qed.

Lemma schedule_withdrawal_service_time_errors_witness :
  let call := schedule_withdrawal_service Formats.strptime Formats.strftime in
  (call 5 6 "nobody"%string (Integer (-1)) None Scenarios.w1500 =
     (Raise (ValueError "time is required (format: HH:MM:SS or HH:MM)"),
      Scenarios.w1500))
  /\
  ("tomorrow"%string <> EmptyString /\
   Formats.strptime "tomorrow" =
     Raise (ValueError "time data does not match format") /\
   call 5 6 "nobody"%string (Integer (-1)) (Some "tomorrow"%string)
     Scenarios.w1500 =
     (Raise (ValueError "Invalid datetime format. Use YYYY-MM-DD HH:MM:SS"),
      Scenarios.w1500))
  /\
  ("1970-01-01 03:30:00"%string <> EmptyString /\
   Formats.strptime "1970-01-01 03:30:00" = Return 0 /\
   0 < 5 /\
   call 5 6 "nobody"%string (Integer (-1))
     (Some "1970-01-01 03:30:00"%string) Scenarios.w1500 =
     (Raise (ValueError "Scheduled time cannot be in the past"),
      Scenarios.w1500)).
Proof.
  intros call. split; [|split].
  - apply (proj1 (schedule_withdrawal_service_time_errors Formats.strptime
                    Formats.strftime 5 6 "nobody" (Integer (-1)) None
                    Scenarios.w1500)).
    now left.
  - split; [discriminate|]. split; [reflexivity|].
    apply (proj1 (proj2 (schedule_withdrawal_service_time_errors
                           Formats.strptime Formats.strftime 5 6 "nobody"
                           (Integer (-1))
                           (Some "tomorrow"%string) Scenarios.w1500))
             "tomorrow"%string "time data does not match format"%string
             eq_refl); [discriminate | reflexivity].
  - split; [discriminate|]. split; [reflexivity|]. split; [lia|].
    apply (proj2 (proj2 (schedule_withdrawal_service_time_errors
                           Formats.strptime Formats.strftime 5 6 "nobody"
                           (Integer (-1))
                           (Some "1970-01-01 03:30:00"%string) Scenarios.w1500))
             "1970-01-01 03:30:00"%string 0 eq_refl);
      [discriminate | reflexivity | lia].
Defined.

(** X3.  The service compares with [<] and [create_withdraw_request] with
    [<=], each on its own reading of a clock that does not run backwards:
    a time that is not before the first reading and not after the second,
    the very instant of the call among them, passes the service's check
    and is then refused with the message of [create_withdraw_request];
    nothing is stored. *)
Theorem schedule_withdrawal_service_refuses_the_present
  (strptime : string -> Result Z) (strftime : Z -> string) (now now' : Z)
  (wallet_uuid : string) (amount : Z) (str : string) (t : Z) (w : World) :
  str <> EmptyString ->
  strptime str = Return t ->
  0 < amount ->
  now <= t -> t <= now' ->
  schedule_withdrawal_service strptime strftime now now' wallet_uuid
    (Integer amount) (Some str) w =
    (Raise (ValueError "Scheduled time must be in the future"), w).
Proof.
  intros Hne Hp Hpos Hge Hle.
  rewrite (service_reaches_request strptime strftime now now' wallet_uuid
             (Integer amount) str t w); [| |exact Hp|exact Hge].
  - unfold bind, compared.
    now rewrite (schedule_bad_time now' wallet_uuid amount t w).
  - destruct str; [contradiction | reflexivity].
Qed.

Lemma schedule_withdrawal_service_refuses_the_present_witness :
  "1970-01-01 03:31:30"%string <> EmptyString /\
  Formats.strptime "1970-01-01 03:31:30" = Return 90000000 /\
  0 < 100 /\ 90000000 <= 90000000 /\ 90000000 <= 90000000 /\
  schedule_withdrawal_service Formats.strptime Formats.strftime
    90000000 90000000 "a" (Integer 100) (Some "1970-01-01 03:31:30"%string)
    Scenarios.w1500 =
    (Raise (ValueError "Scheduled time must be in the future"),
     Scenarios.w1500).
Proof.
  split; [discriminate|]. split; [reflexivity|].
  split; [lia|]. split; [lia|]. split; [lia|].
  apply (schedule_withdrawal_service_refuses_the_present Formats.strptime
           Formats.strftime 90000000 90000000 "a" 100
           "1970-01-01 03:31:30" 90000000 Scenarios.w1500);
    [discriminate | reflexivity | lia | lia | lia].
Defined.

(** X4.  A request the service accepts (a time that fits the format and
    lies strictly after both readings of the clock, a positive amount that
    the column holds, the uuid of an existing wallet, unique keys): the
    answer carries the
    wallet's uuid, the amount, the rendering of the parsed time and the
    status pending, and the world is exactly the one
    [create_withdraw_request] leaves: one pending row more, wallets and
    ledger untouched. *)
Theorem schedule_withdrawal_service_accepts
  (strptime : string -> Result Z) (strftime : Z -> string) (now now' : Z)
  (wallet_uuid : string) (amount : Z) (str : string) (t : Z) (w : World)
  (wallet : Wallet.t) :
  str <> EmptyString ->
  strptime str = Return t ->
  0 < amount ->
  amount <= BIGINT_MAX ->
  now <= t -> now' < t ->
  NoDup (map Wallet.id (wallets (db w))) ->
  NoDup (map Wallet.uuid (wallets (db w))) ->
  In wallet (wallets (db w)) ->
  Wallet.uuid wallet = wallet_uuid ->
  schedule_withdrawal_service strptime strftime now now' wallet_uuid
    (Integer amount) (Some str) w =
    (Return {| Scheduled.wallet_uuid := wallet_uuid;
               Scheduled.amount := amount;
               Scheduled.scheduled_for := strftime t;
               Scheduled.status := PENDING |},
     exec (create_withdraw_request now' wallet_uuid amount t) w)
  /\
  scheduled_withdrawals
    (db (exec (create_withdraw_request now' wallet_uuid amount t) w)) =
    scheduled_withdrawals (db w) ++ [new_withdrawal (db w) wallet amount t]
  /\
  wallets (db (exec (create_withdraw_request now' wallet_uuid amount t) w)) =
    wallets (db w)
  /\
  transactions
    (db (exec (create_withdraw_request now' wallet_uuid amount t) w)) =
    transactions (db w).
Proof.
  intros Hne Hp Hpos Hmax Hge Hfut Hid Huuid Hin Hu.
  destruct (in_split _ _ Hin) as (l1 & l2 & Hsplit).
  pose proof (schedule_found now' wallet_uuid amount t w l1 l2 wallet
                Hpos Hfut Huuid Hsplit Hu Hmax) as Hrun.
  unfold exec. rewrite Hrun. cbn [snd]. split; [|repeat split].
  rewrite (service_reaches_request strptime strftime now now' wallet_uuid
             (Integer amount) str t w); [| |exact Hp|exact Hge].
  2:{ destruct str; [contradiction | reflexivity]. }
  unfold bind at 1. unfold compared. rewrite Hrun.
  unfold bind. cbn [new_withdrawal ScheduledWithdrawal.wallet].
  rewrite (Wallet_get_by_id_found _ l1 wallet l2); [|exact Hid|exact Hsplit].
  cbn. now rewrite Hu.
Qed.

Lemma schedule_withdrawal_service_accepts_witness :
  let w := Scenarios.w1500 in
  "1970-01-01 03:31:30"%string <> EmptyString /\
  Formats.strptime "1970-01-01 03:31:30" = Return 90000000 /\
  0 < 2000 /\ 2000 <= BIGINT_MAX /\ 5 <= 90000000 /\ 6 < 90000000 /\
  NoDup (map Wallet.id (wallets (db w))) /\
  NoDup (map Wallet.uuid (wallets (db w))) /\
  In Scenarios.wallet_a (wallets (db w)) /\
  schedule_withdrawal_service Formats.strptime Formats.strftime 5 6 "a"
    (Integer 2000) (Some "1970-01-01 03:31:30"%string) w =
    (Return {| Scheduled.wallet_uuid := "a";
               Scheduled.amount := 2000;
               Scheduled.scheduled_for := "1970-01-01 03:31:30";
               Scheduled.status := PENDING |},
     exec (create_withdraw_request 6 "a" 2000 90000000) w).
Proof.
  intros w.
  assert (Hid : NoDup (map Wallet.id (wallets (db w)))) by nodup_list.
  assert (Huuid : NoDup (map Wallet.uuid (wallets (db w)))) by nodup_list.
  assert (Hin : In Scenarios.wallet_a (wallets (db w))) by (left; reflexivity).
  assert (Hmax : 2000 <= BIGINT_MAX) by discriminate.
  split; [discriminate|]. split; [reflexivity|].
  split; [lia|]. split; [exact Hmax|]. split; [lia|]. split; [lia|].
  repeat (split; [assumption|]).
  apply (proj1 (schedule_withdrawal_service_accepts Formats.strptime
                  Formats.strftime 5 6 "a" 2000 "1970-01-01 03:31:30"
                  90000000 w Scenarios.wallet_a
                  ltac:(discriminate) eq_refl ltac:(lia) Hmax ltac:(lia)
                  ltac:(lia) Hid Huuid Hin eq_refl)).
Defined.

(** ** The views *)

Lemma Wallet_get_by_uuid_found (w : World) l1 wallet l2 :
  NoDup (map Wallet.uuid (wallets (db w))) ->
  wallets (db w) = l1 ++ wallet :: l2 ->
  Wallet_get_by_uuid (Wallet.uuid wallet) w = (Return wallet, w).
Proof.
  intros Hu Hsplit. cbv [Wallet_get_by_uuid bind get_db].
  rewrite Hsplit in *.
  rewrite (filter_at Wallet.uuid _ l1 wallet l2 Hu).
  - now rewrite String.eqb_refl.
  - intros r Hr. now apply String.eqb_eq in Hr.
Qed.

Lemma deposit_view_found wallet_uuid data_amount n w l1 wallet l2 :
  amount_of data_amount = Integer n ->
  0 < n ->
  NoDup (map Wallet.id (wallets (db w))) ->
  NoDup (map Wallet.uuid (wallets (db w))) ->
  wallets (db w) = l1 ++ wallet :: l2 ->
  Wallet.uuid wallet = wallet_uuid ->
  fits (Wallet.balance wallet + n) = true ->
  CreateDepositView_post wallet_uuid data_amount w =
    (Return {| Http.status := 201;
               Http.data :=
                 Http.Deposited wallet_uuid n (Wallet.balance wallet + n) |},
     exec (deposit_to_wallet wallet_uuid n) w).
Proof.
  intros Ha Hpos Hid Huuid Hsplit Hu Hfit.
  unfold CreateDepositView_post. rewrite Ha. unfold compared.
  pose proof (deposit_found wallet_uuid n w l1 l2
                wallet Hpos Hid Huuid Hsplit Hu Hfit) as Hrun.
  unfold exec, try_except. unfold bind at 1. rewrite Hrun. cbn [snd].
  unfold bind. cbn [deposit_txn Transaction.wallet Transaction.amount].
  set (wallet' := Wallet.with_balance (Wallet.balance wallet + n) wallet).
  change (Wallet.id wallet) with (Wallet.id wallet').
  rewrite (Wallet_get_by_id_found _ l1 wallet' l2).
  - cbn. now rewrite Hu.
  - cbn [db wallets]. rewrite Hsplit in Hid. rewrite map_app in *. exact Hid.
  - reflexivity.
Qed.

(** What the view makes of an exception of the service. *)
Lemma deposit_view_raised wallet_uuid data_amount n e w :
  amount_of data_amount = Integer n ->
  deposit_to_wallet wallet_uuid n w = (Raise e, w) ->
  CreateDepositView_post wallet_uuid data_amount w = view_errors e w.
Proof.
  intros Ha Hrun. unfold CreateDepositView_post. rewrite Ha.
  unfold compared, try_except, bind. now rewrite Hrun.
Qed.

(** X5.  [CreateDepositView.post] takes a missing amount as 0.  An integer
    amount that is zero or negative is answered 400 with
    [Amount must be positive], and a positive one for a uuid no wallet
    carries is answered 404 with [wallet not found].  A positive amount
    for an existing wallet is answered 201 with that wallet's uuid, the
    amount and, as new balance, the balance before the call plus the
    amount, and the world is the one [deposit_to_wallet] leaves, when the
    new balance is one the column holds.  The view lets two errors
    through: [TypeError] for an amount that is not ordered against 0, null
    among them, and the store's error for a new balance above the limit of
    the column.  Except on 201 the world is left as it was. *)
Theorem CreateDepositView_post_responses (wallet_uuid : string)
  (data_amount : option Value) (w : World) :
  (forall n,
     amount_of data_amount = Integer n -> n <= 0 ->
     CreateDepositView_post wallet_uuid data_amount w =
       (Return {| Http.status := 400;
                  Http.data := Http.Error "Amount must be positive" |}, w))
  /\
  (amount_of data_amount = Unordered ->
   CreateDepositView_post wallet_uuid data_amount w = (Raise TypeError, w))
  /\
  (forall n,
     amount_of data_amount = Integer n -> 0 < n ->
     (forall r, In r (wallets (db w)) -> Wallet.uuid r <> wallet_uuid) ->
     CreateDepositView_post wallet_uuid data_amount w =
       (Return {| Http.status := 404;
                  Http.data := Http.Error "wallet not found" |}, w))
  /\
  (forall n wallet,
     amount_of data_amount = Integer n -> 0 < n ->
     NoDup (map Wallet.id (wallets (db w))) ->
     NoDup (map Wallet.uuid (wallets (db w))) ->
     In wallet (wallets (db w)) ->
     Wallet.uuid wallet = wallet_uuid ->
     (0 <= Wallet.balance wallet + n <= BIGINT_MAX ->
      CreateDepositView_post wallet_uuid data_amount w =
        (Return {| Http.status := 201;
                   Http.data :=
                     Http.Deposited wallet_uuid n (Wallet.balance wallet + n) |},
         exec (deposit_to_wallet wallet_uuid n) w))
     /\
     (BIGINT_MAX < Wallet.balance wallet + n ->
      CreateDepositView_post wallet_uuid data_amount w = (Raise DataError, w))).
Proof.
  split; [|split; [|split]].
  - intros n Ha Hle.
    rewrite (deposit_view_raised wallet_uuid data_amount n _ w Ha
               (deposit_rejected wallet_uuid n w Hle)).
    reflexivity.
  - intros Ha. unfold CreateDepositView_post. rewrite Ha. reflexivity.
  - intros n Ha Hpos Hnone.
    rewrite (deposit_view_raised wallet_uuid data_amount n _ w Ha
               (deposit_missing wallet_uuid n w Hpos Hnone)).
    reflexivity.
  - intros n wallet Ha Hpos Hid Huuid Hin Hu.
    destruct (in_split _ _ Hin) as (l1 & l2 & Hsplit). split.
    + intros Hfit. apply fits_spec in Hfit.
      now apply (deposit_view_found wallet_uuid data_amount n w l1 wallet l2).
    + intros Hout.
      rewrite (deposit_view_raised wallet_uuid data_amount n _ w Ha
                 (deposit_refused wallet_uuid n w l1 l2 wallet Hpos Huuid
                    Hsplit Hu (proj2 (fits_false _) (or_intror Hout)))).
      reflexivity.
Qed.

Lemma CreateDepositView_post_responses_witness :
  let w := Scenarios.w1500 in
  (amount_of None = Integer 0 /\ 0 <= 0 /\
   CreateDepositView_post "a" None w =
     (Return {| Http.status := 400;
                Http.data := Http.Error "Amount must be positive" |}, w))
  /\
  (amount_of (Some Unordered) = Unordered /\
   CreateDepositView_post "a" (Some Unordered) w = (Raise TypeError, w))
  /\
  (amount_of (Some (Integer 500)) = Integer 500 /\ 0 < 500 /\
   (forall r, In r (wallets (db w)) -> Wallet.uuid r <> "b"%string) /\
   CreateDepositView_post "b" (Some (Integer 500)) w =
     (Return {| Http.status := 404;
                Http.data := Http.Error "wallet not found" |}, w))
  /\
  (NoDup (map Wallet.id (wallets (db w))) /\
   NoDup (map Wallet.uuid (wallets (db w))) /\
   In Scenarios.wallet_a (wallets (db w)) /\
   0 <= Wallet.balance Scenarios.wallet_a + 500 <= BIGINT_MAX /\
   CreateDepositView_post "a" (Some (Integer 500)) w =
     (Return {| Http.status := 201;
                Http.data := Http.Deposited "a" 500 2000 |},
      exec (deposit_to_wallet "a" 500) w) /\
   BIGINT_MAX < Wallet.balance Scenarios.wallet_a + 9223372036854774308 /\
   CreateDepositView_post "a" (Some (Integer 9223372036854774308)) w =
     (Raise DataError, w)).
Proof.
  intros w.
  assert (Hnone : forall r, In r (wallets (db w)) -> Wallet.uuid r <> "b"%string).
  { intros r [<- | []]. discriminate. }
  assert (Hid : NoDup (map Wallet.id (wallets (db w)))) by nodup_list.
  assert (Huuid : NoDup (map Wallet.uuid (wallets (db w)))) by nodup_list.
  assert (Hin : In Scenarios.wallet_a (wallets (db w))) by (left; reflexivity).
  assert (Hfit : 0 <= Wallet.balance Scenarios.wallet_a + 500 <= BIGINT_MAX)
    by (vm_compute; split; discriminate).
  assert (Hout : BIGINT_MAX
                 < Wallet.balance Scenarios.wallet_a + 9223372036854774308)
    by reflexivity.
  split; [|split; [|split]].
  - split; [reflexivity|]. split; [lia|].
    apply (proj1 (CreateDepositView_post_responses "a" None w) 0);
      [reflexivity | lia].
  - split; [reflexivity|].
    exact (proj1 (proj2 (CreateDepositView_post_responses "a" (Some Unordered) w))
             eq_refl).
  - split; [reflexivity|]. split; [lia|]. split; [exact Hnone|].
    apply (proj1 (proj2 (proj2
             (CreateDepositView_post_responses "b" (Some (Integer 500)) w)))
             500); [reflexivity | lia | exact Hnone].
  - repeat (split; [assumption|]). split.
    + exact (proj1 (proj2 (proj2 (proj2
               (CreateDepositView_post_responses "a" (Some (Integer 500)) w)))
               500 Scenarios.wallet_a eq_refl ltac:(lia) Hid Huuid Hin eq_refl)
               Hfit).
    + split; [exact Hout|].
      exact (proj2 (proj2 (proj2 (proj2
               (CreateDepositView_post_responses "a"
                  (Some (Integer 9223372036854774308)) w)))
               9223372036854774308 Scenarios.wallet_a eq_refl eq_refl
               Hid Huuid Hin eq_refl)
               Hout).
Defined.

(** What the scheduling view makes of an exception of the service. *)
Lemma schedule_view_raised strptime strftime now now' u data_amount str e w :
  schedule_withdrawal_service strptime strftime now now' u
    (amount_of data_amount) str w = (Raise e, w) ->
  ScheduleWithdrawView_post strptime strftime now now' u data_amount str w =
    view_errors e w.
Proof.
  intros Hrun. unfold ScheduleWithdrawView_post, try_except, bind.
  now rewrite Hrun.
Qed.

(** X6.  The answers of [ScheduleWithdrawView.post], in the order in which
    the code decides them.  A missing, null or empty time, a time string
    the format does not fit and a time before the clock are answered 400
    with the service's messages, whatever the amount; a missing amount
    counts as 0, and an integer amount that is zero or negative, or a time
    that is not after the clock of [create_withdraw_request], is answered
    400 with that function's messages; a uuid no wallet carries is
    answered 404.  A sound request for an existing wallet is answered 201
    with the wallet's uuid, the amount, the rendered time and the status
    pending, and leaves the world [create_withdraw_request] leaves, when
    the amount is one the column holds.  The view lets three errors
    through: the exception of the parsing of the time when that is not a
    [ValueError] (nor the wallet's [DoesNotExist]), [TypeError] for an
    amount that is not ordered against 0, null among them, once the time is
    accepted, and the store's error for an amount above what the column
    holds.  Except on 201 the world is left as it was. *)
Theorem ScheduleWithdrawView_post_responses
  (strptime : string -> Result Z) (strftime : Z -> string) (now now' : Z)
  (wallet_uuid : string) (data_amount : option Value)
  (data_scheduled_for : option string) (w : World) :
  let post :=
    ScheduleWithdrawView_post strptime strftime now now' wallet_uuid
      data_amount data_scheduled_for w in
  let bad_request (msg : string) :=
    (Return {| Http.status := 400; Http.data := Http.Error msg |}, w) in
  (data_scheduled_for = None \/ data_scheduled_for = Some EmptyString ->
   post = bad_request "time is required (format: HH:MM:SS or HH:MM)"%string)
  /\
  (forall str e,
     data_scheduled_for = Some str -> str <> EmptyString ->
     strptime str = Raise e ->
     ((exists msg, e = ValueError msg) ->
      post = bad_request "Invalid datetime format. Use YYYY-MM-DD HH:MM:SS"%string)
     /\
     ((forall msg, e <> ValueError msg) -> e <> DoesNotExist ->
      post = (Raise e, w)))
  /\
  (forall str t,
     data_scheduled_for = Some str -> str <> EmptyString ->
     strptime str = Return t ->
     (t < now -> post = bad_request "Scheduled time cannot be in the past"%string)
     /\
     (now <= t -> amount_of data_amount = Unordered ->
      post = (Raise TypeError, w))
     /\
     (forall n,
        now <= t -> amount_of data_amount = Integer n ->
        (n <= 0 -> post = bad_request "Amount must be positive"%string)
        /\
        (0 < n -> t <= now' ->
         post = bad_request "Scheduled time must be in the future"%string)
        /\
        (0 < n -> now' < t ->
         (forall r, In r (wallets (db w)) -> Wallet.uuid r <> wallet_uuid) ->
         post = (Return {| Http.status := 404;
                           Http.data := Http.Error "wallet not found" |}, w))
        /\
        (forall wallet,
           0 < n -> now' < t ->
           NoDup (map Wallet.id (wallets (db w))) ->
           NoDup (map Wallet.uuid (wallets (db w))) ->
           In wallet (wallets (db w)) ->
           Wallet.uuid wallet = wallet_uuid ->
           (n <= BIGINT_MAX ->
            post =
              (Return {| Http.status := 201;
                         Http.data :=
                           Http.Accepted
                             {| Scheduled.wallet_uuid := wallet_uuid;
                                Scheduled.amount := n;
                                Scheduled.scheduled_for := strftime t;
                                Scheduled.status := PENDING |} |},
               exec (create_withdraw_request now' wallet_uuid n t) w))
           /\
           (BIGINT_MAX < n -> post = (Raise DataError, w))))).
Proof.
  intros post bad_request. subst post bad_request.
  assert (Hview : forall e,
            schedule_withdrawal_service strptime strftime now now' wallet_uuid
              (amount_of data_amount) data_scheduled_for w = (Raise e, w) ->
            ScheduleWithdrawView_post strptime strftime now now' wallet_uuid
              data_amount data_scheduled_for w = view_errors e w).
  { intros e. apply schedule_view_raised. }
  split; [|split].
  - intros Hb. apply is_blank_cases in Hb.
    rewrite (Hview (ValueError time_required_message)); [reflexivity|].
    unfold schedule_withdrawal_service. now rewrite Hb.
  - intros str e -> Hne Hp.
    assert (Eb : is_blank (Some str) = false)
      by (destruct str; [contradiction | reflexivity]).
    split.
    + intros (msg & ->).
      rewrite (Hview (ValueError invalid_format_message)); [reflexivity|].
      unfold schedule_withdrawal_service. now rewrite Eb, Hp.
    + intros Hnv Hnd. rewrite (Hview e).
      * destruct e; try reflexivity; [now destruct (Hnv msg) | contradiction].
      * unfold schedule_withdrawal_service. rewrite Eb, Hp.
        destruct e; try reflexivity. now destruct (Hnv msg).
  - intros str t -> Hne Hp.
    assert (Eb : is_blank (Some str) = false)
      by (destruct str; [contradiction | reflexivity]).
    split; [|split].
    + intros Hlt.
      rewrite (Hview (ValueError in_the_past_message)); [reflexivity|].
      unfold schedule_withdrawal_service. rewrite Eb, Hp.
      apply Z.ltb_lt in Hlt. now rewrite Hlt.
    + intros Hge Ha. rewrite (Hview TypeError); [reflexivity|].
      rewrite (service_reaches_request strptime strftime now now' wallet_uuid
                 _ str t w Eb Hp Hge).
      now rewrite Ha.
    + intros n Hge Ha.
      assert (Hreach := service_reaches_request strptime strftime now now'
                          wallet_uuid (amount_of data_amount) str t w Eb Hp Hge).
      rewrite Ha in Hreach. unfold compared in Hreach.
      split; [|split; [|split]].
      * intros Hle. rewrite (Hview (ValueError "Amount must be positive"%string));
          [reflexivity|].
        rewrite Ha, Hreach. unfold bind.
        now rewrite (schedule_bad_amount now' wallet_uuid n t w).
      * intros Hpos Hpast.
        rewrite (Hview (ValueError "Scheduled time must be in the future"%string));
          [reflexivity|].
        rewrite Ha, Hreach. unfold bind.
        now rewrite (schedule_bad_time now' wallet_uuid n t w).
      * intros Hpos Hfut Hnone. rewrite (Hview DoesNotExist); [reflexivity|].
        rewrite Ha, Hreach. unfold bind.
        now rewrite (schedule_missing now' wallet_uuid n t w).
      * intros wallet Hpos Hfut Hid Huuid Hin Hu.
        destruct (in_split _ _ Hin) as (l1 & l2 & Hsplit). split.
        -- intros Hmax.
           pose proof (schedule_found now' wallet_uuid n t w l1 l2 wallet
                         Hpos Hfut Huuid Hsplit Hu Hmax) as Hrun.
           unfold ScheduleWithdrawView_post, try_except, exec.
           rewrite Ha. unfold bind at 1. rewrite Hreach.
           unfold bind at 1. rewrite Hrun.
           unfold bind. cbn [new_withdrawal ScheduledWithdrawal.wallet].
           rewrite (Wallet_get_by_id_found _ l1 wallet l2);
             [|exact Hid|exact Hsplit].
           cbn. now rewrite Hu.
        -- intros Hmax. rewrite (Hview DataError); [reflexivity|].
           rewrite Ha, Hreach. unfold bind.
           now rewrite (schedule_refused now' wallet_uuid n t w l1 l2 wallet).
Qed.

Lemma ScheduleWithdrawView_post_responses_witness :
  let w := Scenarios.w1500 in
  let post := ScheduleWithdrawView_post Formats.strptime Formats.strftime 5 6 in
  let sent := Some "1970-01-01 03:31:30"%string in
  (post "a"%string (Some Unordered) None w =
     (Return {| Http.status := 400;
                Http.data :=
                  Http.Error "time is required (format: HH:MM:SS or HH:MM)" |},
      w))
  /\
  ("1970-01-01 03:31:30"%string <> EmptyString /\
   Formats.strptime "1970-01-01 03:31:30" = Return 90000000 /\
   5 <= 90000000 /\ 6 < 90000000 /\
   (amount_of (Some Unordered) = Unordered /\
    post "a"%string (Some Unordered) sent w = (Raise TypeError, w))
   /\
   (amount_of None = Integer 0 /\ 0 <= 0 /\
    post "a"%string None sent w =
      (Return {| Http.status := 400;
                 Http.data := Http.Error "Amount must be positive" |}, w))
   /\
   (NoDup (map Wallet.id (wallets (db w))) /\
    NoDup (map Wallet.uuid (wallets (db w))) /\
    In Scenarios.wallet_a (wallets (db w)) /\
    0 < 2000 /\ 2000 <= BIGINT_MAX /\
    post "a"%string (Some (Integer 2000)) sent w =
      (Return {| Http.status := 201;
                 Http.data :=
                   Http.Accepted
                     {| Scheduled.wallet_uuid := "a";
                        Scheduled.amount := 2000;
                        Scheduled.scheduled_for := "1970-01-01 03:31:30";
                        Scheduled.status := PENDING |} |},
       exec (create_withdraw_request 6 "a" 2000 90000000) w) /\
    BIGINT_MAX < 9223372036854775808 /\
    post "a"%string (Some (Integer 9223372036854775808)) sent w =
      (Raise DataError, w))).
Proof.
  intros w post sent.
  assert (Hid : NoDup (map Wallet.id (wallets (db w)))) by nodup_list.
  assert (Huuid : NoDup (map Wallet.uuid (wallets (db w)))) by nodup_list.
  assert (Hin : In Scenarios.wallet_a (wallets (db w))) by (left; reflexivity).
  assert (Hne : "1970-01-01 03:31:30"%string <> EmptyString) by discriminate.
  assert (Hmax : 2000 <= BIGINT_MAX) by discriminate.
  assert (Hout : BIGINT_MAX < 9223372036854775808) by reflexivity.
  split.
  - exact (proj1 (ScheduleWithdrawView_post_responses Formats.strptime
                    Formats.strftime 5 6 "a" (Some Unordered) None w)
             (or_introl eq_refl)).
  - split; [exact Hne|]. split; [reflexivity|]. split; [lia|]. split; [lia|].
    split; [|split].
    + split; [reflexivity|].
      exact (proj1 (proj2 (proj2 (proj2
               (ScheduleWithdrawView_post_responses Formats.strptime
                  Formats.strftime 5 6 "a" (Some Unordered) sent w))
               "1970-01-01 03:31:30"%string 90000000 eq_refl Hne eq_refl))
               ltac:(lia) eq_refl).
    + split; [reflexivity|]. split; [lia|].
      exact (proj1 (proj2 (proj2 (proj2 (proj2
               (ScheduleWithdrawView_post_responses Formats.strptime
                  Formats.strftime 5 6 "a" None sent w))
               "1970-01-01 03:31:30"%string 90000000 eq_refl Hne eq_refl))
               0 ltac:(lia) eq_refl) ltac:(lia)).
    + repeat (split; [assumption || lia|]). split.
      * exact (proj1 (proj2 (proj2 (proj2 (proj2 (proj2 (proj2 (proj2
                 (ScheduleWithdrawView_post_responses Formats.strptime
                    Formats.strftime 5 6 "a" (Some (Integer 2000)) sent w))
                 "1970-01-01 03:31:30"%string 90000000 eq_refl Hne eq_refl))
                 2000 ltac:(lia) eq_refl)))
                 Scenarios.wallet_a ltac:(lia) ltac:(lia) Hid Huuid Hin eq_refl)
                 Hmax).
      * split; [exact Hout|].
        exact (proj2 (proj2 (proj2 (proj2 (proj2 (proj2 (proj2 (proj2
                 (ScheduleWithdrawView_post_responses Formats.strptime
                    Formats.strftime 5 6 "a"
                    (Some (Integer 9223372036854775808)) sent w))
                 "1970-01-01 03:31:30"%string 90000000 eq_refl Hne eq_refl))
                 9223372036854775808 ltac:(lia) eq_refl)))
                 Scenarios.wallet_a eq_refl ltac:(lia) Hid Huuid Hin eq_refl)
                 Hout).
Defined.

(** ** More that holds between calls *)

Lemma wallet_ids_at l1 (x : Wallet.t) b l2 :
  map Wallet.id (l1 ++ Wallet.with_balance b x :: l2) =
  map Wallet.id (l1 ++ x :: l2).
Proof. now rewrite !map_app. Qed.

Lemma wellformed_empty : wellformed empty_store.
Proof. constructor; intros r []. Qed.

Lemma wellformed_failed s m1 wd m2 msg :
  wellformed s ->
  scheduled_withdrawals s = m1 ++ wd :: m2 ->
  wellformed {| wallets := wallets s;
                transactions := transactions s;
                scheduled_withdrawals := m1 ++ mark_failed msg wd :: m2 |}.
Proof.
  intros [F B P E Pw Ew] Hrows.
  assert (Hwd : In wd (scheduled_withdrawals s))
    by (rewrite Hrows; apply in_or_app; right; now left).
  constructor; store_simpl; try assumption.
  - intros r Hr. destruct (in_around _ _ _ wd _ Hr) as [-> | Hr'].
    + cbn. now apply Pw.
    + apply Pw. now rewrite Hrows.
  - intros r Hr. destruct (in_around _ _ _ wd _ Hr) as [-> | Hr'].
    + cbn. now apply Ew.
    + apply Ew. now rewrite Hrows.
Qed.

Lemma wellformed_completed s m1 wd m2 l1 wallet l2 :
  wellformed s ->
  scheduled_withdrawals s = m1 ++ wd :: m2 ->
  wallets s = l1 ++ wallet :: l2 ->
  ScheduledWithdrawal.amount wd <= Wallet.balance wallet ->
  wellformed
    {| wallets :=
         l1 ++ Wallet.with_balance
                 (Wallet.balance wallet - ScheduledWithdrawal.amount wd) wallet
            :: l2;
       transactions := transactions s ++ [withdraw_txn s wd];
       scheduled_withdrawals := m1 ++ mark_completed (withdraw_txn s wd) wd :: m2 |}.
Proof.
  intros [F B P E Pw Ew] Hrows Hws Hle.
  assert (Hwd : In wd (scheduled_withdrawals s))
    by (rewrite Hrows; apply in_or_app; right; now left).
  assert (Hwallet : In wallet (wallets s))
    by (rewrite Hws; apply in_or_app; right; now left).
  constructor; store_simpl; rewrite ?wallet_ids_at, <- ?Hws.
  - intros r Hr. destruct (in_around _ _ _ wallet _ Hr) as [-> | Hr'].
    + cbn. now apply F.
    + apply F. now rewrite Hws.
  - intros r Hr. destruct (in_around _ _ _ wallet _ Hr) as [-> | Hr'].
    + cbn. lia.
    + apply B. now rewrite Hws.
  - intros t Ht. apply in_app_or in Ht. destruct Ht as [Ht | [<- | []]].
    + now apply P.
    + cbn. now apply Pw.
  - intros t Ht. apply in_app_or in Ht. destruct Ht as [Ht | [<- | []]].
    + now apply E.
    + cbn. now apply Ew.
  - intros r Hr. destruct (in_around _ _ _ wd _ Hr) as [-> | Hr'].
    + cbn. now apply Pw.
    + apply Pw. now rewrite Hrows.
  - intros r Hr. destruct (in_around _ _ _ wd _ Hr) as [-> | Hr'].
    + cbn. now apply Ew.
    + apply Ew. now rewrite Hrows.
Qed.

Lemma wellformed_psw bank wid w :
  consistent (db w) -> wellformed (db w) ->
  wellformed (db (exec (process_single_withdrawal bank wid) w)).
Proof.
  intros H Hw.
  destruct (psw_cases bank wid w (withdrawal_ids _ (keys _ H))
              (wallet_ids _ (keys _ H)))
    as [-> | (m1 & wd & m2 & Hrows & Hid & Hst &
              [-> | (l1 & wallet & l2 & msg & Hws & Hwid & Hle & [-> | ->])])];
    store_simpl.
  - exact Hw.
  - now apply wellformed_failed.
  - now apply wellformed_completed.
  - now apply wellformed_failed.
Qed.

Lemma wellformed_claim now w :
  wellformed (db w) -> wellformed (db (exec (claim_due now) w)).
Proof.
  intros Hw. pose proof Hw as [F B P E Pw Ew].
  unfold exec. rewrite claim_due_run.
  destruct (due_ids now (db w)); [exact Hw|]. store_simpl.
  constructor; store_simpl; try assumption.
  - intros r' Hr'. apply in_update_rows in Hr'. destruct Hr' as (r & Hr & ->).
    destruct (is_due _ _ r); [cbn|]; now apply Pw.
  - intros r' Hr'. apply in_update_rows in Hr'. destruct Hr' as (r & Hr & ->).
    destruct (is_due _ _ r); [cbn|]; now apply Ew.
Qed.

Lemma wellformed_create_wallet u w :
  wellformed (db w) -> wellformed (db (exec (create_wallet u) w)).
Proof.
  intros Hw. pose proof Hw as [F B P E Pw Ew].
  unfold exec. rewrite create_wallet_run.
  destruct (existsb _ _); [exact Hw|]. store_simpl.
  constructor; store_simpl; try assumption.
  - intros r Hr. apply in_app_or in Hr. destruct Hr as [Hr | [<- | []]];
      [now apply F | reflexivity].
  - intros r Hr. apply in_app_or in Hr. destruct Hr as [Hr | [<- | []]];
      [now apply B | cbn; lia].
  - intros t Ht. rewrite map_app. apply in_or_app. left. now apply E.
  - intros r Hr. rewrite map_app. apply in_or_app. left. now apply Ew.
Qed.

Lemma wellformed_deposit u a w :
  consistent (db w) -> wellformed (db w) ->
  wellformed (db (exec (deposit_to_wallet u a) w)).
Proof.
  intros H Hw. pose proof Hw as [F B P E Pw Ew].
  pose proof (keys _ H) as [K1 K2 K3 K4]. unfold exec.
  destruct (Z_le_gt_dec a 0) as [Hle | Hgt].
  { now rewrite deposit_rejected. }
  destruct (wallet_uuid_cases u (wallets (db w)))
    as [(l1 & wallet & l2 & Hsplit & Hu) | Hnone].
  2:{ rewrite deposit_missing; [exact Hw | lia | exact Hnone]. }
  destruct (fits (Wallet.balance wallet + a)) eqn:Hfit.
  2:{ rewrite (deposit_refused u a w l1 l2 wallet) by (assumption || lia).
      exact Hw. }
  rewrite (deposit_found u a w l1 l2 wallet) by (assumption || lia).
  assert (Hwallet : In wallet (wallets (db w)))
    by (rewrite Hsplit; apply in_or_app; right; now left).
  store_simpl.
  constructor; store_simpl; rewrite ?wallet_ids_at, <- ?Hsplit; try assumption.
  - intros r Hr. destruct (in_around _ _ _ wallet _ Hr) as [-> | Hr'].
    + cbn. now apply F.
    + apply F. now rewrite Hsplit.
  - intros r Hr. destruct (in_around _ _ _ wallet _ Hr) as [-> | Hr'].
    + cbn. specialize (B wallet Hwallet). lia.
    + apply B. now rewrite Hsplit.
  - intros t Ht. apply in_app_or in Ht. destruct Ht as [Ht | [<- | []]].
    + now apply P.
    + cbn. lia.
  - intros t Ht. apply in_app_or in Ht. destruct Ht as [Ht | [<- | []]].
    + now apply E.
    + cbn. now apply in_map.
Qed.

Lemma wellformed_schedule now u a t w :
  consistent (db w) -> wellformed (db w) ->
  wellformed (db (exec (create_withdraw_request now u a t) w)).
Proof.
  intros H Hw. pose proof Hw as [F B P E Pw Ew].
  pose proof (keys _ H) as [K1 K2 K3 K4]. unfold exec.
  destruct (Z_le_gt_dec a 0) as [Hle | Hgt].
  { destruct (schedule_rejected now u a t w (or_introl Hle)) as (msg & ->).
    exact Hw. }
  destruct (Z_le_gt_dec t now) as [Hpast | Hfut].
  { destruct (schedule_rejected now u a t w (or_intror Hpast)) as (msg & ->).
    exact Hw. }
  destruct (wallet_uuid_cases u (wallets (db w)))
    as [(l1 & wallet & l2 & Hsplit & Hu) | Hnone].
  2:{ rewrite schedule_missing; [exact Hw | lia | lia | exact Hnone]. }
  destruct (Z_le_gt_dec a BIGINT_MAX) as [Hmax | Hmax].
  2:{ rewrite (schedule_refused now u a t w l1 l2 wallet) by (assumption || lia).
      exact Hw. }
  rewrite (schedule_found now u a t w l1 l2 wallet) by (assumption || lia).
  assert (Hwallet : In wallet (wallets (db w)))
    by (rewrite Hsplit; apply in_or_app; right; now left).
  store_simpl.
  constructor; store_simpl; try assumption.
  - intros r Hr. apply in_app_or in Hr. destruct Hr as [Hr | [<- | []]].
    + now apply Pw.
    + cbn. lia.
  - intros r Hr. apply in_app_or in Hr. destruct Hr as [Hr | [<- | []]].
    + now apply Ew.
    + cbn. now apply in_map.
Qed.

Lemma sound_process_each bank ids w :
  consistent (db w) -> wellformed (db w) ->
  wellformed (db (process_each bank ids w)).
Proof.
  revert w. induction ids as [|i ids IH]; intros w H Hw; [exact Hw|].
  cbn. apply IH; [now apply consistent_psw | now apply wellformed_psw].
Qed.

Lemma wellformed_run_op o w :
  consistent (db w) -> wellformed (db w) -> wellformed (db (run_op o w)).
Proof.
  intros H Hw. destruct o; cbn [run_op].
  - now apply wellformed_create_wallet.
  - now apply wellformed_deposit.
  - now apply wellformed_schedule.
  - rewrite sweep_run. apply sound_process_each.
    + now apply consistent_claim.
    + now apply wellformed_claim.
Qed.

Lemma wellformed_run_ops ops w :
  consistent (db w) -> wellformed (db w) -> wellformed (db (run_ops ops w)).
Proof.
  revert w. induction ops as [|o ops IH]; intros w H Hw; [exact Hw|].
  cbn. apply IH; [now apply consistent_run_op | now apply wellformed_run_op].
Qed.

Lemma wellformed_history ops : wellformed (db (run_ops ops empty_world)).
Proof.
  apply wellformed_run_ops; [apply consistent_empty | apply wellformed_empty].
Qed.

(** ** The life of a withdrawal row *)

Lemma follows_refl r : follows r r.
Proof. unfold follows. repeat split; auto. Qed.

Lemma follows_trans r1 r2 r3 : follows r1 r2 -> follows r2 r3 -> follows r1 r3.
Proof.
  unfold follows.
  intros (A1 & A2 & A3 & A4 & A5 & A6) (B1 & B2 & B3 & B4 & B5 & B6).
  repeat split; try congruence.
  - intros Ht. specialize (A5 Ht). subst r2. auto.
  - auto.
Qed.

Lemma fetch_processing_none wid s :
  fetch_processing wid s = None ->
  forall r, In r (scheduled_withdrawals s) ->
            ScheduledWithdrawal.id r = wid ->
            ScheduledWithdrawal.status r <> PROCESSING.
Proof.
  unfold fetch_processing. intros H r Hr Hid Hst.
  assert (Hin : In r (filter
                        (fun r => (ScheduledWithdrawal.id r =? wid)
                                  && ScheduledWithdrawal.status_eqb
                                       (ScheduledWithdrawal.status r) PROCESSING)
                        (scheduled_withdrawals s))).
  { apply filter_In. split; [exact Hr|]. now rewrite Hid, Z.eqb_refl, Hst. }
  destruct (filter _ _); [contradiction | discriminate].
Qed.

Lemma fetch_processing_absent wid s :
  (forall r, In r (scheduled_withdrawals s) ->
             ScheduledWithdrawal.id r = wid ->
             ScheduledWithdrawal.status r <> PROCESSING) ->
  fetch_processing wid s = None.
Proof.
  intros H. destruct (fetch_processing wid s) as [wd|] eqn:E; [|reflexivity].
  apply fetch_processing_some in E. destruct E as (Hin & Hid & Hst).
  exfalso. exact (H wd Hin Hid Hst).
Qed.

(** What one execution makes of the withdrawals: nothing when no row with
    that key is being processed, and otherwise that one row, with unique
    keys, becomes terminal in place. *)
Lemma psw_rows bank wid w :
  NoDup (map ScheduledWithdrawal.id (scheduled_withdrawals (db w))) ->
  NoDup (map Wallet.id (wallets (db w))) ->
  (fetch_processing wid (db w) = None /\
   exec (process_single_withdrawal bank wid) w = w)
  \/ exists m1 wd m2 wd',
       scheduled_withdrawals (db w) = m1 ++ wd :: m2 /\
       scheduled_withdrawals (db (exec (process_single_withdrawal bank wid) w))
         = m1 ++ wd' :: m2 /\
       ScheduledWithdrawal.id wd = wid /\
       ScheduledWithdrawal.status wd = PROCESSING /\
       terminal wd' /\ follows wd wd'.
Proof.
  intros Hnd Hndw.
  destruct (fetch_processing wid (db w)) as [wd|] eqn:Ef.
  2:{ left. split; [reflexivity|]. unfold exec. now rewrite psw_not_found. }
  right. destruct (fetch_processing_some _ _ _ Ef) as (Hin & Hid & Hst).
  destruct (in_split _ _ Hin) as (m1 & m2 & Hrows).
  assert (Hfail : forall msg, terminal (mark_failed msg wd) /\
                              follows wd (mark_failed msg wd)).
  { intros msg. split; [right; reflexivity|]. unfold follows, terminal.
    repeat split; cbn; try discriminate.
    intros [H | H]; congruence. }
  assert (Hdone : forall tx, terminal (mark_completed tx wd) /\
                             follows wd (mark_completed tx wd)).
  { intros tx. split; [left; reflexivity|]. unfold follows, terminal.
    repeat split; cbn; try discriminate.
    intros [H | H]; congruence. }
  destruct (debit_cases wd (wallets (db w)))
    as [Hno | (l1 & wallet & l2 & Hws & Hwid & Hle)].
  - exists m1, wd, m2, (mark_failed (Some insufficient_message) wd).
    unfold exec. rewrite (psw_insufficient bank wid w m1 wd m2) by assumption.
    store_simpl. repeat (split; [assumption || reflexivity|]). apply Hfail.
  - unfold exec.
    rewrite (psw_settled bank wid w m1 wd m2 l1 wallet l2) by assumption.
    cbn [snd]. destruct (fst _).
    + exists m1, wd, m2, (mark_completed (withdraw_txn (db w) wd) wd).
      store_simpl. repeat (split; [assumption || reflexivity|]). apply Hdone.
    + eexists m1, wd, m2, _.
      store_simpl. repeat (split; [assumption || reflexivity|]). apply Hfail.
Qed.

Lemma follows_psw bank wid w r :
  consistent (db w) ->
  In r (scheduled_withdrawals (db w)) ->
  exists r',
    In r' (scheduled_withdrawals (db (exec (process_single_withdrawal bank wid) w)))
    /\ follows r r'.
Proof.
  intros H Hr.
  destruct (psw_rows bank wid w (withdrawal_ids _ (keys _ H))
              (wallet_ids _ (keys _ H)))
    as [[_ ->] | (m1 & wd & m2 & wd' & Hrows & -> & Hid & Hst & Ht & Hf)].
  - exists r. split; [exact Hr | apply follows_refl].
  - rewrite Hrows in Hr.
    destruct (in_around _ _ _ wd' _ Hr) as [-> | Hr'].
    + exists wd'. split; [apply in_or_app; right; now left | exact Hf].
    + exists r. split; [exact Hr' | apply follows_refl].
Qed.

Lemma follows_process_each bank ids w r :
  consistent (db w) ->
  In r (scheduled_withdrawals (db w)) ->
  exists r', In r' (scheduled_withdrawals (db (process_each bank ids w)))
             /\ follows r r'.
Proof.
  revert w r. induction ids as [|i ids IH]; intros w r H Hr.
  - exists r. split; [exact Hr | apply follows_refl].
  - destruct (follows_psw bank i w r H Hr) as (r1 & Hr1 & Hf1).
    destruct (IH _ r1 (consistent_psw bank i w H) Hr1) as (r2 & Hr2 & Hf2).
    exists r2. split; [exact Hr2 | exact (follows_trans _ _ _ Hf1 Hf2)].
Qed.

(** The claiming block turns a due row into the same row in processing
    status and leaves the others alone. *)
Lemma claim_row now w r :
  In r (scheduled_withdrawals (db w)) ->
  In (if is_due (floor_to_minute now) (floor_to_minute now + MINUTE) r
      then ScheduledWithdrawal.with_status PROCESSING r else r)
     (scheduled_withdrawals (db (exec (claim_due now) w))).
Proof.
  intros Hr. unfold exec. rewrite claim_due_run.
  destruct (due_ids now (db w)) eqn:E; store_simpl.
  - destruct (is_due _ _ r) eqn:Ed; [|exact Hr].
    assert (Hin : In (ScheduledWithdrawal.id r) (due_ids now (db w))).
    { unfold due_ids. apply in_map. apply filter_In. now split. }
    rewrite E in Hin. contradiction.
  - apply in_update_rows. exists r. now split.
Qed.

Lemma follows_claimed lo hi r :
  follows r (if is_due lo hi r
             then ScheduledWithdrawal.with_status PROCESSING r else r).
Proof.
  destruct (is_due lo hi r) eqn:E; [|apply follows_refl].
  apply is_due_spec in E. destruct E as [Hst _].
  unfold follows, terminal. repeat split; cbn; try discriminate.
  intros [H | H]; congruence.
Qed.

Lemma follows_run_op o w r :
  consistent (db w) ->
  In r (scheduled_withdrawals (db w)) ->
  exists r', In r' (scheduled_withdrawals (db (run_op o w))) /\ follows r r'.
Proof.
  intros H Hr. destruct o; cbn [run_op].
  - exists r. rewrite stays_create_wallet. split; [exact Hr | apply follows_refl].
  - exists r. rewrite stays_deposit. split; [exact Hr | apply follows_refl].
  - exists r. split; [now apply stays_schedule | apply follows_refl].
  - rewrite sweep_run.
    destruct (follows_process_each bank (due_ids now (db w)) _ _
                (consistent_claim now w H) (claim_row now w r Hr))
      as (r' & Hr' & Hf).
    exists r'. split; [exact Hr'|].
    exact (follows_trans _ _ _ (follows_claimed _ _ r) Hf).
Qed.

Lemma follows_run_ops ops w r :
  consistent (db w) ->
  In r (scheduled_withdrawals (db w)) ->
  exists r', In r' (scheduled_withdrawals (db (run_ops ops w))) /\ follows r r'.
Proof.
  revert w r. induction ops as [|o ops IH]; intros w r H Hr.
  - exists r. split; [exact Hr | apply follows_refl].
  - destruct (follows_run_op o w r H Hr) as (r1 & Hr1 & Hf1).
    destruct (IH _ r1 (consistent_run_op o w H) Hr1) as (r2 & Hr2 & Hf2).
    exists r2. split; [exact Hr2 | exact (follows_trans _ _ _ Hf1 Hf2)].
Qed.

Lemma process_each_cons bank i ids w :
  process_each bank (i :: ids) w =
  process_each bank ids (exec (process_single_withdrawal bank i) w).
Proof. reflexivity. Qed.

Lemma schedule_rows_status now u a t w x :
  In x (scheduled_withdrawals (db (exec (create_withdraw_request now u a t) w))) ->
  In x (scheduled_withdrawals (db w)) \/ ScheduledWithdrawal.status x = PENDING.
Proof.
  unfold exec.
  cbv [create_withdraw_request atomic bind Wallet_get_by_uuid get_db].
  destruct (a <=? 0); [now left|]. destruct (t <=? now); [now left|].
  destruct (filter _ _) as [|r [|y l]]; try (now left).
  cbv [ret ScheduledWithdrawal_create bind get_db put_db raise].
  destruct (negb (fits _)); [now left|]. store_simpl.
  intros H. apply in_app_or in H. destruct H as [H | [<- | []]]; [now left|].
  now right.
Qed.

(** Handing over every id that is being processed leaves none behind. *)
Lemma process_each_quiescent bank ids w :
  consistent (db w) ->
  (forall r, In r (scheduled_withdrawals (db w)) ->
             ScheduledWithdrawal.status r = PROCESSING ->
             In (ScheduledWithdrawal.id r) ids) ->
  quiescent (db (process_each bank ids w)).
Proof.
  revert w. induction ids as [|i ids IH]; intros w H Hall.
  - intros r Hr Hst. exact (Hall r Hr Hst).
  - rewrite process_each_cons. apply IH; [now apply consistent_psw|].
    intros r' Hr' Hst'.
    destruct (psw_rows bank i w (withdrawal_ids _ (keys _ H))
                (wallet_ids _ (keys _ H)))
      as [[Hnone Heq] | (m1 & wd & m2 & wd' & Hrows & Hrows' & Hid & Hst & Ht & Hf)].
    + rewrite Heq in Hr'. destruct (Hall r' Hr' Hst') as [Hi | Hin]; [|exact Hin].
      exfalso. exact (fetch_processing_none i (db w) Hnone r' Hr' (eq_sym Hi) Hst').
    + rewrite Hrows' in Hr'.
      destruct (in_around _ _ _ wd _ Hr') as [-> | Hr].
      * destruct Ht as [Ht | Ht]; congruence.
      * rewrite <- Hrows in Hr.
        destruct (Hall r' Hr Hst') as [Hi | Hin]; [|exact Hin].
        exfalso.
        assert (r' = wd).
        { apply (key_injective ScheduledWithdrawal.id
                   (scheduled_withdrawals (db w)));
            [exact (withdrawal_ids _ (keys _ H)) | exact Hr | | congruence].
          rewrite Hrows. apply in_or_app. right. now left. }
        subst r'.
        assert (Hnd' : NoDup (map ScheduledWithdrawal.id (m1 ++ wd' :: m2))).
        { pose proof (withdrawal_ids _ (keys _ H)) as K. rewrite Hrows in K.
          destruct Hf as (Hid' & _). rewrite map_app in *. cbn in *.
          now rewrite Hid'. }
        assert (wd = wd').
        { apply (key_injective ScheduledWithdrawal.id (m1 ++ wd' :: m2));
            [exact Hnd' | exact Hr' | apply in_or_app; right; now left|].
          destruct Hf as (Hid' & _). congruence. }
        subst wd'. destruct Ht as [Ht | Ht]; congruence.
Qed.

Lemma quiescent_sweep bank now w :
  consistent (db w) -> quiescent (db w) ->
  quiescent (db (exec (process_scheduled_withdrawals bank now) w)).
Proof.
  intros H Hq. rewrite sweep_run.
  apply process_each_quiescent; [now apply consistent_claim|].
  intros r' Hr' Hst'. unfold exec in Hr'. rewrite claim_due_run in Hr'.
  destruct (due_ids now (db w)) eqn:E.
  - exfalso. exact (Hq r' Hr' Hst').
  - rewrite <- E. store_simpl. revert Hr'. store_simpl. intros Hr'.
    apply in_update_rows in Hr'. destruct Hr' as (r & Hr & ->).
    destruct (is_due _ _ r) eqn:Ed.
    + unfold due_ids. cbn [ScheduledWithdrawal.with_status ScheduledWithdrawal.id].
      apply in_map_iff. exists r. split; [reflexivity|].
      apply filter_In. now split.
    + exfalso. exact (Hq r Hr Hst').
Qed.

Lemma quiescent_run_op o w :
  consistent (db w) -> quiescent (db w) -> quiescent (db (run_op o w)).
Proof.
  intros H Hq. destruct o; cbn [run_op].
  - unfold quiescent. now rewrite stays_create_wallet.
  - unfold quiescent. now rewrite stays_deposit.
  - intros r Hr. apply schedule_rows_status in Hr.
    destruct Hr as [Hr | Hst]; [now apply Hq | congruence].
  - now apply quiescent_sweep.
Qed.

Lemma quiescent_history ops : quiescent (db (run_ops ops empty_world)).
Proof.
  assert (G : forall ops w, consistent (db w) -> quiescent (db w) ->
                            quiescent (db (run_ops ops w))).
  { clear ops. induction ops as [|o ops IH]; intros w H Hq; [exact Hq|].
    cbn. apply IH; [now apply consistent_run_op | now apply quiescent_run_op]. }
  apply G; [apply consistent_empty | intros r []].
Qed.

Lemma consistent_history ops : consistent (db (run_ops ops empty_world)).
Proof. apply consistent_run_ops, consistent_empty. Qed.

(** A sweep brings every row it finds due to a terminal status. *)
Lemma sweep_settles bank now w r :
  consistent (db w) -> quiescent (db w) ->
  In r (scheduled_withdrawals (db w)) ->
  is_due (floor_to_minute now) (floor_to_minute now + MINUTE) r = true ->
  exists r',
    In r' (scheduled_withdrawals
             (db (exec (process_scheduled_withdrawals bank now) w))) /\
    follows r r' /\ terminal r'.
Proof.
  intros H Hq Hr Hdue.
  pose proof (claim_row now w r Hr) as Hc. rewrite Hdue in Hc.
  pose proof (quiescent_sweep bank now w H Hq) as Hq'.
  rewrite sweep_run in *.
  destruct (follows_process_each bank (due_ids now (db w)) _ _
              (consistent_claim now w H) Hc) as (r' & Hr' & Hf).
  exists r'. split; [exact Hr'|]. split.
  - pose proof (follows_claimed (floor_to_minute now)
                  (floor_to_minute now + MINUTE) r) as Hf0.
    rewrite Hdue in Hf0. exact (follows_trans _ _ _ Hf0 Hf).
  - destruct Hf as (_ & _ & _ & _ & _ & Hnp).
    specialize (Hnp ltac:(cbn; discriminate)).
    specialize (Hq' r' Hr'). unfold terminal.
    destruct (ScheduledWithdrawal.status r'); auto; contradiction.
Qed.

Lemma floor_to_minute_span (now : Z) :
  floor_to_minute now <= now < floor_to_minute now + MINUTE.
Proof.
  unfold floor_to_minute.
  assert (HM : 0 < MINUTE) by reflexivity.
  pose proof (Z.mul_div_le now MINUTE HM).
  pose proof (Z.mul_succ_div_gt now MINUTE HM). lia.
Qed.

Lemma same_minute (t now : Z) :
  floor_to_minute t = floor_to_minute now <->
  floor_to_minute now <= t < floor_to_minute now + MINUTE.
Proof.
  assert (HM : 0 < MINUTE) by reflexivity.
  split.
  - intros <-. apply floor_to_minute_span.
  - intros Hin. unfold floor_to_minute in *. f_equal.
    symmetry. apply (Z.div_unique_pos t MINUTE (now / MINUTE)
                       (t - MINUTE * (now / MINUTE))); lia.
Qed.

(** ** The extras on the life of a withdrawal *)

(** X7.  No call ever writes [freeze_amount]: after any history from the
    empty system, scheduled and unsettled withdrawals included, every
    wallet has freeze amount 0, so its available balance is its balance and
    the serializer shows the two as equal. *)
Theorem freeze_amount_is_never_set (ops : list Op) (wallet : Wallet.t) :
  In wallet (wallets (db (run_ops ops empty_world))) ->
  Wallet.freeze_amount wallet = 0 /\
  Wallet.available_balance wallet = Wallet.balance wallet /\
  WalletSerializer_data wallet =
    Http.WalletData (Wallet.uuid wallet) (Wallet.balance wallet) 0
      (Wallet.balance wallet).
Proof.
  intros Hin.
  pose proof (nothing_frozen _ (wellformed_history ops) wallet Hin) as Hf.
  unfold WalletSerializer_data, Wallet.available_balance. rewrite Hf.
  repeat split; try lia. f_equal. lia.
Qed.

Lemma freeze_amount_is_never_set_witness :
  In Scenarios.wallet_a
     (wallets (db (run_ops (Histories.funded 1000) empty_world))) /\
  Wallet.freeze_amount Scenarios.wallet_a = 0 /\
  Wallet.available_balance Scenarios.wallet_a = Wallet.balance Scenarios.wallet_a.
Proof.
  assert (Hin : In Scenarios.wallet_a
                  (wallets (db (run_ops (Histories.funded 1000) empty_world))))
    by (left; reflexivity).
  split; [exact Hin|].
  destruct (freeze_amount_is_never_set (Histories.funded 1000)
              Scenarios.wallet_a Hin) as (H1 & H2 & _).
  split; assumption.
Defined.

(** X8.  Executing the same withdrawal id a second time does nothing,
    whatever the provider would answer: after one run of
    [process_single_withdrawal] no row with that id is in processing
    status, so the next run returns at once with the world unchanged and
    without calling the provider. *)
Theorem second_execution_is_a_no_op (bank bank' : nat -> BankReply)
  (withdrawal_id : Z) (w : World) :
  NoDup (map ScheduledWithdrawal.id (scheduled_withdrawals (db w))) ->
  NoDup (map Wallet.id (wallets (db w))) ->
  process_single_withdrawal bank' withdrawal_id
    (exec (process_single_withdrawal bank withdrawal_id) w) =
    (Return tt, exec (process_single_withdrawal bank withdrawal_id) w).
Proof.
  intros Hnd Hndw. apply psw_not_found.
  destruct (psw_rows bank withdrawal_id w Hnd Hndw)
    as [[Hnone ->] | (m1 & wd & m2 & wd' & Hrows & Hrows' & Hid & Hst & Ht & Hf)];
    [exact Hnone|].
  apply fetch_processing_absent. intros r Hr Hidr Hstr.
  rewrite Hrows' in Hr.
  assert (Hnd' : NoDup (map ScheduledWithdrawal.id (m1 ++ wd' :: m2))).
  { rewrite Hrows in Hnd. destruct Hf as (Hid' & _).
    rewrite map_app in *. cbn in *. now rewrite Hid'. }
  assert (r = wd').
  { apply (key_injective ScheduledWithdrawal.id (m1 ++ wd' :: m2));
      [exact Hnd' | exact Hr | apply in_or_app; right; now left|].
    destruct Hf as (Hid' & _). congruence. }
  subst r. destruct Ht as [Ht | Ht]; congruence.
Qed.

Lemma second_execution_is_a_no_op_witness :
  let w := Scenarios.claimed 1000 in
  let bank := Scenarios.always Scenarios.timeout in
  let bank' := Scenarios.always Scenarios.success in
  NoDup (map ScheduledWithdrawal.id (scheduled_withdrawals (db w))) /\
  NoDup (map Wallet.id (wallets (db w))) /\
  process_single_withdrawal bank' 1 (exec (process_single_withdrawal bank 1) w) =
    (Return tt, exec (process_single_withdrawal bank 1) w).
Proof.
  intros w bank bank'.
  assert (Hnd : NoDup (map ScheduledWithdrawal.id (scheduled_withdrawals (db w))))
    by nodup_list.
  assert (Hndw : NoDup (map Wallet.id (wallets (db w)))) by nodup_list.
  split; [exact Hnd|]. split; [exact Hndw|].
  exact (second_execution_is_a_no_op bank bank' 1 w Hnd Hndw).
Defined.

(** X9.  A withdrawal row is never deleted and only moves forward: through
    any later history the row with its key is still there with the same
    wallet, amount and scheduled time; once completed or failed it never
    changes again, and once claimed it is never pending again. *)
Theorem withdrawal_rows_only_move_forward (history future : list Op)
  (r : ScheduledWithdrawal.t) :
  let w := run_ops history empty_world in
  In r (scheduled_withdrawals (db w)) ->
  exists r',
    In r' (scheduled_withdrawals (db (run_ops future w))) /\
    ScheduledWithdrawal.id r' = ScheduledWithdrawal.id r /\
    ScheduledWithdrawal.wallet r' = ScheduledWithdrawal.wallet r /\
    ScheduledWithdrawal.amount r' = ScheduledWithdrawal.amount r /\
    ScheduledWithdrawal.scheduled_for r' = ScheduledWithdrawal.scheduled_for r /\
    (terminal r -> r' = r) /\
    (ScheduledWithdrawal.status r <> PENDING ->
     ScheduledWithdrawal.status r' <> PENDING).
Proof.
  intros w Hr.
  destruct (follows_run_ops future w r (consistent_history history) Hr)
    as (r' & Hr' & Hf).
  exists r'. split; [exact Hr' | exact Hf].
Qed.

Lemma withdrawal_rows_only_move_forward_witness :
  let history := Histories.settled_with 1000 Scenarios.success in
  let r := Histories.completed_1 1000 in
  In r (scheduled_withdrawals (db (run_ops history empty_world))) /\
  terminal r /\
  In r (scheduled_withdrawals
          (db (run_ops Histories.late_sweeps (run_ops history empty_world)))).
Proof.
  intros history r.
  assert (Hr : In r (scheduled_withdrawals (db (run_ops history empty_world))))
    by (left; reflexivity).
  assert (Ht : terminal r) by (left; reflexivity).
  split; [exact Hr|]. split; [exact Ht|].
  destruct (withdrawal_rows_only_move_forward history Histories.late_sweeps r Hr)
    as (r' & Hr' & _ & _ & _ & _ & Hfinal & _).
  rewrite <- (Hfinal Ht). exact Hr'.
Defined.

(** X10.  Between calls no withdrawal is left in processing status: a
    sweep resolves, before it returns, every row it claimed. *)
Theorem no_withdrawal_left_processing (ops : list Op)
  (r : ScheduledWithdrawal.t) :
  In r (scheduled_withdrawals (db (run_ops ops empty_world))) ->
  ScheduledWithdrawal.status r <> PROCESSING.
Proof. apply quiescent_history. Qed.

Lemma no_withdrawal_left_processing_witness :
  let ops := Histories.settled_with 1000 Scenarios.timeout in
  let r := mark_failed
             (Some "Unexpected error: Read timed out. - withdrawal amount refunded"%string)
             (Scenarios.withdrawal_1 1000) in
  In r (scheduled_withdrawals (db (run_ops ops empty_world))) /\
  ScheduledWithdrawal.status r <> PROCESSING.
Proof.
  intros ops r.
  assert (Hr : In r (scheduled_withdrawals (db (run_ops ops empty_world))))
    by (left; reflexivity).
  split; [exact Hr|].
  exact (no_withdrawal_left_processing ops r Hr).
Defined.

(** ** Sweeps over the life of a withdrawal *)

Lemma rows_ids_psw bank wid w :
  consistent (db w) ->
  map ScheduledWithdrawal.id
    (scheduled_withdrawals (db (exec (process_single_withdrawal bank wid) w))) =
  map ScheduledWithdrawal.id (scheduled_withdrawals (db w)).
Proof.
  intros H.
  destruct (psw_rows bank wid w (withdrawal_ids _ (keys _ H))
              (wallet_ids _ (keys _ H)))
    as [[_ ->] | (m1 & wd & m2 & wd' & -> & -> & _ & _ & _ & Hf)];
    [reflexivity|].
  destruct Hf as (Hid & _). rewrite !map_app. cbn. now rewrite Hid.
Qed.

Lemma rows_ids_process_each bank ids w :
  consistent (db w) ->
  map ScheduledWithdrawal.id (scheduled_withdrawals (db (process_each bank ids w))) =
  map ScheduledWithdrawal.id (scheduled_withdrawals (db w)).
Proof.
  revert w. induction ids as [|i ids IH]; intros w H; [reflexivity|].
  rewrite process_each_cons, IH by now apply consistent_psw.
  now apply rows_ids_psw.
Qed.

Lemma rows_ids_claim now w :
  map ScheduledWithdrawal.id (scheduled_withdrawals (db (exec (claim_due now) w))) =
  map ScheduledWithdrawal.id (scheduled_withdrawals (db w)).
Proof.
  unfold exec. rewrite claim_due_run.
  destruct (due_ids now (db w)); [reflexivity|]. store_simpl.
  now apply map_update_rows.
Qed.

Lemma rows_ids_sweep bank now w :
  consistent (db w) ->
  map ScheduledWithdrawal.id
    (scheduled_withdrawals (db (exec (process_scheduled_withdrawals bank now) w))) =
  map ScheduledWithdrawal.id (scheduled_withdrawals (db w)).
Proof.
  intros H. rewrite sweep_run, rows_ids_process_each by now apply consistent_claim.
  apply rows_ids_claim.
Qed.

Lemma consistent_sweep bank now w :
  consistent (db w) ->
  consistent (db (exec (process_scheduled_withdrawals bank now) w)).
Proof. exact (consistent_run_op (Sweep bank now) w). Qed.

(** Where a row of the swept table comes from. *)
Lemma sweep_origin bank now w x :
  consistent (db w) -> quiescent (db w) ->
  In x (scheduled_withdrawals
          (db (exec (process_scheduled_withdrawals bank now) w))) ->
  exists r,
    In r (scheduled_withdrawals (db w)) /\ follows r x /\
    (is_due (floor_to_minute now) (floor_to_minute now + MINUTE) r = true ->
     terminal x).
Proof.
  intros H Hq Hx.
  pose proof (consistent_sweep bank now w H) as H'.
  assert (Hid : In (ScheduledWithdrawal.id x)
                  (map ScheduledWithdrawal.id (scheduled_withdrawals (db w)))).
  { rewrite <- (rows_ids_sweep bank now w H). now apply in_map. }
  apply in_map_iff in Hid. destruct Hid as (r & Hid & Hr).
  exists r. split; [exact Hr|].
  assert (Hsame : forall r', In r' (scheduled_withdrawals
                   (db (exec (process_scheduled_withdrawals bank now) w))) ->
                 follows r r' -> r' = x).
  { intros r' Hr' Hf.
    apply (key_injective ScheduledWithdrawal.id _ r' x
             (withdrawal_ids _ (keys _ H')) Hr' Hx).
    destruct Hf as (Hid' & _). congruence. }
  destruct (is_due (floor_to_minute now) (floor_to_minute now + MINUTE) r) eqn:Ed.
  - destruct (sweep_settles bank now w r H Hq Hr Ed) as (r' & Hr' & Hf & Ht).
    rewrite <- (Hsame r' Hr' Hf). now split.
  - pose proof (claim_row now w r Hr) as Hc. rewrite Ed in Hc.
    rewrite sweep_run in *.
    destruct (follows_process_each bank (due_ids now (db w)) _ r
                (consistent_claim now w H) Hc) as (r' & Hr' & Hf).
    rewrite <- (Hsame r' Hr' Hf). split; [exact Hf | discriminate].
Qed.

Lemma terminal_not_pending r :
  terminal r -> ScheduledWithdrawal.status r <> PENDING.
Proof. intros [H | H]; congruence. Qed.

Lemma not_pending_not_due lo hi r :
  ScheduledWithdrawal.status r <> PENDING -> is_due lo hi r = false.
Proof.
  intros Hst. destruct (is_due lo hi r) eqn:E; [|reflexivity].
  apply is_due_spec in E. tauto.
Qed.

Lemma due_id_row now s i :
  In i (due_ids now s) ->
  exists r, In r (scheduled_withdrawals s) /\ ScheduledWithdrawal.id r = i /\
            is_due (floor_to_minute now) (floor_to_minute now + MINUTE) r = true.
Proof.
  unfold due_ids. intros Hi. apply in_map_iff in Hi.
  destruct Hi as (r & Hid & Hr). apply filter_In in Hr.
  exists r. tauto.
Qed.

Lemma sweep_nothing_due bank now w :
  due_ids now (db w) = [] ->
  process_scheduled_withdrawals bank now w = (Return tt, w).
Proof.
  intros E. unfold process_scheduled_withdrawals, bind.
  now rewrite claim_due_run, E.
Qed.

(** After a sweep at [now] no row is due in the window of [now]. *)
Lemma nothing_due_after_sweep bank now w :
  consistent (db w) -> quiescent (db w) ->
  due_ids now (db (exec (process_scheduled_withdrawals bank now) w)) = [].
Proof.
  intros H Hq.
  destruct (due_ids now _) as [|i ids] eqn:E; [reflexivity|]. exfalso.
  destruct (due_id_row now
              (db (exec (process_scheduled_withdrawals bank now) w)) i)
    as (x & Hx & _ & Hdue); [rewrite E; now left|].
  destruct (sweep_origin bank now w x H Hq Hx) as (r & Hr & Hf & Ht).
  destruct (is_due (floor_to_minute now) (floor_to_minute now + MINUTE) r) eqn:Ed.
  - rewrite (not_pending_not_due _ _ x (terminal_not_pending x (Ht eq_refl)))
      in Hdue. discriminate.
  - apply is_due_spec in Hdue. destruct Hdue as (Hst & Hwin).
    destruct Hf as (_ & _ & _ & Hsf & _ & Hnp).
    destruct (ScheduledWithdrawal.status_eqb (ScheduledWithdrawal.status r) PENDING)
      eqn:Es.
    + assert (is_due (floor_to_minute now) (floor_to_minute now + MINUTE) r = true).
      { apply is_due_spec. rewrite <- Hsf. split; [|exact Hwin].
        destruct (ScheduledWithdrawal.status r); try discriminate; reflexivity. }
      congruence.
    + apply Hnp; [|exact Hst]. intros Hp. rewrite Hp in Es. discriminate.
Qed.



(** X12.  A withdrawal is collected by at most one sweep: once a sweep has
    collected an id, no sweep of any later history collects it again,
    whatever the clock shows then, so no later sweep executes it a second
    time. *)
Theorem collected_at_most_once (history future : list Op)
  (bank : nat -> BankReply) (now now' : Z) (i : Z) :
  let w := run_ops history empty_world in
  let w' := exec (process_scheduled_withdrawals bank now) w in
  In i (due_ids now (db w)) ->
  ~ In i (due_ids now' (db (run_ops future w'))).
Proof.
  intros w w' Hi Hagain.
  pose proof (consistent_history history) as H.
  pose proof (consistent_sweep bank now w H) as H'.
  pose proof (consistent_run_ops future w' H') as H''.
  destruct (due_id_row now _ i Hi) as (r & Hr & Hid & Hdue).
  destruct (sweep_settles bank now w r H (quiescent_history history) Hr Hdue)
    as (r' & Hr' & Hf & Ht).
  destruct (follows_run_ops future w' r' H' Hr') as (r'' & Hr'' & Hf').
  destruct (due_id_row now' _ i Hagain) as (x & Hx & Hidx & Hduex).
  assert (x = r'').
  { apply (key_injective ScheduledWithdrawal.id _ x r''
             (withdrawal_ids _ (keys _ H'')) Hx Hr'').
    destruct Hf as (E1 & _). destruct Hf' as (E2 & _). congruence. }
  subst x. destruct Hf' as (_ & _ & _ & _ & Hfinal & _).
  rewrite (Hfinal Ht) in Hduex.
  rewrite (not_pending_not_due _ _ r' (terminal_not_pending r' Ht)) in Hduex.
  discriminate.
Qed.

Lemma collected_at_most_once_witness :
  let history := Histories.funded 1000 in
  let w' := exec (process_scheduled_withdrawals
                    (Scenarios.always Scenarios.timeout) 61000000)
              (run_ops history empty_world) in
  In 1 (due_ids 61000000 (db (run_ops history empty_world))) /\
  ~ In 1 (due_ids 119000000 (db (run_ops [Deposit "a" 10] w'))).
Proof.
  intros history w'.
  assert (Hi : In 1 (due_ids 61000000 (db (run_ops history empty_world))))
    by (left; reflexivity).
  split; [exact Hi|].
  exact (collected_at_most_once history [Deposit "a"%string 10]
           (Scenarios.always Scenarios.timeout) 61000000 119000000 1 Hi).
Defined.

(** X13.  A sweep run again in the same minute finds nothing to do: it
    returns with the database as the first sweep left it and without a
    call to the provider, whatever the provider would have answered. *)
Theorem sweep_again_in_the_same_minute (history : list Op)
  (bank bank' : nat -> BankReply) (now now' : Z) :
  let w' := exec (process_scheduled_withdrawals bank now)
              (run_ops history empty_world) in
  floor_to_minute now' = floor_to_minute now ->
  process_scheduled_withdrawals bank' now' w' = (Return tt, w').
Proof.
  intros w' Hmin. apply sweep_nothing_due.
  replace (due_ids now' (db w')) with (due_ids now (db w'))
    by (unfold due_ids; now rewrite Hmin).
  exact (nothing_due_after_sweep bank now _ (consistent_history history)
           (quiescent_history history)).
Qed.

Lemma sweep_again_in_the_same_minute_witness :
  let w' := exec (process_scheduled_withdrawals
                    (Scenarios.always Scenarios.timeout) 61000000)
              (run_ops (Histories.funded 1000) empty_world) in
  floor_to_minute 119999999 = floor_to_minute 61000000 /\
  process_scheduled_withdrawals (Scenarios.always Scenarios.success) 119999999 w'
    = (Return tt, w').
Proof.
  intros w'.
  assert (Hmin : floor_to_minute 119999999 = floor_to_minute 61000000)
    by reflexivity.
  split; [exact Hmin|].
  exact (sweep_again_in_the_same_minute (Histories.funded 1000)
           (Scenarios.always Scenarios.timeout)
           (Scenarios.always Scenarios.success) 61000000 119999999 Hmin).
Defined.

(** ** What no call does *)

(** One execution, in any world: at most one call to the provider, and the
    ledger grows by at most one entry, a withdraw entry, and only when the
    provider was called. *)
Lemma psw_effect bank wid w :
  let w' := exec (process_single_withdrawal bank wid) w in
  (bank_calls w' = bank_calls w /\ transactions (db w') = transactions (db w))
  \/
  (bank_calls w' = S (bank_calls w) /\
   (transactions (db w') = transactions (db w) \/
    exists t, transactions (db w') = transactions (db w) ++ [t] /\
              Transaction.type t = WITHDRAW)).
Proof.
  unfold exec. cbv [process_single_withdrawal bind get_db].
  destruct (fetch_processing wid (db w)) as [wd|]; [|left; now split].
  rewrite debit_phase_run. cbv zeta.
  destruct (count_rows _ _ =? 0); cbn [negb]; [left; now split|].
  cbv [request_third_party_deposit]. store_simpl.
  destruct (settlement_outcome _) as [[] msg].
  - rewrite completion_phase_run. store_simpl. right. split; [reflexivity|].
    right. eexists. split; reflexivity.
  - rewrite compensation_phase_run. store_simpl. right. split; [reflexivity|].
    now left.
Qed.

Lemma process_each_effect bank ids w :
  exists more,
    transactions (db (process_each bank ids w)) = transactions (db w) ++ more /\
    Forall (fun t => Transaction.type t = WITHDRAW) more /\
    (bank_calls w + List.length more <= bank_calls (process_each bank ids w)
       <= bank_calls w + List.length ids)%nat.
Proof.
  revert w. induction ids as [|i ids IH]; intros w.
  - exists []. cbn. rewrite app_nil_r. repeat split; auto; lia.
  - rewrite process_each_cons.
    destruct (IH (exec (process_single_withdrawal bank i) w))
      as (more & Ht & Hall & Hcalls).
    destruct (psw_effect bank i w) as [[Hc Hl] | [Hc [Hl | (t & Hl & Hty)]]];
      cbv zeta in *; rewrite Ht, Hl; rewrite Hc in Hcalls.
    + exists more. repeat split; auto; cbn [List.length]; lia.
    + exists more. repeat split; auto; cbn [List.length]; lia.
    + exists (t :: more). rewrite <- app_assoc. repeat split; auto.
      * cbn [List.length]. lia.
      * cbn [List.length]. lia.
Qed.

Lemma claim_frame now w :
  transactions (db (exec (claim_due now) w)) = transactions (db w) /\
  bank_calls (exec (claim_due now) w) = bank_calls w.
Proof.
  unfold exec. rewrite claim_due_run.
  destruct (due_ids now (db w)); now split.
Qed.

Lemma create_wallet_frame u w :
  transactions (db (exec (create_wallet u) w)) = transactions (db w) /\
  bank_calls (exec (create_wallet u) w) = bank_calls w.
Proof.
  unfold exec. rewrite create_wallet_run. destruct (existsb _ _); now split.
Qed.

Lemma schedule_frame now u a t w :
  transactions (db (exec (create_withdraw_request now u a t) w)) =
    transactions (db w) /\
  bank_calls (exec (create_withdraw_request now u a t) w) = bank_calls w.
Proof.
  unfold exec.
  cbv [create_withdraw_request atomic bind Wallet_get_by_uuid get_db].
  destruct (a <=? 0); [now split|]. destruct (t <=? now); [now split|].
  destruct (filter _ _) as [|r [|y l]]; try (now split).
  cbv [ret ScheduledWithdrawal_create bind get_db put_db raise].
  destruct (negb (fits _)); now split.
Qed.

Lemma deposit_frame u a w :
  bank_calls (exec (deposit_to_wallet u a) w) = bank_calls w /\
  (transactions (db (exec (deposit_to_wallet u a) w)) = transactions (db w) \/
   exists t,
     transactions (db (exec (deposit_to_wallet u a) w)) =
       transactions (db w) ++ [t] /\
     Transaction.type t = DEPOSIT /\ Transaction.amount t = a /\ 0 < a).
Proof.
  unfold exec.
  cbv [deposit_to_wallet atomic bind Wallet_get_by_uuid get_db].
  destruct (a <=? 0) eqn:Ea; [split; [reflexivity | now left]|].
  destruct (filter _ _) as [|r [|y l]];
    try (split; [reflexivity | now left]).
  cbv [ret Wallet_save bind get_db put_db Transaction_create raise].
  destruct (negb (fits _)); [split; [reflexivity | now left]|].
  destruct (existsb _ _); store_simpl.
  - split; [reflexivity|]. right. eexists. split; [reflexivity|].
    cbn. repeat split. lia.
  - split; [reflexivity|]. right. eexists. split; [reflexivity|].
    cbn. repeat split. lia.
Qed.

Lemma sweep_effect bank now w :
  exists more,
    transactions (db (exec (process_scheduled_withdrawals bank now) w)) =
      transactions (db w) ++ more /\
    Forall (fun t => Transaction.type t = WITHDRAW) more /\
    (bank_calls w + List.length more
       <= bank_calls (exec (process_scheduled_withdrawals bank now) w)
       <= bank_calls w + List.length (due_ids now (db w)))%nat.
Proof.
  rewrite sweep_run.
  destruct (process_each_effect bank (due_ids now (db w)) (exec (claim_due now) w))
    as (more & Ht & Hall & Hcalls).
  destruct (claim_frame now w) as (Et & Ec). rewrite Et, Ec in *.
  exists more. auto.
Qed.

Lemma run_op_ledger o w :
  exists more, transactions (db (run_op o w)) = transactions (db w) ++ more.
Proof.
  destruct o; cbn [run_op].
  - exists []. rewrite app_nil_r. apply create_wallet_frame.
  - destruct (deposit_frame wallet_uuid amount w) as (_ & [E | (t & E & _)]).
    + exists []. now rewrite app_nil_r.
    + now exists [t].
  - exists []. rewrite app_nil_r. apply schedule_frame.
  - destruct (sweep_effect bank now w) as (more & E & _). now exists more.
Qed.

Lemma on_fetched_ledger {A} k (block : ScheduledWithdrawal.t -> M A) c :
  (forall wd w, exists more,
      transactions (db (exec (block wd) w)) = transactions (db w) ++ more) ->
  exists more,
    transactions (db (world (on_fetched k block c))) =
      transactions (db (world c)) ++ more.
Proof.
  intros Hb. unfold on_fetched.
  destruct (nth_error _ _) as [wd|]; [apply Hb|].
  exists []. now rewrite app_nil_r.
Qed.

Lemma run_event_ledger e c :
  exists more,
    transactions (db (world (run_event e c))) =
      transactions (db (world c)) ++ more.
Proof.
  destruct e; cbn [run_event on_world world].
  - exact (run_op_ledger (CreateWallet fresh_uuid) (world c)).
  - exact (run_op_ledger (Deposit wallet_uuid amount) (world c)).
  - exact (run_op_ledger (Schedule now wallet_uuid amount scheduled_for) (world c)).
  - exists []. rewrite app_nil_r. apply claim_frame.
  - exists []. rewrite app_nil_r. now destruct (fetch_processing _ _).
  - apply on_fetched_ledger. intros wd w. unfold exec.
    rewrite debit_phase_run. cbv zeta.
    exists []. rewrite app_nil_r. now destruct (_ =? 0).
  - apply on_fetched_ledger. intros wd w. unfold exec.
    rewrite completion_phase_run. store_simpl. now eexists.
  - apply on_fetched_ledger. intros wd w. unfold exec.
    rewrite compensation_phase_run. store_simpl.
    exists []. now rewrite app_nil_r.
Qed.

(** X14.  Only sweeps talk to the settlement provider.  Creating a wallet,
    a deposit and the scheduling of a withdrawal never call it; a sweep
    calls it at most once for each withdrawal it collected, and writes at
    most one ledger entry for each call, every one of type withdraw.  This
    holds in any state of the database. *)
Theorem provider_calls_and_entries (o : Op) (w : World) :
  match o with
  | Sweep bank now =>
      exists more,
        transactions (db (run_op o w)) = transactions (db w) ++ more /\
        Forall (fun t => Transaction.type t = WITHDRAW) more /\
        (bank_calls w + List.length more <= bank_calls (run_op o w)
           <= bank_calls w + List.length (due_ids now (db w)))%nat
  | _ => bank_calls (run_op o w) = bank_calls w
  end.
Proof.
  destruct o; cbn [run_op].
  - apply create_wallet_frame.
  - apply deposit_frame.
  - apply schedule_frame.
  - apply sweep_effect.
Qed.

(** X15.  The ledger is append-only.  Through any history of whole calls,
    and through any interleaving of calls and of the blocks of the
    execution engine, from any state, the transactions that were there
    are still there, unchanged and in the same order, followed by the new
    ones: no code path edits or deletes a transaction. *)
Theorem ledger_is_append_only (ops : list Op) (w : World)
  (events : list Event) (c : Config) :
  (exists more,
     transactions (db (run_ops ops w)) = transactions (db w) ++ more)
  /\
  (exists more,
     transactions (db (world (run_events events c))) =
       transactions (db (world c)) ++ more).
Proof.
  split.
  - revert w. induction ops as [|o ops IH]; intros w.
    + exists []. now rewrite app_nil_r.
    + change (run_ops (o :: ops) w) with (run_ops ops (run_op o w)).
      destruct (IH (run_op o w)) as (more2 & ->).
      destruct (run_op_ledger o w) as (more1 & ->).
      exists (more1 ++ more2). now rewrite app_assoc.
  - revert c. induction events as [|e events IH]; intros c.
    + exists []. now rewrite app_nil_r.
    + change (run_events (e :: events) c)
        with (run_events events (run_event e c)).
      destruct (IH (run_event e c)) as (more2 & ->).
      destruct (run_event_ledger e c) as (more1 & ->).
      exists (more1 ++ more2). now rewrite app_assoc.
Qed.

Lemma psw_refused bank wid w :
  consistent (db w) ->
  (forall n, fst (settlement_outcome (bank n)) = false) ->
  wallets (db (exec (process_single_withdrawal bank wid) w)) = wallets (db w) /\
  transactions (db (exec (process_single_withdrawal bank wid) w)) =
    transactions (db w).
Proof.
  intros H Hbank.
  pose proof (withdrawal_ids _ (keys _ H)) as Hnd.
  pose proof (wallet_ids _ (keys _ H)) as Hndw.
  destruct (fetch_processing wid (db w)) as [wd|] eqn:Ef.
  2:{ unfold exec. rewrite psw_not_found by assumption. now split. }
  destruct (fetch_processing_some _ _ _ Ef) as (Hin & Hid & Hst).
  destruct (in_split _ _ Hin) as (m1 & m2 & Hrows).
  destruct (debit_cases wd (wallets (db w)))
    as [Hno | (l1 & wallet & l2 & Hws & Hwid & Hle)]; unfold exec.
  - rewrite (psw_insufficient bank wid w m1 wd m2) by assumption. now split.
  - rewrite (psw_settled bank wid w m1 wd m2 l1 wallet l2) by assumption.
    rewrite Hbank. now split.
Qed.

Lemma process_each_refused bank ids w :
  consistent (db w) ->
  (forall n, fst (settlement_outcome (bank n)) = false) ->
  wallets (db (process_each bank ids w)) = wallets (db w) /\
  transactions (db (process_each bank ids w)) = transactions (db w).
Proof.
  intros H Hbank. revert w H. induction ids as [|i ids IH]; intros w H.
  - now split.
  - rewrite process_each_cons.
    destruct (IH _ (consistent_psw bank i w H)) as (-> & ->).
    now apply psw_refused.
Qed.

(** X16.  A sweep whose settlement calls all fail, by refusal or by an
    exception, moves no money: however many withdrawals it collects and
    debits, every debit is undone, so the wallet table and the ledger come
    out exactly as they went in. *)
Theorem failed_settlements_move_no_money (history : list Op)
  (bank : nat -> BankReply) (now : Z) :
  let w := run_ops history empty_world in
  let w' := exec (process_scheduled_withdrawals bank now) w in
  (forall n, fst (settlement_outcome (bank n)) = false) ->
  wallets (db w') = wallets (db w) /\
  transactions (db w') = transactions (db w).
Proof.
  intros w w' Hbank. subst w'. rewrite sweep_run.
  destruct (process_each_refused bank (due_ids now (db w))
              (exec (claim_due now) w)
              (consistent_claim now w (consistent_history history)) Hbank)
    as (-> & ->).
  split; [apply claim_wallets | apply claim_frame].
Qed.

Lemma failed_settlements_move_no_money_witness :
  let w := run_ops (Histories.funded 1000) empty_world in
  let bank := Scenarios.always Scenarios.timeout in
  let w' := exec (process_scheduled_withdrawals bank 61000000) w in
  (forall n, fst (settlement_outcome (bank n)) = false) /\
  due_ids 61000000 (db w) = [1] /\
  wallets (db w') = wallets (db w) /\
  transactions (db w') = transactions (db w).
Proof.
  intros w bank w'.
  assert (Hbank : forall n, fst (settlement_outcome (bank n)) = false)
    by (intros n; reflexivity).
  split; [exact Hbank|]. split; [reflexivity|].
  exact (failed_settlements_move_no_money (Histories.funded 1000) bank
           61000000 Hbank).
Defined.

(** X17.  The rows respect the schema after any history of whole calls:
    primary keys and wallet uuids are unique, every ledger entry and every
    withdrawal has a positive amount and refers to a wallet that exists,
    and every balance is at least zero. *)
Theorem rows_respect_the_schema (ops : list Op) :
  let s := db (run_ops ops empty_world) in
  NoDup (map Wallet.id (wallets s)) /\
  NoDup (map Wallet.uuid (wallets s)) /\
  NoDup (map Transaction.id (transactions s)) /\
  NoDup (map ScheduledWithdrawal.id (scheduled_withdrawals s)) /\
  (forall r, In r (wallets s) -> 0 <= Wallet.balance r) /\
  (forall t, In t (transactions s) ->
     0 < Transaction.amount t /\
     exists wallet, In wallet (wallets s) /\
                    Wallet.id wallet = Transaction.wallet t) /\
  (forall r, In r (scheduled_withdrawals s) ->
     0 < ScheduledWithdrawal.amount r /\
     exists wallet, In wallet (wallets s) /\
                    Wallet.id wallet = ScheduledWithdrawal.wallet r).
Proof.
  intros s.
  pose proof (keys _ (consistent_history ops)) as K.
  pose proof (wellformed_history ops) as Wf.
  repeat split.
  - apply K.
  - apply K.
  - apply K.
  - apply K.
  - intros r Hr. exact (solvent_wallets _ Wf r Hr).
  - exact (positive_entries _ Wf t H).
  - pose proof (entries_have_wallets _ Wf t H) as Hin.
    apply in_map_iff in Hin. destruct Hin as (x & Hid & Hx). now exists x.
  - exact (positive_withdrawals _ Wf r H).
  - pose proof (withdrawals_have_wallets _ Wf r H) as Hin.
    apply in_map_iff in Hin. destruct Hin as (x & Hid & Hx). now exists x.
Qed.

Lemma rows_respect_the_schema_witness :
  let s := db (run_ops (Histories.settled_with 1000 Scenarios.success)
                 empty_world) in
  In (Histories.completed_1 1000) (scheduled_withdrawals s) /\
  0 < ScheduledWithdrawal.amount (Histories.completed_1 1000) /\
  exists wallet, In wallet (wallets s) /\
                 Wallet.id wallet =
                   ScheduledWithdrawal.wallet (Histories.completed_1 1000).
Proof.
  intros s.
  assert (Hr : In (Histories.completed_1 1000) (scheduled_withdrawals s))
    by (left; reflexivity).
  split; [exact Hr|].
  destruct (rows_respect_the_schema
              (Histories.settled_with 1000 Scenarios.success))
    as (_ & _ & _ & _ & _ & _ & Hrows).
  exact (Hrows _ Hr).
Defined.

(** X18.  Only a claimed withdrawal is executed.  For an id that no row
    carries, or whose rows are pending, completed or failed,
    [process_single_withdrawal] returns at once: nothing is written, no
    wallet is debited and the provider is not called.  This holds in any
    state of the database. *)
Theorem only_claimed_withdrawals_are_executed (bank : nat -> BankReply)
  (withdrawal_id : Z) (w : World) :
  (forall r, In r (scheduled_withdrawals (db w)) ->
             ScheduledWithdrawal.id r = withdrawal_id ->
             ScheduledWithdrawal.status r <> PROCESSING) ->
  process_single_withdrawal bank withdrawal_id w = (Return tt, w).
Proof.
  intros Hnone. apply psw_not_found. now apply fetch_processing_absent.
Qed.

Lemma only_claimed_withdrawals_are_executed_witness :
  let w := Scenarios.scheduled 1000 in
  let bank := Scenarios.always Scenarios.success in
  (forall r, In r (scheduled_withdrawals (db w)) ->
             ScheduledWithdrawal.id r = 1 ->
             ScheduledWithdrawal.status r <> PROCESSING) /\
  process_single_withdrawal bank 1 w = (Return tt, w).
Proof.
  intros w bank.
  assert (Hnone : forall r, In r (scheduled_withdrawals (db w)) ->
                            ScheduledWithdrawal.id r = 1 ->
                            ScheduledWithdrawal.status r <> PROCESSING).
  { intros r [<- | []] _. discriminate. }
  split; [exact Hnone|].
  exact (only_claimed_withdrawals_are_executed bank 1 w Hnone).
Defined.

(** ** The views, end to end *)

(** X19.  A wallet created through [CreateWalletView] can be read back
    through [RetrieveWalletView]: for a uuid no wallet carries the creation
    is answered 201 with balance, freeze amount and available balance all
    0, the retrieval that follows is answered 200 with the same data and
    changes nothing, and the other rows are as they were.  For a uuid that
    is taken the creation raises the integrity error and leaves the world
    as it was. *)
Theorem created_wallet_can_be_retrieved (history : list Op)
  (fresh_uuid : string) :
  let w := run_ops history empty_world in
  ((forall r, In r (wallets (db w)) -> Wallet.uuid r <> fresh_uuid) ->
   exists w' wallet,
     CreateWalletView_post fresh_uuid w =
       (Return {| Http.status := 201;
                  Http.data := Http.WalletData fresh_uuid 0 0 0 |}, w') /\
     RetrieveWalletView_get fresh_uuid w' =
       (Return {| Http.status := 200;
                  Http.data := Http.WalletData fresh_uuid 0 0 0 |}, w') /\
     wallets (db w') = wallets (db w) ++ [wallet] /\
     ~ In (Wallet.id wallet) (map Wallet.id (wallets (db w))) /\
     transactions (db w') = transactions (db w) /\
     scheduled_withdrawals (db w') = scheduled_withdrawals (db w))
  /\
  ((exists r, In r (wallets (db w)) /\ Wallet.uuid r = fresh_uuid) ->
   CreateWalletView_post fresh_uuid w = (Raise IntegrityError, w)).
Proof.
  intros w. split.
  - intros Hfresh.
    assert (Hex : existsb (fun r => String.eqb (Wallet.uuid r) fresh_uuid)
                    (wallets (db w)) = false).
    { destruct (existsb _ _) eqn:E; [|reflexivity].
      apply existsb_exists in E. destruct E as (r & Hr & Heq).
      apply String.eqb_eq in Heq. exfalso. exact (Hfresh r Hr Heq). }
    eexists. exists (new_wallet (db w) fresh_uuid).
    unfold CreateWalletView_post, bind. rewrite create_wallet_run, Hex.
    split; [reflexivity|]. store_simpl. split.
    + unfold RetrieveWalletView_get, try_except, bind.
      change fresh_uuid with (Wallet.uuid (new_wallet (db w) fresh_uuid)) at 1.
      rewrite (Wallet_get_by_uuid_found _ (wallets (db w))
                 (new_wallet (db w) fresh_uuid) []).
      * reflexivity.
      * store_simpl. apply NoDup_map_snoc.
        -- exact (wallet_uuids _ (keys _ (consistent_history history))).
        -- cbn [new_wallet Wallet.uuid]. intros Hin.
           apply in_map_iff in Hin. destruct Hin as (r & Heq & Hr).
           exact (Hfresh r Hr Heq).
      * reflexivity.
    + repeat split. apply next_id_fresh.
  - intros (r & Hr & Hu).
    unfold CreateWalletView_post, bind. rewrite create_wallet_run.
    replace (existsb _ _) with true; [reflexivity|].
    symmetry. apply existsb_exists. exists r. split; [exact Hr|].
    now apply String.eqb_eq.
Qed.

Lemma created_wallet_can_be_retrieved_witness :
  let w := run_ops (Histories.funded 1000) empty_world in
  (forall r, In r (wallets (db w)) -> Wallet.uuid r <> "b"%string) /\
  (exists w',
     CreateWalletView_post "b" w =
       (Return {| Http.status := 201;
                  Http.data := Http.WalletData "b" 0 0 0 |}, w') /\
     RetrieveWalletView_get "b" w' =
       (Return {| Http.status := 200;
                  Http.data := Http.WalletData "b" 0 0 0 |}, w')) /\
  (exists r, In r (wallets (db w)) /\ Wallet.uuid r = "a"%string) /\
  CreateWalletView_post "a" w = (Raise IntegrityError, w).
Proof.
  intros w.
  assert (Hfresh : forall r, In r (wallets (db w)) -> Wallet.uuid r <> "b"%string).
  { intros r [<- | []]. discriminate. }
  assert (Htaken : exists r, In r (wallets (db w)) /\ Wallet.uuid r = "a"%string).
  { exists Scenarios.wallet_a. split; [left|]; reflexivity. }
  split; [exact Hfresh|]. split.
  - destruct (proj1 (created_wallet_can_be_retrieved (Histories.funded 1000) "b")
                Hfresh) as (w' & wallet & Hpost & Hget & _).
    exists w'. split; assumption.
  - split; [exact Htaken|].
    exact (proj2 (created_wallet_can_be_retrieved (Histories.funded 1000) "a")
             Htaken).
Defined.



(** ** Wallet by wallet *)

Lemma wallet_ledger_snoc ty i s s' t :
  transactions s' = transactions s ++ [t] ->
  wallet_ledger ty i s' =
    wallet_ledger ty i s
    + (if Transaction.type_eqb (Transaction.type t) ty
          && (Transaction.wallet t =? i)
       then Transaction.amount t else 0).
Proof.
  intros E. unfold wallet_ledger. rewrite E, filter_app, map_app, sumZ_app.
  cbn [filter]. destruct (_ && _); sums; lia.
Qed.

Lemma wallet_ledger_none ty i s :
  (forall t, In t (transactions s) -> Transaction.wallet t <> i) ->
  wallet_ledger ty i s = 0.
Proof.
  intros Hno. unfold wallet_ledger. rewrite filter_untouched; [reflexivity|].
  intros t Ht. apply andb_false_iff. right. apply Z.eqb_neq. now apply Hno.
Qed.

Lemma reconciled_ext s s' :
  wallets s' = wallets s -> transactions s' = transactions s ->
  reconciled s -> reconciled s'.
Proof.
  intros Ew Et R wallet Hin. unfold wallet_ledger. rewrite Et.
  rewrite Ew in Hin. exact (R wallet Hin).
Qed.

(** One wallet's balance moves by what the one new entry says. *)
Lemma reconciled_moved s s' l1 x l2 t b :
  NoDup (map Wallet.id (wallets s)) ->
  wallets s = l1 ++ x :: l2 ->
  wallets s' = l1 ++ Wallet.with_balance b x :: l2 ->
  transactions s' = transactions s ++ [t] ->
  Transaction.wallet t = Wallet.id x ->
  b = Wallet.balance x
      + match Transaction.type t with
        | DEPOSIT => Transaction.amount t
        | WITHDRAW => - Transaction.amount t
        end ->
  reconciled s -> reconciled s'.
Proof.
  intros Hnd Hw Hw' Ht Hwt Hb R wallet Hin.
  rewrite (wallet_ledger_snoc DEPOSIT _ s s' t Ht).
  rewrite (wallet_ledger_snoc WITHDRAW _ s s' t Ht).
  rewrite Hw in Hnd. rewrite Hw' in Hin.
  assert (Hx : In x (wallets s)) by (rewrite Hw; apply in_or_app; right; now left).
  assert (Hcases : wallet = Wallet.with_balance b x \/ In wallet (l1 ++ l2)).
  { apply in_app_or in Hin. destruct Hin as [Hin | [Hin | Hin]].
    - right. apply in_or_app. now left.
    - now left.
    - right. apply in_or_app. now right. }
  destruct Hcases as [-> | Hold].
  - cbn [Wallet.with_balance Wallet.id Wallet.balance].
    rewrite Hwt, Z.eqb_refl, !andb_true_r. specialize (R x Hx).
    destruct (Transaction.type t); cbn [Transaction.type_eqb]; lia.
  - pose proof (nodup_key_split Wallet.id l1 x l2 wallet Hnd Hold) as Hne.
    replace (Transaction.wallet t =? Wallet.id wallet) with false
      by (symmetry; apply Z.eqb_neq; congruence).
    rewrite !andb_false_r, !Z.add_0_r. apply R. rewrite Hw.
    apply in_app_or in Hold. apply in_or_app.
    destruct Hold as [Hold | Hold]; [now left | right; now right].
Qed.

Lemma reconciled_create_wallet u w :
  wellformed (db w) -> reconciled (db w) ->
  reconciled (db (exec (create_wallet u) w)).
Proof.
  intros Wf R. unfold exec. rewrite create_wallet_run.
  destruct (existsb _ _); [exact R|]. store_simpl.
  intros wallet Hin. cbn [wallets] in Hin.
  unfold wallet_ledger. cbn [transactions].
  fold (wallet_ledger DEPOSIT (Wallet.id wallet) (db w)).
  fold (wallet_ledger WITHDRAW (Wallet.id wallet) (db w)).
  apply in_app_or in Hin. destruct Hin as [Hin | [<- | []]]; [now apply R|].
  assert (Hno : forall t, In t (transactions (db w)) ->
                          Transaction.wallet t <> Wallet.id (new_wallet (db w) u)).
  { intros t Ht Heq. apply (next_id_fresh (map Wallet.id (wallets (db w)))).
    cbn [new_wallet Wallet.id] in Heq. rewrite <- Heq.
    exact (entries_have_wallets _ Wf t Ht). }
  rewrite !wallet_ledger_none by exact Hno. reflexivity.
Qed.

Lemma reconciled_deposit u a w :
  consistent (db w) -> reconciled (db w) ->
  reconciled (db (exec (deposit_to_wallet u a) w)).
Proof.
  intros H R. unfold exec.
  destruct (Z_le_gt_dec a 0) as [Hle | Hgt].
  { now rewrite deposit_rejected. }
  destruct (wallet_uuid_cases u (wallets (db w)))
    as [(l1 & wallet & l2 & Hsplit & Hu) | Hnone].
  2:{ rewrite deposit_missing; [exact R | lia | exact Hnone]. }
  destruct (fits (Wallet.balance wallet + a)) eqn:Hfit.
  2:{ rewrite (deposit_refused u a w l1 l2 wallet);
        [exact R | lia | exact (wallet_uuids _ (keys _ H)) | exact Hsplit
         | exact Hu | exact Hfit]. }
  rewrite (deposit_found u a w l1 l2 wallet);
    [| lia | exact (wallet_ids _ (keys _ H)) | exact (wallet_uuids _ (keys _ H))
     | exact Hsplit | exact Hu | exact Hfit].
  cbn [snd db].
  apply (reconciled_moved (db w) _ l1 wallet l2 (deposit_txn (db w) wallet a)
           (Wallet.balance wallet + a));
    try reflexivity; try assumption.
  exact (wallet_ids _ (keys _ H)).
Qed.

Lemma reconciled_schedule now u a t w :
  reconciled (db w) ->
  reconciled (db (exec (create_withdraw_request now u a t) w)).
Proof.
  apply reconciled_ext; [apply schedule_wallets | apply schedule_frame].
Qed.

Lemma reconciled_claim now w :
  reconciled (db w) -> reconciled (db (exec (claim_due now) w)).
Proof.
  apply reconciled_ext; [apply claim_wallets | apply claim_frame].
Qed.

Lemma reconciled_psw bank wid w :
  consistent (db w) -> reconciled (db w) ->
  reconciled (db (exec (process_single_withdrawal bank wid) w)).
Proof.
  intros H R.
  pose proof (wallet_ids _ (keys _ H)) as Hndw.
  destruct (psw_cases bank wid w (withdrawal_ids _ (keys _ H)) Hndw)
    as [-> | (m1 & wd & m2 & Hrows & Hid & Hst &
              [-> | (l1 & wallet & l2 & msg & Hws & Hwid & Hle & [-> | ->])])];
    cbn [db]; try exact R.
  apply (reconciled_moved (db w) _ l1 wallet l2 (withdraw_txn (db w) wd)
           (Wallet.balance wallet - ScheduledWithdrawal.amount wd));
    try reflexivity; try assumption.
  cbn. congruence.
Qed.

Lemma reconciled_process_each bank ids w :
  consistent (db w) -> reconciled (db w) ->
  reconciled (db (process_each bank ids w)).
Proof.
  revert w. induction ids as [|i ids IH]; intros w H R; [exact R|].
  rewrite process_each_cons.
  apply IH; [now apply consistent_psw | now apply reconciled_psw].
Qed.

Lemma reconciled_run_op o w :
  consistent (db w) -> wellformed (db w) -> reconciled (db w) ->
  reconciled (db (run_op o w)).
Proof.
  intros H Wf R. destruct o; cbn [run_op].
  - now apply reconciled_create_wallet.
  - now apply reconciled_deposit.
  - now apply reconciled_schedule.
  - rewrite sweep_run. apply reconciled_process_each.
    + now apply consistent_claim.
    + now apply reconciled_claim.
Qed.

Lemma reconciled_history ops : reconciled (db (run_ops ops empty_world)).
Proof.
  assert (G : forall ops w, consistent (db w) -> wellformed (db w) ->
                            reconciled (db w) -> reconciled (db (run_ops ops w))).
  { clear ops. induction ops as [|o ops IH]; intros w H Wf R; [exact R|].
    change (run_ops (o :: ops) w) with (run_ops ops (run_op o w)).
    apply IH; [now apply consistent_run_op | now apply wellformed_run_op
              | now apply reconciled_run_op]. }
  apply G; [apply consistent_empty | apply wellformed_empty | intros r []].
Qed.

(** X21.  Every wallet holds what its own entries add up to.  After any
    history of whole calls, for each wallet, the deposit entries of the
    ledger that refer to it minus the withdraw entries that refer to it
    equal its balance: scheduled, refused and failed withdrawals leave no
    trace in the balance, and no entry is booked to the wrong wallet. *)
Theorem every_wallet_matches_its_ledger (ops : list Op) (wallet : Wallet.t) :
  let s := db (run_ops ops empty_world) in
  In wallet (wallets s) ->
  wallet_ledger DEPOSIT (Wallet.id wallet) s
  - wallet_ledger WITHDRAW (Wallet.id wallet) s = Wallet.balance wallet.
Proof. intros s Hin. exact (reconciled_history ops wallet Hin). Qed.

Lemma every_wallet_matches_its_ledger_witness :
  let ops := [CreateWallet "b"] ++
             Histories.settled_with 1000 Scenarios.success in
  let s := db (run_ops ops empty_world) in
  let wallet := {| Wallet.id := 2; Wallet.uuid := "a"; Wallet.balance := 500;
                   Wallet.freeze_amount := 0 |} in
  In wallet (wallets s) /\
  wallet_ledger DEPOSIT 2 s = 1500 /\
  wallet_ledger WITHDRAW 2 s = 1000 /\
  wallet_ledger DEPOSIT 2 s - wallet_ledger WITHDRAW 2 s = 500.
Proof.
  intros ops s wallet.
  assert (Hin : In wallet (wallets s)) by (right; left; reflexivity).
  split; [exact Hin|]. split; [reflexivity|]. split; [reflexivity|].
  exact (every_wallet_matches_its_ledger ops wallet Hin).
Defined.

(** The same wallet, later: key and uuid are what they were. *)
Lemma wallet_at l1 (x : Wallet.t) b l2 wallet :
  In wallet (l1 ++ x :: l2) ->
  exists wallet', In wallet' (l1 ++ Wallet.with_balance b x :: l2) /\
                  Wallet.id wallet' = Wallet.id wallet /\
                  Wallet.uuid wallet' = Wallet.uuid wallet.
Proof.
  intros Hin.
  destruct (in_around _ _ _ (Wallet.with_balance b x) _ Hin) as [-> | Hin'].
  - exists (Wallet.with_balance b x).
    split; [apply in_or_app; right; now left | now split].
  - exists wallet. now split.
Qed.

Lemma wallet_persists_psw bank wid w wallet :
  consistent (db w) ->
  In wallet (wallets (db w)) ->
  exists wallet',
    In wallet' (wallets (db (exec (process_single_withdrawal bank wid) w))) /\
    Wallet.id wallet' = Wallet.id wallet /\
    Wallet.uuid wallet' = Wallet.uuid wallet.
Proof.
  intros H Hin.
  destruct (psw_cases bank wid w (withdrawal_ids _ (keys _ H))
              (wallet_ids _ (keys _ H)))
    as [-> | (m1 & wd & m2 & Hrows & Hid & Hst &
              [-> | (l1 & wallet0 & l2 & msg & Hws & Hwid & Hle & [-> | ->])])];
    cbn [db wallets]; try (exists wallet; now split).
  rewrite Hws in Hin. now apply wallet_at.
Qed.

Lemma wallet_persists_process_each bank ids w wallet :
  consistent (db w) ->
  In wallet (wallets (db w)) ->
  exists wallet',
    In wallet' (wallets (db (process_each bank ids w))) /\
    Wallet.id wallet' = Wallet.id wallet /\
    Wallet.uuid wallet' = Wallet.uuid wallet.
Proof.
  revert w wallet. induction ids as [|i ids IH]; intros w wallet H Hin.
  - exists wallet. now split.
  - rewrite process_each_cons.
    destruct (wallet_persists_psw bank i w wallet H Hin) as (x & Hx & Ei & Eu).
    destruct (IH _ x (consistent_psw bank i w H) Hx) as (y & Hy & Ei' & Eu').
    exists y. split; [exact Hy|]. split; congruence.
Qed.

Lemma wallet_persists_run_op o w wallet :
  consistent (db w) ->
  In wallet (wallets (db w)) ->
  exists wallet',
    In wallet' (wallets (db (run_op o w))) /\
    Wallet.id wallet' = Wallet.id wallet /\
    Wallet.uuid wallet' = Wallet.uuid wallet.
Proof.
  intros H Hin. destruct o; cbn [run_op].
  - exists wallet. split; [|now split]. unfold exec. rewrite create_wallet_run.
    destruct (existsb _ _); [exact Hin|]. store_simpl.
    apply in_or_app. now left.
  - unfold exec.
    destruct (Z_le_gt_dec amount 0) as [Hle | Hgt].
    { rewrite deposit_rejected by exact Hle. exists wallet. now split. }
    destruct (wallet_uuid_cases wallet_uuid (wallets (db w)))
      as [(l1 & wallet0 & l2 & Hsplit & Hu) | Hnone].
    2:{ rewrite deposit_missing; [exists wallet; now split | lia | exact Hnone]. }
    destruct (fits (Wallet.balance wallet0 + amount)) eqn:Hfit.
    2:{ rewrite (deposit_refused wallet_uuid amount w l1 l2 wallet0);
          [exists wallet; now split | lia | exact (wallet_uuids _ (keys _ H))
           | exact Hsplit | exact Hu | exact Hfit]. }
    rewrite (deposit_found wallet_uuid amount w l1 l2 wallet0);
      [| lia | exact (wallet_ids _ (keys _ H))
       | exact (wallet_uuids _ (keys _ H)) | exact Hsplit | exact Hu
       | exact Hfit].
    cbn [snd db wallets]. rewrite Hsplit in Hin. now apply wallet_at.
  - rewrite schedule_wallets. exists wallet. now split.
  - rewrite sweep_run. apply wallet_persists_process_each.
    + now apply consistent_claim.
    + now rewrite claim_wallets.
Qed.

Lemma wallet_persists_run_ops ops w wallet :
  consistent (db w) ->
  In wallet (wallets (db w)) ->
  exists wallet',
    In wallet' (wallets (db (run_ops ops w))) /\
    Wallet.id wallet' = Wallet.id wallet /\
    Wallet.uuid wallet' = Wallet.uuid wallet.
Proof.
  revert w wallet. induction ops as [|o ops IH]; intros w wallet H Hin.
  - exists wallet. now split.
  - change (run_ops (o :: ops) w) with (run_ops ops (run_op o w)).
    destruct (wallet_persists_run_op o w wallet H Hin) as (x & Hx & Ei & Eu).
    destruct (IH _ x (consistent_run_op o w H) Hx) as (y & Hy & Ei' & Eu').
    exists y. split; [exact Hy|]. split; congruence.
Qed.

(** X22.  A wallet, once created, can always be retrieved.  Through any
    later history the wallet keeps its key and its uuid, and
    [RetrieveWalletView] answers 200 for that uuid, changing nothing, with
    a balance that is at least zero, freeze amount 0 and the balance again
    as available balance: no call deletes a wallet or gives it another
    uuid. *)
Theorem wallet_can_always_be_retrieved (history future : list Op)
  (wallet : Wallet.t) :
  let w := run_ops history empty_world in
  let w' := run_ops future w in
  In wallet (wallets (db w)) ->
  exists wallet',
    In wallet' (wallets (db w')) /\
    Wallet.id wallet' = Wallet.id wallet /\
    Wallet.uuid wallet' = Wallet.uuid wallet /\
    0 <= Wallet.balance wallet' /\
    RetrieveWalletView_get (Wallet.uuid wallet) w' =
      (Return {| Http.status := 200;
                 Http.data :=
                   Http.WalletData (Wallet.uuid wallet)
                     (Wallet.balance wallet') 0 (Wallet.balance wallet') |},
       w').
Proof.
  intros w w' Hin.
  pose proof (consistent_history history) as H.
  destruct (wallet_persists_run_ops future w wallet H Hin) as (x & Hx & Ei & Eu).
  assert (Hw' : w' = run_ops (history ++ future) empty_world).
  { unfold w', w, run_ops. now rewrite fold_left_app. }
  pose proof (consistent_history (history ++ future)) as H'.
  pose proof (wellformed_history (history ++ future)) as Wf.
  rewrite <- Hw' in H', Wf.
  exists x. split; [exact Hx|]. split; [exact Ei|]. split; [exact Eu|].
  split; [exact (solvent_wallets _ Wf x Hx)|].
  destruct (in_split _ _ Hx) as (l1 & l2 & Hsplit).
  unfold RetrieveWalletView_get, try_except, bind. rewrite <- Eu.
  rewrite (Wallet_get_by_uuid_found w' l1 x l2
             (wallet_uuids _ (keys _ H')) Hsplit).
  unfold WalletSerializer_data, Wallet.available_balance.
  rewrite (nothing_frozen _ Wf x Hx), Z.sub_0_r. reflexivity.
Qed.

Lemma wallet_can_always_be_retrieved_witness :
  let history := Histories.funded 1000 in
  let future := [Sweep (Scenarios.always Scenarios.success) 61000000;
                 CreateWallet "b"; Deposit "a" 10] in
  let w' := run_ops future (run_ops history empty_world) in
  In Scenarios.wallet_a (wallets (db (run_ops history empty_world))) /\
  RetrieveWalletView_get "a" w' =
    (Return {| Http.status := 200;
               Http.data := Http.WalletData "a" 510 0 510 |}, w').
Proof.
  intros history future w'.
  assert (Hin : In Scenarios.wallet_a
                  (wallets (db (run_ops history empty_world))))
    by (left; reflexivity).
  split; [exact Hin|].
  destruct (wallet_can_always_be_retrieved history future Scenarios.wallet_a Hin)
    as (x & Hx & Ei & _ & _ & Hget).
  cbv zeta in Hget. fold w' in Hget.
  change (Wallet.uuid Scenarios.wallet_a) with "a"%string in Hget.
  rewrite Hget.
  destruct Hx as [<- | [<- | []]]; [reflexivity | discriminate Ei].
Defined.

(** ** Retrieval, and what the columns hold *)

(** X23.  The two answers of [RetrieveWalletView].  For a uuid no wallet
    carries the answer is 404, in any state of the database; for the uuid
    of a wallet, with unique uuids, it is 200 with the wallet's uuid,
    balance and freeze amount and, as available balance, the balance minus
    the freeze amount.  Neither changes anything. *)
Theorem RetrieveWalletView_get_responses (wallet_uuid : string) (w : World) :
  ((forall r, In r (wallets (db w)) -> Wallet.uuid r <> wallet_uuid) ->
   RetrieveWalletView_get wallet_uuid w =
     (Return {| Http.status := 404; Http.data := Http.NotFound |}, w))
  /\
  (forall wallet,
     NoDup (map Wallet.uuid (wallets (db w))) ->
     In wallet (wallets (db w)) ->
     Wallet.uuid wallet = wallet_uuid ->
     RetrieveWalletView_get wallet_uuid w =
       (Return {| Http.status := 200;
                  Http.data :=
                    Http.WalletData wallet_uuid (Wallet.balance wallet)
                      (Wallet.freeze_amount wallet)
                      (Wallet.balance wallet - Wallet.freeze_amount wallet) |},
        w)).
Proof.
  split.
  - intros Hnone.
    unfold RetrieveWalletView_get, try_except, bind.
    cbv [Wallet_get_by_uuid bind get_db].
    rewrite filter_untouched; [reflexivity|].
    intros r Hr. apply String.eqb_neq. now apply Hnone.
  - intros wallet Huuid Hin <-.
    destruct (in_split _ _ Hin) as (l1 & l2 & Hsplit).
    unfold RetrieveWalletView_get, try_except, bind.
    now rewrite (Wallet_get_by_uuid_found w l1 wallet l2 Huuid Hsplit).
Qed.

Lemma RetrieveWalletView_get_responses_witness :
  let w := Scenarios.w1500 in
  ((forall r, In r (wallets (db w)) -> Wallet.uuid r <> "b"%string) /\
   RetrieveWalletView_get "b" w =
     (Return {| Http.status := 404; Http.data := Http.NotFound |}, w))
  /\
  (NoDup (map Wallet.uuid (wallets (db w))) /\
   In Scenarios.wallet_a (wallets (db w)) /\
   RetrieveWalletView_get "a" w =
     (Return {| Http.status := 200;
                Http.data := Http.WalletData "a" 1500 0 1500 |}, w)).
Proof.
  intros w.
  assert (Hnone : forall r, In r (wallets (db w)) -> Wallet.uuid r <> "b"%string).
  { intros r [<- | []]. discriminate. }
  assert (Huuid : NoDup (map Wallet.uuid (wallets (db w)))) by nodup_list.
  assert (Hin : In Scenarios.wallet_a (wallets (db w))) by (left; reflexivity).
  split.
  - split; [exact Hnone|].
    exact (proj1 (RetrieveWalletView_get_responses "b" w) Hnone).
  - split; [exact Huuid|]. split; [exact Hin|].
    exact (proj2 (RetrieveWalletView_get_responses "a" w)
             Scenarios.wallet_a Huuid Hin eq_refl).
Defined.

Lemma in_range_empty : in_range empty_store.
Proof. constructor; intros r []. Qed.

Lemma in_range_create_wallet u w :
  in_range (db w) -> in_range (db (exec (create_wallet u) w)).
Proof.
  intros [B E W]. unfold exec. rewrite create_wallet_run.
  destruct (existsb _ _); [now constructor|].
  constructor; store_simpl; try assumption.
  intros r Hr. apply in_app_or in Hr. destruct Hr as [Hr | [<- | []]].
  - now apply B.
  - cbn. discriminate.
Qed.

Lemma in_range_deposit u a w :
  consistent (db w) -> wellformed (db w) -> in_range (db w) ->
  in_range (db (exec (deposit_to_wallet u a) w)).
Proof.
  intros H Wf R. pose proof R as [B E W]. unfold exec.
  destruct (Z_le_gt_dec a 0) as [Hle | Hgt].
  { now rewrite deposit_rejected. }
  destruct (wallet_uuid_cases u (wallets (db w)))
    as [(l1 & wallet & l2 & Hsplit & Hu) | Hnone].
  2:{ rewrite deposit_missing; [exact R | lia | exact Hnone]. }
  destruct (fits (Wallet.balance wallet + a)) eqn:Hfit.
  2:{ rewrite (deposit_refused u a w l1 l2 wallet);
        [exact R | lia | exact (wallet_uuids _ (keys _ H)) | exact Hsplit
         | exact Hu | exact Hfit]. }
  rewrite (deposit_found u a w l1 l2 wallet);
    [| lia | exact (wallet_ids _ (keys _ H)) | exact (wallet_uuids _ (keys _ H))
     | exact Hsplit | exact Hu | exact Hfit].
  apply fits_spec in Hfit.
  assert (Hwallet : In wallet (wallets (db w)))
    by (rewrite Hsplit; apply in_or_app; right; now left).
  pose proof (solvent_wallets _ Wf wallet Hwallet) as Hpos.
  constructor; store_simpl; try assumption.
  - intros r Hr. destruct (in_around _ _ _ wallet _ Hr) as [-> | Hr'].
    + cbn. lia.
    + apply B. now rewrite Hsplit.
  - intros t Ht. apply in_app_or in Ht. destruct Ht as [Ht | [<- | []]].
    + now apply E.
    + cbn. lia.
Qed.

Lemma in_range_schedule now u a t w :
  consistent (db w) -> in_range (db w) ->
  in_range (db (exec (create_withdraw_request now u a t) w)).
Proof.
  intros H R. pose proof R as [B E W]. unfold exec.
  destruct (Z_le_gt_dec a 0) as [Hle | Hgt].
  { destruct (schedule_rejected now u a t w (or_introl Hle)) as (msg & ->).
    exact R. }
  destruct (Z_le_gt_dec t now) as [Hpast | Hfut].
  { destruct (schedule_rejected now u a t w (or_intror Hpast)) as (msg & ->).
    exact R. }
  destruct (wallet_uuid_cases u (wallets (db w)))
    as [(l1 & wallet & l2 & Hsplit & Hu) | Hnone].
  2:{ rewrite schedule_missing; [exact R | lia | lia | exact Hnone]. }
  destruct (Z_le_gt_dec a BIGINT_MAX) as [Hmax | Hmax].
  2:{ rewrite (schedule_refused now u a t w l1 l2 wallet);
        [exact R | lia | lia | exact (wallet_uuids _ (keys _ H)) | exact Hsplit
         | exact Hu | lia]. }
  rewrite (schedule_found now u a t w l1 l2 wallet);
    [| lia | lia | exact (wallet_uuids _ (keys _ H)) | exact Hsplit
     | exact Hu | exact Hmax].
  constructor; store_simpl; try assumption.
  intros r Hr. apply in_app_or in Hr. destruct Hr as [Hr | [<- | []]].
  - now apply W.
  - cbn. exact Hmax.
Qed.

Lemma in_range_claim now w :
  in_range (db w) -> in_range (db (exec (claim_due now) w)).
Proof.
  intros [B E W]. unfold exec. rewrite claim_due_run.
  destruct (due_ids now (db w)); [now constructor|].
  constructor; store_simpl; try assumption.
  intros r Hr. apply in_update_rows in Hr. destruct Hr as (r0 & Hr0 & ->).
  destruct (is_due _ _ r0); [cbn|]; now apply W.
Qed.

Lemma in_range_psw bank wid w :
  consistent (db w) -> wellformed (db w) -> in_range (db w) ->
  in_range (db (exec (process_single_withdrawal bank wid) w)).
Proof.
  intros H Wf R. pose proof R as [B E W].
  assert (Hrows : forall m1 wd m2 wd',
            scheduled_withdrawals (db w) = m1 ++ wd :: m2 ->
            ScheduledWithdrawal.amount wd' = ScheduledWithdrawal.amount wd ->
            forall r, In r (m1 ++ wd' :: m2) ->
                      ScheduledWithdrawal.amount r <= BIGINT_MAX).
  { intros m1 wd m2 wd' Hsplit Ha r Hr.
    destruct (in_around _ _ _ wd _ Hr) as [-> | Hr'].
    - rewrite Ha. apply W. rewrite Hsplit. apply in_or_app. right. now left.
    - apply W. now rewrite Hsplit. }
  destruct (psw_cases bank wid w (withdrawal_ids _ (keys _ H))
              (wallet_ids _ (keys _ H)))
    as [-> | (m1 & wd & m2 & Hsplit & Hid & Hst &
              [-> | (l1 & wallet & l2 & msg & Hws & Hwid & Hle & [-> | ->])])];
    [exact R | | |].
  - constructor; store_simpl; try assumption.
    now apply (Hrows m1 wd m2).
  - assert (Hwd : In wd (scheduled_withdrawals (db w)))
      by (rewrite Hsplit; apply in_or_app; right; now left).
    pose proof (positive_withdrawals _ Wf wd Hwd) as Hpos.
    constructor; store_simpl.
    + intros r Hr. destruct (in_around _ _ _ wallet _ Hr) as [-> | Hr'].
      * cbn. assert (Wallet.balance wallet <= BIGINT_MAX); [|lia].
        apply B. rewrite Hws. apply in_or_app. right. now left.
      * apply B. now rewrite Hws.
    + intros t Ht. apply in_app_or in Ht. destruct Ht as [Ht | [<- | []]].
      * now apply E.
      * cbn. now apply W.
    + now apply (Hrows m1 wd m2).
  - constructor; store_simpl; try assumption.
    now apply (Hrows m1 wd m2).
Qed.

Lemma in_range_process_each bank ids w :
  consistent (db w) -> wellformed (db w) -> in_range (db w) ->
  in_range (db (process_each bank ids w)).
Proof.
  revert w. induction ids as [|i ids IH]; intros w H Wf R; [exact R|].
  rewrite process_each_cons.
  apply IH; [now apply consistent_psw | now apply wellformed_psw
            | now apply in_range_psw].
Qed.

Lemma in_range_run_op o w :
  consistent (db w) -> wellformed (db w) -> in_range (db w) ->
  in_range (db (run_op o w)).
Proof.
  intros H Wf R. destruct o; cbn [run_op].
  - now apply in_range_create_wallet.
  - now apply in_range_deposit.
  - now apply in_range_schedule.
  - rewrite sweep_run. apply in_range_process_each.
    + now apply consistent_claim.
    + now apply wellformed_claim.
    + now apply in_range_claim.
Qed.

Lemma in_range_history ops : in_range (db (run_ops ops empty_world)).
Proof.
  assert (G : forall ops w, consistent (db w) -> wellformed (db w) ->
                            in_range (db w) -> in_range (db (run_ops ops w))).
  { clear ops. induction ops as [|o ops IH]; intros w H Wf R; [exact R|].
    change (run_ops (o :: ops) w) with (run_ops ops (run_op o w)).
    apply IH; [now apply consistent_run_op | now apply wellformed_run_op
              | now apply in_range_run_op]. }
  apply G; [apply consistent_empty | apply wellformed_empty
           | apply in_range_empty].
Qed.

(** X24.  Every stored value is one its column holds.  After any history
    of whole calls, deposits and schedulings that the store refused among
    them, every balance, every freeze amount and every amount of a ledger
    entry or of a withdrawal lies between 0 and the limit of the column:
    the debits, refunds and ledger entries that the execution engine
    writes never leave the range. *)
Theorem rows_fit_their_columns (ops : list Op) :
  let s := db (run_ops ops empty_world) in
  (forall r, In r (wallets s) ->
     fits (Wallet.balance r) = true /\ fits (Wallet.freeze_amount r) = true)
  /\
  (forall t, In t (transactions s) -> fits (Transaction.amount t) = true)
  /\
  (forall r, In r (scheduled_withdrawals s) ->
     fits (ScheduledWithdrawal.amount r) = true).
Proof.
  intros s.
  pose proof (wellformed_history ops) as Wf.
  pose proof (in_range_history ops) as R.
  split; [|split].
  - intros r Hr. split; apply fits_spec.
    + split; [exact (solvent_wallets _ Wf r Hr) | exact (balances_fit _ R r Hr)].
    + rewrite (nothing_frozen _ Wf r Hr). split; [lia | discriminate].
  - intros t Ht. apply fits_spec.
    pose proof (positive_entries _ Wf t Ht).
    pose proof (entries_fit _ R t Ht). lia.
  - intros r Hr. apply fits_spec.
    pose proof (positive_withdrawals _ Wf r Hr).
    pose proof (withdrawals_fit _ R r Hr). lia.
Qed.

(** The history holds a deposit the store refuses; the balance stays 1500
    and the later sweep completes the withdrawal of 1000. *)
Lemma rows_fit_their_columns_witness :
  let ops := Histories.funded 1000 ++
             [Deposit "a" 9223372036854774308;
              Sweep (Scenarios.always Scenarios.success) 61000000] in
  let s := db (run_ops ops empty_world) in
  let wallet := {| Wallet.id := 1; Wallet.uuid := "a"; Wallet.balance := 500;
                   Wallet.freeze_amount := 0 |} in
  In wallet (wallets s) /\
  fits (Wallet.balance wallet) = true /\
  fits (Wallet.freeze_amount wallet) = true.
Proof.
  intros ops s wallet.
  assert (Hin : In wallet (wallets s)) by (left; reflexivity).
  split; [exact Hin|].
  exact (proj1 (rows_fit_their_columns ops) wallet Hin).
Defined.
